(** * PDFTitleHeaderParser: title and outline inference over text fragments

    A shallow embedding of [src/pdf_parser.py] (class [PDFTitleHeaderParser])
    and the properties of its pipeline: table-region detection, font
    profiling, title selection, heading classification, the
    table-of-contents skip and the duplicate guard. *)

From Stdlib Require Import List ZArith NArith QArith Qcanon Bool Ascii String Lia.
From Stdlib Require Import DecimalString DecimalZ Permutation Sorted.
Import ListNotations.

Local Open Scope Z_scope.

Set Implicit Arguments.

(* ================================================================== *)
(** * Python strings *)

(** A Python [str] is a sequence of Unicode code points. *)
Definition char := N.
Definition str := list char.

Definition codes (s : string) : str := map N_of_ascii (list_ascii_of_string s).

Notation "'u' s" := (codes s%string) (at level 1, s at level 0, only parsing).

Definition str_eqb (a b : str) : bool :=
  if list_eq_dec N.eq_dec a b then true else false.

(** The character database the interpreter consults: [str.isspace] (used by
    [strip], [split] and the regex class [\s]), the decimal digits of [\d],
    the word characters of [\w] (behind [\b]) and [str.lower]. *)
Class UnicodeDB := {
  isspace : char -> bool;
  isdecimal : char -> bool;
  isword : char -> bool;
  lower : str -> str
}.

(** The database restricted to code points below 128, where it is the same
    in every Python 3 release; other code points are left caseless and
    belong to no class. *)
Definition between (lo hi c : N) : bool := ((lo <=? c) && (c <=? hi))%N.

Definition ascii_isspace (c : char) : bool :=
  between 9 13 c || between 28 32 c.
Definition ascii_isdecimal (c : char) : bool := between 48 57 c.
Definition ascii_isword (c : char) : bool :=
  between 48 57 c || between 65 90 c || between 97 122 c || (c =? 95)%N.
Definition ascii_lower (s : str) : str :=
  map (fun c => if between 65 90 c then (c + 32)%N else c) s.

Definition ascii_db : UnicodeDB :=
  {| isspace := ascii_isspace; isdecimal := ascii_isdecimal;
     isword := ascii_isword; lower := ascii_lower |}.

Section Strings.
Context {U : UnicodeDB}.

(** [s.strip()] *)
Fixpoint lstrip (s : str) : str :=
  match s with
  | [] => []
  | c :: s' => if isspace c then lstrip s' else s
  end.
Definition rstrip (s : str) : str := rev (lstrip (rev s)).
Definition strip (s : str) : str := rstrip (lstrip s).

(** [s.split()]: the maximal runs of non-whitespace characters. *)
Fixpoint split_from (w : str) (s : str) : list str :=
  match s with
  | [] => match w with [] => [] | _ => [rev w] end
  | c :: s' =>
      if isspace c
      then match w with [] => split_from [] s' | _ => rev w :: split_from [] s' end
      else split_from (c :: w) s'
  end.
Definition split (s : str) : list str := split_from [] s.

(** [re.sub(r'\s+', ' ', s)]: every maximal run of whitespace becomes one
    space.  [in_run] tells that the previous character was whitespace. *)
Fixpoint collapse_from (in_run : bool) (s : str) : str :=
  match s with
  | [] => []
  | c :: s' =>
      if isspace c
      then if in_run then collapse_from true s' else 32%N :: collapse_from true s'
      else c :: collapse_from false s'
  end.
Definition collapse_ws (s : str) : str := collapse_from false s.

(** [re.sub(r'\s', '', s)] *)
Definition remove_ws (s : str) : str := filter (fun c => negb (isspace c)) s.

(** [needle in hay] on strings. *)
Fixpoint startswith (p s : str) : bool :=
  match p, s with
  | [], _ => true
  | _ :: _, [] => false
  | a :: p', b :: s' => (a =? b)%N && startswith p' s'
  end.
Fixpoint contains (needle hay : str) : bool :=
  startswith needle hay ||
  match hay with
  | [] => false
  | _ :: hay' => contains needle hay'
  end.

(** [a < b] on strings: lexicographic on code points, a proper prefix first. *)
Fixpoint str_ltb (a b : str) : bool :=
  match a, b with
  | _, [] => false
  | [], _ :: _ => true
  | x :: a', y :: b' => (x <? y)%N || ((x =? y)%N && str_ltb a' b')
  end.

(* ================================================================== *)
(** * Regular expressions

    The patterns of the source, as syntax trees, and a backtracking matcher.
    The source only tests whether [re.match] and [re.search] find a match,
    so the matcher answers with a boolean. *)

Inductive regex :=
| Eps                               (* the empty pattern *)
| Chr (c : char)                    (* a literal character *)
| Cls (f : char -> bool)            (* a class: \d, \s, [...], . *)
| Cat (r1 r2 : regex)
| Or (r1 r2 : regex)                (* r1|r2 *)
| Star (r : regex)                  (* r* *)
| Bol                               (* ^ *)
| Eol                               (* $ *)
| WordB.                            (* \b *)
Arguments Chr c%_N.

Definition Seq (rs : list regex) : regex := fold_right Cat Eps rs.
Definition Alts (rs : list regex) : regex :=
  match rs with
  | [] => Eps
  | r :: rs' => fold_left Or rs' r
  end.
Definition Lit (s : string) : regex := Seq (map Chr (codes s)).
Definition Plus (r : regex) : regex := Cat r (Star r).
Definition Opt (r : regex) : regex := Or r Eps.
Fixpoint Pow (n : nat) (r : regex) : regex :=
  match n with O => Eps | S n' => Cat r (Pow n' r) end.
Fixpoint UpTo (n : nat) (r : regex) : regex :=
  match n with O => Eps | S n' => Opt (Cat r (UpTo n' r)) end.
(** [r{lo,hi}] and [r{lo,}] *)
Definition Rep (lo hi : nat) (r : regex) : regex := Cat (Pow lo r) (UpTo (hi - lo) r).
Definition RepFrom (lo : nat) (r : regex) : regex := Cat (Pow lo r) (Star r).

Definition Digit : regex := Cls isdecimal.                  (* \d *)
Definition Space : regex := Cls isspace.                    (* \s *)
Definition Dot : regex := Cls (fun c => negb (c =? 10)%N).  (* .  *)
Definition OneOf (s : string) : regex :=
  Cls (fun c => existsb (N.eqb c) (codes s)).

Definition word_at (c : option char) : bool :=
  match c with Some x => isword x | None => false end.

(** The iterations of [r*]: [step] matches one [r]; an iteration has to
    consume something for a further one to follow, so that [n], the length
    of the text, bounds their number. *)
Fixpoint star_loop (step : option char -> str -> (option char -> str -> bool) -> bool)
    (k : option char -> str -> bool) (n : nat) (prev : option char) (s : str) : bool :=
  match n with
  | O => k prev s
  | S n' =>
      step prev s
        (fun p' s' => (List.length s' <? List.length s)%nat && star_loop step k n' p' s')
      || k prev s
  end.

(** [mtch r prev s k]: some way of matching [r] at the front of [s] (the
    character before it being [prev], [None] at the start of the text)
    leaves a rest accepted by [k]. *)
Fixpoint mtch (r : regex) (prev : option char) (s : str)
    (k : option char -> str -> bool) {struct r} : bool :=
  match r with
  | Eps => k prev s
  | Chr c => match s with x :: s' => (x =? c)%N && k (Some x) s' | [] => false end
  | Cls f => match s with x :: s' => f x && k (Some x) s' | [] => false end
  | Cat r1 r2 => mtch r1 prev s (fun p' s' => mtch r2 p' s' k)
  | Or r1 r2 => mtch r1 prev s k || mtch r2 prev s k
  | Star r1 => star_loop (mtch r1) k (List.length s) prev s
  | Bol => match prev with None => k prev s | Some _ => false end
  | Eol => match s with
           | [] => k prev s
           | [c] => (c =? 10)%N && k prev s
           | _ => false
           end
  | WordB => xorb (word_at prev) (word_at (hd_error s)) && k prev s
  end.

Definition accept (_ : option char) (_ : str) : bool := true.

(** The character before the position reached after [w]. *)
Definition last_char (prev : option char) (w : str) : option char :=
  fold_left (fun _ c => Some c) w prev.

(** [Matches r prev w rest]: the pattern [r] matches the text [w], found
    after the character [prev] and before the text [rest]. *)
Inductive Matches : regex -> option char -> str -> str -> Prop :=
| M_Eps prev rest : Matches Eps prev [] rest
| M_Chr c prev rest : Matches (Chr c) prev [c] rest
| M_Cls (f : char -> bool) c prev rest : f c = true -> Matches (Cls f) prev [c] rest
| M_Cat r1 r2 prev w1 w2 rest :
    Matches r1 prev w1 (w2 ++ rest) ->
    Matches r2 (last_char prev w1) w2 rest ->
    Matches (Cat r1 r2) prev (w1 ++ w2) rest
| M_OrL r1 r2 prev w rest : Matches r1 prev w rest -> Matches (Or r1 r2) prev w rest
| M_OrR r1 r2 prev w rest : Matches r2 prev w rest -> Matches (Or r1 r2) prev w rest
| M_Star0 r prev rest : Matches (Star r) prev [] rest
| M_StarS r prev w1 w2 rest :
    w1 <> [] ->
    Matches r prev w1 (w2 ++ rest) ->
    Matches (Star r) (last_char prev w1) w2 rest ->
    Matches (Star r) prev (w1 ++ w2) rest
| M_Bol rest : Matches Bol None [] rest
| M_Eol prev rest : rest = [] \/ rest = [10%N] -> Matches Eol prev [] rest
| M_WordB prev rest :
    xorb (word_at prev) (word_at (hd_error rest)) = true -> Matches WordB prev [] rest.

(** [txt] has a part that matches [r]. *)
Definition has_match (r : regex) (txt : str) : Prop :=
  exists a w b, txt = a ++ w ++ b /\ Matches r (last_char None a) w b.

(** [re.match(r, s)] is not [None]. *)
Definition re_match (r : regex) (s : str) : bool := mtch r None s accept.

(** [re.search(r, s)] is not [None]: a match starting at some position. *)
Fixpoint search_from (r : regex) (prev : option char) (s : str) : bool :=
  mtch r prev s accept ||
  match s with
  | [] => false
  | c :: s' => search_from r (Some c) s'
  end.
Definition re_search (r : regex) (s : str) : bool := search_from r None s.

End Strings.

Arguments Chr c%_N.

(* ================================================================== *)
(** * Data model *)

(** Python numbers (the font sizes are [int] or finite [float] values, and
    are only ever compared) are exact rationals. *)
Definition num (z : Z) : Qc := Q2Qc (inject_Z z).
Definition Qc_eqb (x y : Qc) : bool := Qeq_bool x y.
Definition Qc_leb (x y : Qc) : bool := Qle_bool x y.
Definition Qc_ltb (x y : Qc) : bool := negb (Qle_bool y x).

(** [len(s)] *)
Definition len (s : str) : Z := Z.of_nat (List.length s).

(** A text fragment is a dict with the keys ['text'], ['page'],
    ['font_size'] and ['bold'], each of which may be missing. *)
Record element := {
  text : option str;
  page : option Z;
  font_size : option Qc;
  bold : option bool
}.

(** [d.get(key, default)] *)
Definition get {A : Type} (field : option A) (default : A) : A :=
  match field with Some v => v | None => default end.

(** [d.get(key) == v] *)
Definition get_is {A : Type} (eqb : A -> A -> bool) (field : option A) (v : A) : bool :=
  match field with Some w => eqb w v | None => false end.

(** [bool(d)] of a dict: it has at least one key. *)
Definition truthy (e : element) : bool :=
  match text e, page e, font_size e, bold e with
  | None, None, None, None => false
  | _, _, _, _ => true
  end.

Definition option_eqb {A : Type} (eqb : A -> A -> bool) (a b : option A) : bool :=
  match a, b with
  | Some x, Some y => eqb x y
  | None, None => true
  | _, _ => false
  end.

(** [e1 == e2] on dicts: the same keys with equal values. *)
Definition element_eqb (a b : element) : bool :=
  option_eqb str_eqb (text a) (text b) && option_eqb Z.eqb (page a) (page b) &&
  option_eqb Qc_eqb (font_size a) (font_size b) && option_eqb Bool.eqb (bold a) (bold b).

(** [enumerate(l)] *)
Fixpoint enumerate_from {A : Type} (i : nat) (l : list A) : list (nat * A) :=
  match l with
  | [] => []
  | x :: l' => (i, x) :: enumerate_from (S i) l'
  end.
Definition enumerate {A : Type} (l : list A) : list (nat * A) := enumerate_from 0 l.

Inductive level := H1 | H2.

(** An outline entry [{"level": .., "text": .., "page": ..}]. *)
Record entry := {
  entry_level : level;
  entry_text : str;
  entry_page : Z
}.

(** A body record [{"text": .., "page": .., "type": "paragraph"}]. *)
Record paragraph := {
  paragraph_text : str;
  paragraph_page : Z
}.

(** The record [parse_pdf_data] returns. *)
Record document := {
  doc_title : str;
  doc_outline : list entry
}.

(** One value of [font_data]. *)
Record font_stats := {
  count : Z;
  total_chars : Z;
  pages : list Z       (* a set of pages *)
}.

(** [len(v['pages'])] *)
Definition len_pages (v : font_stats) : Z := Z.of_nat (List.length (pages v)).

(** One value of [self.font_analysis]: [pages] replaced by its size. *)
Record font_summary := {
  sum_count : Z;
  sum_total_chars : Z;
  sum_pages : Z
}.

(** The fields of a [PDFTitleHeaderParser] instance. *)
Record parser := {
  title : option element;
  title_page : option Z;
  outline : list entry;
  content : list paragraph;
  font_analysis : list (Qc * font_summary);
  paragraph_font_size : Qc;
  in_toc_section : bool;
  seen_headers : list str;        (* a set of strings *)
  table_elements : list nat;      (* a set of indices *)
  toc_patterns : list regex
}.

Definition set_title (v : option element) (self : parser) : parser :=
  {| title := v; title_page := title_page self; outline := outline self;
     content := content self; font_analysis := font_analysis self;
     paragraph_font_size := paragraph_font_size self;
     in_toc_section := in_toc_section self; seen_headers := seen_headers self;
     table_elements := table_elements self; toc_patterns := toc_patterns self |}.
Definition set_title_page (v : option Z) (self : parser) : parser :=
  {| title := title self; title_page := v; outline := outline self;
     content := content self; font_analysis := font_analysis self;
     paragraph_font_size := paragraph_font_size self;
     in_toc_section := in_toc_section self; seen_headers := seen_headers self;
     table_elements := table_elements self; toc_patterns := toc_patterns self |}.
Definition set_outline (v : list entry) (self : parser) : parser :=
  {| title := title self; title_page := title_page self; outline := v;
     content := content self; font_analysis := font_analysis self;
     paragraph_font_size := paragraph_font_size self;
     in_toc_section := in_toc_section self; seen_headers := seen_headers self;
     table_elements := table_elements self; toc_patterns := toc_patterns self |}.
Definition set_content (v : list paragraph) (self : parser) : parser :=
  {| title := title self; title_page := title_page self; outline := outline self;
     content := v; font_analysis := font_analysis self;
     paragraph_font_size := paragraph_font_size self;
     in_toc_section := in_toc_section self; seen_headers := seen_headers self;
     table_elements := table_elements self; toc_patterns := toc_patterns self |}.
Definition set_font_analysis (v : list (Qc * font_summary)) (self : parser) : parser :=
  {| title := title self; title_page := title_page self; outline := outline self;
     content := content self; font_analysis := v;
     paragraph_font_size := paragraph_font_size self;
     in_toc_section := in_toc_section self; seen_headers := seen_headers self;
     table_elements := table_elements self; toc_patterns := toc_patterns self |}.
Definition set_paragraph_font_size (v : Qc) (self : parser) : parser :=
  {| title := title self; title_page := title_page self; outline := outline self;
     content := content self; font_analysis := font_analysis self;
     paragraph_font_size := v;
     in_toc_section := in_toc_section self; seen_headers := seen_headers self;
     table_elements := table_elements self; toc_patterns := toc_patterns self |}.
Definition set_in_toc_section (v : bool) (self : parser) : parser :=
  {| title := title self; title_page := title_page self; outline := outline self;
     content := content self; font_analysis := font_analysis self;
     paragraph_font_size := paragraph_font_size self;
     in_toc_section := v; seen_headers := seen_headers self;
     table_elements := table_elements self; toc_patterns := toc_patterns self |}.
Definition set_seen_headers (v : list str) (self : parser) : parser :=
  {| title := title self; title_page := title_page self; outline := outline self;
     content := content self; font_analysis := font_analysis self;
     paragraph_font_size := paragraph_font_size self;
     in_toc_section := in_toc_section self; seen_headers := v;
     table_elements := table_elements self; toc_patterns := toc_patterns self |}.
Definition set_table_elements (v : list nat) (self : parser) : parser :=
  {| title := title self; title_page := title_page self; outline := outline self;
     content := content self; font_analysis := font_analysis self;
     paragraph_font_size := paragraph_font_size self;
     in_toc_section := in_toc_section self; seen_headers := seen_headers self;
     table_elements := v; toc_patterns := toc_patterns self |}.

(** A set held as a list: [x in s] and [s.add(x)]. *)
Definition mem {A : Type} (eqb : A -> A -> bool) (x : A) (s : list A) : bool :=
  existsb (eqb x) s.
Definition add {A : Type} (eqb : A -> A -> bool) (x : A) (s : list A) : list A :=
  if mem eqb x s then s else x :: s.

(** What a call either returns or raises. *)
Inductive exn := TypeError.
Inductive result (A : Type) :=
| Ok (a : A)
| Raise (e : exn).
Arguments Ok {A} a.
Arguments Raise {A} e.

Section Engine.
Context {U : UnicodeDB}.

(** [self.toc_patterns].  The source file spells the word of the fourth
    pattern with the two code points U+00C3 U+00A8 in the place of its
    accented letter. *)
Definition the_toc_patterns : list regex :=
  [ Seq [Lit "table"; Plus Space; Lit "of"; Plus Space; Lit "contents"];
    Lit "contents";
    Lit "index";
    Seq [Lit "table"; Plus Space; Lit "des"; Plus Space; Lit "mati";
         Chr 195; Chr 168; Lit "res"];
    Lit "sommaire" ].

(** [__init__]: every field is assigned.  [self.outline = []] binds a new
    list, so the list a previous call returned is not written to. *)
Definition __init__ (self : parser) : parser :=
  {| title := None;
     title_page := None;
     outline := [];
     content := [];
     font_analysis := [];
     paragraph_font_size := num 12;
     in_toc_section := false;
     seen_headers := [];
     table_elements := [];
     toc_patterns := the_toc_patterns |}.

(** ** Table region detector *)

Definition table_indicators : list regex :=
  [ Seq [Bol; Alts [Lit "version"; Lit "date"; Lit "remarks"; Lit "identifier";
                    Lit "reference"; Lit "days"; Lit "syllabus"]; Eol];
    Seq [Bol; Plus Digit; Chr 46; Plus Digit; Eol];
    Seq [Bol; Rep 1 2 Digit; OneOf "/-"; Rep 1 2 Digit; OneOf "/-"; Rep 2 4 Digit; Eol];
    Seq [Bol; Opt (Chr 118); Plus Digit; Chr 46; Plus Digit;
         Opt (Seq [Chr 46; Plus Digit]); Eol];
    Seq [Bol; Lit "rev"; Plus Space; Plus Digit; Eol];
    Seq [Bol; Lit "revision"; Plus Space; Plus Digit; Eol] ].

Definition is_in_tabular_structure (e : element) (all_elements : list element)
    (element_idx : nat) : bool :=
  let pg := get (page e) 1 in
  let size := get (font_size e) (num 12) in
  let same_page_elements :=
    filter (fun ie => get_is Z.eqb (page (snd ie)) pg &&
                      (Z.abs (Z.of_nat (fst ie) - Z.of_nat element_idx) <=? 10))
           (enumerate all_elements) in
  let counts :=
    fold_left
      (fun (c : Z * Z) ie =>
         let '(table_header_count, short_entries_count) := c in
         let txt := lower (strip (get (text (snd ie)) [])) in
         let elem_font := get (font_size (snd ie)) (num 12) in
         let table_header_count :=
           if existsb (fun header => contains header txt)
                      [u"version"; u"date"; u"remarks"]
           then table_header_count + 1 else table_header_count in
         let short_entries_count :=
           if (Z.of_nat (List.length (split txt)) <=? 3) && Qc_eqb elem_font size
           then short_entries_count + 1 else short_entries_count in
         (table_header_count, short_entries_count))
      same_page_elements (0, 0) in
  (2 <=? fst counts) && (3 <=? snd counts).

Definition neighbor_pattern : regex :=
  Seq [Bol; Alts [Lit "version"; Lit "date"; Lit "remarks"; Lit "identifier";
                  Lit "reference"]; Eol].

Definition has_tabular_neighbors (e : element) (all_elements : list element)
    (element_idx : nat) : bool :=
  let pg := get (page e) 1 in
  let start := (element_idx - 5)%nat in
  let stop := Nat.min (List.length all_elements) (element_idx + 6) in
  existsb
    (fun i =>
       match nth_error all_elements i with
       | None => false
       | Some neighbor =>
           if (i =? element_idx)%nat || negb (get_is Z.eqb (page neighbor) pg)
           then false
           else re_match neighbor_pattern (lower (strip (get (text neighbor) [])))
       end)
    (seq start (stop - start)).

Definition is_table_element (e : element) (all_elements : list element)
    (element_idx : nat) : bool :=
  let txt := lower (strip (get (text e) [])) in
  if existsb (fun pattern => re_match pattern txt) table_indicators
  then true
  else is_in_tabular_structure e all_elements element_idx
       || has_tabular_neighbors e all_elements element_idx.

(** [page_elements[page].append(item)] on the dict of lists, which keeps
    its keys in insertion order. *)
Fixpoint append_at (pg : Z) (item : nat * element)
    (d : list (Z * list (nat * element))) : list (Z * list (nat * element)) :=
  match d with
  | [] => [(pg, [item])]
  | (p, l) :: d' =>
      if p =? pg then (p, l ++ [item]) :: d' else (p, l) :: append_at pg item d'
  end.

(** Each page's list is built in index order, so sorting it by index leaves
    it as it is. *)
Definition detect_table_elements (self : parser) (elements : list element) : parser :=
  let page_elements :=
    fold_left (fun d ie => append_at (get (page (snd ie)) 1) ie d)
              (enumerate elements) [] in
  fold_left
    (fun self page_elems =>
       fold_left
         (fun self ie =>
            if is_table_element (snd ie) elements (fst ie)
            then set_table_elements (add Nat.eqb (fst ie) (table_elements self)) self
            else self)
         (snd page_elems) self)
    page_elements self.

(** ** Boilerplate, version and separator filters *)

Definition header_footer_patterns : list regex :=
  [ Seq [Lit "page"; Plus Space; Plus Digit];
    Seq [Bol; Plus Digit; Eol];
    Seq [Lit "chapter"; Plus Space; Plus Digit];
    Seq [Chr 194; Chr 169; Star Space; Pow 4 Digit];
    Lit "confidential";
    Seq [Lit "document"; Plus Space; Lit "id"];
    Seq [WordB; Rep 1 2 Digit; OneOf "/-"; Rep 1 2 Digit; OneOf "/-";
         Rep 2 4 Digit; WordB] ].

(** [[\d\s\-/\.]] *)
Definition numeric_char : regex :=
  Cls (fun c => isdecimal c || isspace c || existsb (N.eqb c) (codes "-/.")).

Definition is_header_footer (e : element) : bool :=
  let txt := lower (strip (get (text e) [])) in
  existsb (fun p => re_search p txt) header_footer_patterns
  || ((len txt <=? 10) && re_match (Seq [Bol; Plus numeric_char; Eol]) txt).

Definition version_or_date_patterns : list regex :=
  [ Seq [Bol; Chr 118; Plus Digit; Chr 46; Plus Digit];
    Seq [Bol; Lit "version"; Plus Space; Plus Digit];
    Seq [Bol; Lit "rev"; Plus Space; Plus Digit];
    Seq [Bol; Plus Digit; Chr 46; Plus Digit; Chr 46; Plus Digit];
    Seq [Bol; Lit "date:"];
    Seq [Bol; Lit "created:"];
    Seq [Bol; Lit "updated:"] ].

Definition is_version_or_date (e : element) : bool :=
  let txt := lower (strip (get (text e) [])) in
  existsb (fun p => re_match p txt) version_or_date_patterns.

Definition is_dots_or_dashes (e : element) : bool :=
  let txt := remove_ws (strip (get (text e) [])) in
  (3 <=? len txt) && re_match (Seq [Bol; RepFrom 3 (OneOf ".-_=*~"); Eol]) txt.

(** The test that opens the loops of the font profiler and of the title
    identifier, and the second test of the assembly pass. *)
Definition is_boilerplate (e : element) : bool :=
  is_header_footer e || is_version_or_date e || is_dots_or_dashes e.

(** ** Table-of-contents patterns *)

Definition is_table_of_contents_header (self : parser) (e : element) : bool :=
  let txt := lower (strip (get (text e) [])) in
  existsb (fun p => re_search p txt) (toc_patterns self).

Definition toc_content_patterns : list regex :=
  [ Seq [Bol; Plus Digit; Opt (Chr 46); Star Space; Eol];
    Seq [Bol; Plus Digit; Chr 46; Plus Digit];
    Lit ".....";
    Seq [Bol; Plus Dot; Plus Space; Plus Digit; Eol] ].

Definition is_toc_content (e : element) : bool :=
  let txt := strip (get (text e) []) in
  existsb (fun p => re_search p txt) toc_content_patterns.

(** ** Font profiler *)

Definition new_font_stats : font_stats := {| count := 0; total_chars := 0; pages := [] |}.

(** The three updates of [font_data[font_size]], the entry being created
    on first use. *)
Definition record_fragment (chars : Z) (pg : Z) (v : font_stats) : font_stats :=
  {| count := count v + 1;
     total_chars := total_chars v + chars;
     pages := add Z.eqb pg (pages v) |}.

Fixpoint update_font (k : Qc) (f : font_stats -> font_stats)
    (d : list (Qc * font_stats)) : list (Qc * font_stats) :=
  match d with
  | [] => [(k, f new_font_stats)]
  | (k', v) :: d' =>
      if Qc_eqb k' k then (k', f v) :: d' else (k', v) :: update_font k f d'
  end.

(** The scan of [analyze_font_characteristics]. *)
Definition scan_fonts (elements : list element) : list (Qc * font_stats) :=
  fold_left
    (fun font_data e =>
       if is_header_footer e || is_version_or_date e || is_dots_or_dashes e
       then font_data
       else
         let size := get (font_size e) (num 12) in
         let txt := strip (get (text e) []) in
         let pg := get (page e) 1 in
         update_font size (record_fragment (len txt) pg) font_data)
    elements [].

(** [(a, x) < (b, y)] on pairs of numbers. *)
Definition pair_ltb (a b : Z * Qc) : bool :=
  (fst a <? fst b) || ((fst a =? fst b) && Qc_ltb (snd a) (snd b)).

(** [l.sort(reverse=True)] where every two items compare: each item is
    put behind the items that are not smaller. *)
Fixpoint insert_desc {A : Type} (ltb : A -> A -> bool) (x : A) (l : list A) : list A :=
  match l with
  | [] => [x]
  | y :: l' => if ltb y x then x :: y :: l' else y :: insert_desc ltb x l'
  end.
Definition sort_reverse {A : Type} (ltb : A -> A -> bool) (l : list A) : list A :=
  fold_left (fun sorted x => insert_desc ltb x sorted) l [].

Definition font_candidates (font_data : list (Qc * font_stats)) : list (Z * Qc) :=
  map (fun kv => (total_chars (snd kv) * len_pages (snd kv), fst kv)) font_data.

Definition analyze_font_characteristics (self : parser) (elements : list element) : parser :=
  let font_data := scan_fonts elements in
  let candidates := font_candidates font_data in
  let self :=
    match sort_reverse pair_ltb candidates with
    | [] => self
    | first :: _ => set_paragraph_font_size (snd first) self
    end in
  set_font_analysis
    (map (fun kv => (fst kv, {| sum_count := count (snd kv);
                                sum_total_chars := total_chars (snd kv);
                                sum_pages := len_pages (snd kv) |})) font_data)
    self.

(** ** Title identifier *)

Definition is_paragraph_text (self : parser) (e : element) : bool :=
  let size := get (font_size e) (num 12) in
  let is_bold := get (bold e) false in
  let txt := strip (get (text e) []) in
  if Qc_eqb size (paragraph_font_size self) && negb is_bold then true
  else if Qc_eqb size (paragraph_font_size self) && is_bold
  then if mem N.eqb 10%N txt || (15 <? Z.of_nat (List.length (split txt)))
       then true else false
  else false.

(** A candidate [(font_size, page, txt, e)]. *)
Definition candidate : Type := Qc * Z * str * element.

(** [a < b] on candidates: the first components that differ decide; dicts
    are not ordered, so two candidates that differ only in the dict
    raise. *)
Definition candidate_lt (a b : candidate) : result bool :=
  let '(fa, pa, ta, ea) := a in
  let '(fb, pb, tb, eb) := b in
  if negb (Qc_eqb fa fb) then Ok (Qc_ltb fa fb)
  else if negb (pa =? pb) then Ok (pa <? pb)
  else if negb (str_eqb ta tb) then Ok (str_ltb ta tb)
  else if negb (element_eqb ea eb) then Raise TypeError
  else Ok false.

(** [l.sort(reverse=True)] with a comparison that may raise: the sort
    raises with the first comparison that does.  Every comparison sort has
    to compare two items that tie on all ordered components, so whether the
    sort raises does not depend on the order in which it compares. *)
Fixpoint insert_desc_exn {A : Type} (lt : A -> A -> result bool) (x : A) (l : list A)
    : result (list A) :=
  match l with
  | [] => Ok [x]
  | y :: l' =>
      match lt y x with
      | Raise e => Raise e
      | Ok true => Ok (x :: y :: l')
      | Ok false =>
          match insert_desc_exn lt x l' with
          | Raise e => Raise e
          | Ok l'' => Ok (y :: l'')
          end
      end
  end.
Definition sort_reverse_exn {A : Type} (lt : A -> A -> result bool) (l : list A)
    : result (list A) :=
  fold_left
    (fun sorted x =>
       match sorted with
       | Raise e => Raise e
       | Ok sorted => insert_desc_exn lt x sorted
       end)
    l (Ok []).

Definition title_candidates (self : parser) (elements : list element) : list candidate :=
  flat_map
    (fun e =>
       if is_header_footer e || is_version_or_date e || is_dots_or_dashes e
          || is_paragraph_text self e
       then []
       else
         let txt := strip (get (text e) []) in
         if 3 <=? len txt
         then [(get (font_size e) (num 12), get (page e) 1, txt, e)]
         else [])
    elements.

Definition identify_title (self : parser) (elements : list element)
    : result (option element) :=
  let candidates := title_candidates self elements in
  match candidates with
  | [] => Ok None
  | _ :: _ =>
      match sort_reverse_exn candidate_lt candidates with
      | Raise e => Raise e
      | Ok [] => Ok None
      | Ok (first :: _) => Ok (Some (snd first))
      end
  end.

(** ** Heading level classifier *)

Definition classify_header_level (self : parser) (e : element) : option level :=
  if is_paragraph_text self e then None
  else
    let size := get (font_size e) (num 12) in
    let is_bold := get (bold e) false in
    let txt := strip (get (text e) []) in
    let title_font_size :=
      match title self with
      | Some t => if truthy t then get (font_size t) (num 16) else num 16
      | None => num 16
      end in
    if Qc_leb title_font_size size then None
    else if Qc_ltb (paragraph_font_size self) size then Some H1
    else if Qc_eqb size (paragraph_font_size self) && is_bold
            && (Z.of_nat (List.length (split txt)) <=? 10)
    then Some H2
    else None.

Definition extract_clean_title (title_element : option element) : str :=
  match title_element with
  | Some t => if truthy t then collapse_ws (strip (get (text t) []))
              else u"Untitled Document"
  | None => u"Untitled Document"
  end.

(** ** Duplicate guard *)

(** [str(n)] for an [int]. *)
Definition str_of_int (n : Z) : str := codes (NilZero.string_of_int (Z.to_int n)).

Definition normalize (text : str) : str := collapse_ws (lower (strip text)).

Definition generic_labels : list str := [u"overview"; u"introduction"; u"summary"].

(** [f"{normalized}_{page}"] *)
Definition header_key (normalized : str) (pg : Z) : str :=
  normalized ++ u"_" ++ str_of_int pg.

Definition should_include_header (self : parser) (txt : str) (pg : Z) : parser * bool :=
  let normalized := normalize txt in
  let generic := mem str_eqb normalized generic_labels in
  if generic && mem str_eqb normalized (seen_headers self) then (self, false)
  else
    let self :=
      if generic then set_seen_headers (add str_eqb normalized (seen_headers self)) self
      else self in
    let key := header_key normalized pg in
    if mem str_eqb key (seen_headers self) then (self, false)
    else (set_seen_headers (add str_eqb key (seen_headers self)) self, true).

(** ** Assembly pass *)

(** [if level and self.should_include_header(text, page):
       self.outline.append(...)] *)
Definition offer_heading (self : parser) (lvl : option level) (txt : str) (pg : Z)
    : parser :=
  match lvl with
  | None => self
  | Some lvl =>
      let (self, accepted) := should_include_header self txt pg in
      if accepted
      then set_outline (outline self ++ [{| entry_level := lvl; entry_text := txt;
                                            entry_page := pg |}]) self
      else self
  end.

(** [page != self.title_page] *)
Definition off_title_page (self : parser) (pg : Z) : bool :=
  negb (option_eqb Z.eqb (Some pg) (title_page self)).

(** The last three statements of the loop body. *)
Definition heading_or_body (self : parser) (e : element) (txt : str) (pg : Z) : parser :=
  let lvl := if off_title_page self pg then classify_header_level self e else None in
  let self := offer_heading self lvl txt pg in
  set_content (content self ++ [{| paragraph_text := txt; paragraph_page := pg |}]) self.

(** [self.title and text == self.title.get('text')
     and page == self.title.get('page')] *)
Definition is_title_fragment (self : parser) (txt : str) (pg : Z) : bool :=
  match title self with
  | Some t => truthy t && get_is str_eqb (text t) txt && get_is Z.eqb (page t) pg
  | None => false
  end.

(** One iteration of the loop of [parse_pdf_data]. *)
Definition visit (self : parser) (ie : nat * element) : parser :=
  let (i, e) := ie in
  let txt := strip (get (text e) []) in
  let pg := get (page e) 1 in
  if match txt with [] => true | _ :: _ => false end
     || mem Nat.eqb i (table_elements self)
  then self
  else if is_header_footer e || is_version_or_date e || is_dots_or_dashes e
  then self
  else if is_title_fragment self txt pg
  then self
  else if is_table_of_contents_header self e
  then
    let self := set_in_toc_section true self in
    offer_heading self (classify_header_level self e) txt pg
  else if in_toc_section self
  then
    if is_toc_content e then self
    else
      match classify_header_level self e with
      | Some _ => heading_or_body (set_in_toc_section false self) e txt pg
      | None => self
      end
  else heading_or_body self e txt pg.

Definition parse_pdf_data (self : parser) (elements : list element)
    : parser * result document :=
  let self := __init__ self in
  let self := detect_table_elements self elements in
  let self := analyze_font_characteristics self elements in
  match identify_title self elements with
  | Raise e => (self, Raise e)
  | Ok found =>
      let self := set_title found self in
      let self :=
        set_title_page
          (match title self with
           | Some t => if truthy t then Some (get (page t) 1) else None
           | None => None
           end) self in
      let self := fold_left visit (enumerate elements) self in
      (self, Ok {| doc_title := extract_clean_title (title self);
                   doc_outline := outline self |})
  end.

End Engine.

(** A new instance: [PDFTitleHeaderParser()] runs [__init__] on an object
    that has no field yet. *)
Definition unset : parser :=
  {| title := None; title_page := None; outline := []; content := [];
     font_analysis := []; paragraph_font_size := num 0; in_toc_section := false;
     seen_headers := []; table_elements := []; toc_patterns := [] |}.
Definition PDFTitleHeaderParser {U : UnicodeDB} : parser := __init__ unset.

(** The instance as [identify_title] finds it: initialised, with the table
    regions marked and the fonts profiled. *)
Definition profiled {U : UnicodeDB} (self : parser) (elements : list element) : parser :=
  analyze_font_characteristics (detect_table_elements (__init__ self) elements) elements.

(** A fragment with all four keys. *)
Definition fragment (t : string) (pg : Z) (size : Z) (b : bool) : element :=
  {| text := Some (codes t); page := Some pg; font_size := Some (num size);
     bold := Some b |}.

Definition heading (lvl : level) (t : string) (pg : Z) : entry :=
  {| entry_level := lvl; entry_text := codes t; entry_page := pg |}.


(* ================================================================== *)
(** * Reference definitions

    What the properties below compare the engine with. *)

Section Reference.
Context {U : UnicodeDB}.

(** The fragments no filter of section 4.2 excludes. *)
Definition retained (elements : list element) : list element :=
  filter (fun e => negb (is_boilerplate e)) elements.

(** The fragments the table region detector did not mark. *)
Definition unmarked (self : parser) (elements : list element) : list element :=
  map snd (filter (fun ie => negb (mem Nat.eqb (fst ie) (table_elements self)))
                  (enumerate elements)).

Definition size_of (e : element) : Qc := get (font_size e) (num 12).
Definition page_of (e : element) : Z := get (page e) 1.
Definition chars_of (e : element) : Z := len (strip (get (text e) [])).

(** The fragments of one font size. *)
Definition of_size (f : Qc) (l : list element) : list element :=
  filter (fun e => Qc_eqb (size_of e) f) l.

Definition char_total (f : Qc) (l : list element) : Z :=
  fold_right Z.add 0 (map chars_of (of_size f l)).

Definition distinct_page_count (f : Qc) (l : list element) : Z :=
  Z.of_nat (List.length (nodup Z.eq_dec (map page_of (of_size f l)))).

Definition score (f : Qc) (l : list element) : Z :=
  char_total f l * distinct_page_count f l.

(** [(a, x) < (b, y)] on pairs of numbers, as a proposition. *)
Definition pair_lt (a b : Z * Qc) : Prop :=
  fst a < fst b \/ (fst a = fst b /\ (snd a < snd b)%Qc).

(** The first item of [l] is smaller than no item of [l]. *)
Definition top {A : Type} (ltb : A -> A -> bool) (l : list A) : Prop :=
  match l with
  | [] => True
  | h :: _ => forall x, In x l -> ltb h x = false
  end.

(** The profiler's loop on the fragments it retains. *)
Definition record_element (font_data : list (Qc * font_stats)) (e : element)
    : list (Qc * font_stats) :=
  update_font (size_of e) (record_fragment (chars_of e) (page_of e)) font_data.

(** [font_data] is the profile of the fragments [l]: one entry for each
    font size among them, holding the characters and the pages of the
    fragments of that size. *)
Record profile_of (l : list element) (font_data : list (Qc * font_stats)) : Prop := {
  profile_keys : NoDup (map fst font_data);
  profile_sizes : forall k, In k (map fst font_data) <-> exists e, In e l /\ size_of e = k;
  profile_stats : forall k v, In (k, v) font_data ->
    total_chars v = char_total k l /\ NoDup (pages v) /\
    forall p, In p (pages v) <-> In p (map page_of (of_size k l))
}.

(** The state in which the assembly pass starts: the title and its page
    are assigned. *)
Definition with_title (found : option element) (self : parser) : parser :=
  set_title_page
    (match found with
     | Some t => if truthy t then Some (get (page t) 1) else None
     | None => None
     end) (set_title found self).

(** The key under which the duplicate guard knows an outline entry. *)
Definition entry_key (en : entry) : str * Z := (normalize (entry_text en), entry_page en).

(** The entries with a given normalized text. *)
Definition labelled (g : str) (o : list entry) : list entry :=
  filter (fun en => str_eqb (normalize (entry_text en)) g) o.

(** What the guard maintains between the outline and [seen_headers]. *)
Record guarded (o : list entry) (seen : list str) : Prop := {
  guarded_keys : NoDup (map entry_key o);
  guarded_seen : forall en, In en o ->
    mem str_eqb (header_key (normalize (entry_text en)) (entry_page en)) seen = true;
  guarded_generic : forall en, In en o ->
    mem str_eqb (normalize (entry_text en)) generic_labels = true ->
    mem str_eqb (normalize (entry_text en)) seen = true;
  guarded_once : forall g, In g generic_labels -> (List.length (labelled g o) <= 1)%nat
}.

End Reference.

(* ================================================================== *)
(** * Scenario inputs *)

Definition toc_scenario : list element :=
  [ fragment "Table of Contents" 1 14 true;
    fragment "1. Intro ..... 3" 1 10 false;
    fragment "Introduction" 3 18 true ].

Definition repeated_heading : list element :=
  [ fragment "Quarterly Report" 1 20 true;
    fragment "Quarterly Report" 1 20 false;
    fragment "This report covers the results of the third quarter." 1 10 false ].

Definition revision_cell : list element :=
  [ fragment "Revision 3" 1 24 true ].

Definition contents_on_title_page : list element :=
  [ fragment "Project Handbook" 1 24 true;
    fragment "Table of Contents" 1 14 true;
    fragment "The handbook describes how the project is organised." 2 10 false ].

Definition contents_footer : list element :=
  [ fragment "Contents - page 2" 2 10 false ].

Definition page_number_only : list element :=
  [ fragment "12" 1 10 false ].

Definition repeated_overview : list element :=
  [ fragment "Annual Report" 1 24 true;
    fragment "Overview" 2 14 true;
    fragment "The year brought steady growth in every region we serve." 2 10 false;
    fragment "Overview" 5 14 true;
    fragment "Results" 5 14 true;
    fragment "Results" 5 14 true;
    fragment "Revenue rose while costs stayed flat during the period." 5 10 false ].

Definition subject_index : list element :=
  [ fragment "Field Guide" 1 24 true;
    fragment "The guide lists the birds of the region with notes on each." 2 10 false;
    fragment "Subject Index" 9 14 true ].

(* ================================================================== *)
(** * Reference definitions for the assembly pass *)

Section PassReference.
Context {U : UnicodeDB}.

(** The local [title_font_size] of [classify_header_level]. *)
Definition title_font_size (self : parser) : Qc :=
  match title self with
  | Some t => if truthy t then get (font_size t) (num 16) else num 16
  | None => num 16
  end.

(** The fragment [e] at index [i] passes the three skips that open the
    loop body. *)
Definition reaches_toc_test (self : parser) (i : nat) (e : element) : Prop :=
  strip (get (text e) []) <> [] /\
  mem Nat.eqb i (table_elements self) = false /\
  is_boilerplate e = false /\
  is_title_fragment self (strip (get (text e) [])) (get (page e) 1) = false.

(** The outline entry [en] is the fragment [e] at index [i], promoted. *)
Definition promoted (self : parser) (i : nat) (e : element) (en : entry) : Prop :=
  entry_text en = strip (get (text e) []) /\
  entry_page en = get (page e) 1 /\
  reaches_toc_test self i e /\
  classify_header_level self e = Some (entry_level en).

(** The body record [p] is the fragment [e] at index [i]. *)
Definition kept_as_body (self : parser) (i : nat) (e : element) (p : paragraph) : Prop :=
  paragraph_text p = strip (get (text e) []) /\
  paragraph_page p = get (page e) 1 /\
  reaches_toc_test self i e /\
  is_table_of_contents_header self e = false.

(** The text and page of a fragment as the pass records them, and of an
    outline entry. *)
Definition fragment_at (e : element) : str * Z :=
  (strip (get (text e) []), get (page e) 1).
Definition entry_at (en : entry) : str * Z := (entry_text en, entry_page en).
Definition paragraph_at (p : paragraph) : str * Z := (paragraph_text p, paragraph_page p).

End PassReference.

(** [l1] is [l2] with some items left out. *)
Inductive subseq {A : Type} : list A -> list A -> Prop :=
| subseq_nil : subseq [] []
| subseq_skip x l1 l2 : subseq l1 l2 -> subseq l1 (x :: l2)
| subseq_take x l1 l2 : subseq l1 l2 -> subseq (x :: l1) (x :: l2).

(* ================================================================== *)
(** * Reference definitions for the title identifier *)

Section TitleReference.
Context {U : UnicodeDB}.

(** A fragment that enters the candidate pool of [identify_title]. *)
Definition is_candidate (self : parser) (e : element) : Prop :=
  is_boilerplate e = false /\ is_paragraph_text self e = false /\
  3 <= len (strip (get (text e) [])).

(** The components of a candidate that the sort can order, and [<] on
    them. *)
Definition key_of (e : element) : Qc * Z * str :=
  (size_of e, page_of e, strip (get (text e) [])).

Definition key_ltb (a b : Qc * Z * str) : bool :=
  let '(fa, pa, ta) := a in
  let '(fb, pb, tb) := b in
  Qc_ltb fa fb || (Qc_eqb fa fb && ((pa <? pb) || ((pa =? pb) && str_ltb ta tb))).

(** Two candidates on which the sort cannot decide: equal in size, page
    and trimmed text, and different as dicts. *)
Definition tie (a b : candidate) : Prop := fst a = fst b /\ snd a <> snd b.

End TitleReference.

(* ================================================================== *)
(** * Reference definitions for the duplicate guard *)

Section GuardReference.
Context {U : UnicodeDB}.

(** The outline [o] already has the heading [txt] of page [pg]: an entry
    with the same normalized text and page, or, for a generic label, an
    entry with the same normalized text. *)
Definition duplicate_of (o : list entry) (txt : str) (pg : Z) : Prop :=
  (exists en, In en o /\ entry_key en = (normalize txt, pg)) \/
  (In (normalize txt) generic_labels /\
   exists en, In en o /\ normalize (entry_text en) = normalize txt).

(** [seen] holds the keys of the entries of [o] and the generic labels
    among their normalized texts, and nothing else. *)
Definition tracked (o : list entry) (seen : list str) : Prop :=
  forall x,
    mem str_eqb x seen = true <->
    (exists en, In en o /\ x = header_key (normalize (entry_text en)) (entry_page en)) \/
    (exists en, In en o /\ In (normalize (entry_text en)) generic_labels /\
                x = normalize (entry_text en)).

End GuardReference.

(* ================================================================== *)
(** * The extractor

    [extract_elements_from_pdf], from the document as PyMuPDF decodes it:
    for each page the blocks of [page.get_text("dict")["blocks"]], each
    with its lines (when it has the key ["lines"]), each line with its
    spans (when it has the key ["spans"]). *)

Record span := {
  span_text : str;      (* span["text"] *)
  span_size : Qc;       (* span["size"] *)
  span_font : str       (* span["font"] *)
}.
Record line := { spans : option (list span) }.
Record block := { lines : option (list line) }.

Section Extractor.
Context {U : UnicodeDB}.

(** [round(x, 1)]: the rounding of a float to one decimal is not modelled
    and stays a parameter. *)
Variable round_1 : Qc -> Qc.

(** [max(a, b)] *)
Definition py_max (a b : Qc) : Qc := if Qc_ltb a b then b else a.

(** The loop over the spans of a line: the text gathered, the largest
    size and whether a font name contains "bold". *)
Definition gather_spans (l : list span) : str * Qc * bool :=
  fold_left
    (fun (acc : str * Qc * bool) sp =>
       let '(txt, max_font, is_bold) := acc in
       match strip (span_text sp) with
       | [] => acc
       | _ :: _ =>
           (txt ++ strip (span_text sp) ++ u" ",
            py_max max_font (span_size sp),
            if contains (u"bold") (lower (span_font sp)) then true else is_bold)
       end)
    l ([], num 0, false).

(** The fragment of one line of page [page_num], if the line has text. *)
Definition line_elements (page_num : nat) (ln : line) : list element :=
  let '(txt, max_font, is_bold) := gather_spans (get (spans ln) []) in
  match strip txt with
  | [] => []
  | _ :: _ =>
      [ {| text := Some (strip txt);
           page := Some (Z.of_nat page_num + 1);
           font_size := Some (round_1 max_font);
           bold := Some is_bold |} ]
  end.

Definition page_elements (page_num : nat) (blocks : list block) : list element :=
  flat_map (fun blk => flat_map (line_elements page_num) (get (lines blk) [])) blocks.

Definition extract_elements_from_pdf (doc : list (list block)) : list element :=
  flat_map (fun pb => page_elements (fst pb) (snd pb)) (enumerate doc).

End Extractor.

(** A page with a two-span heading, a line of blank spans and a block
    without lines, and a second page with one line. *)
Definition sample_doc : list (list block) :=
  [ [ {| lines := Some [ {| spans := Some [ {| span_text := u"  Annual "; span_size := num 24;
                                              span_font := u"Helvetica-Bold" |};
                                           {| span_text := u"Report"; span_size := num 20;
                                              span_font := u"Helvetica" |} ] |};
                         {| spans := Some [ {| span_text := u"   "; span_size := num 10;
                                              span_font := u"Helvetica" |} ] |} ] |};
      {| lines := None |} ];
    [ {| lines := Some [ {| spans := Some [ {| span_text := u"The year in review.";
                                              span_size := num 10;
                                              span_font := u"Helvetica" |} ] |} ] |} ] ].

(** A title whose text ends in a blank. *)
Definition untrimmed_title : list element :=
  [ fragment "Annual Report " 1 24 true ].

(* ================================================================== *)
(** * Reference definition for the title text *)

Section TitleText.
Context {U : UnicodeDB}.

(** [single_spaced after_ws s]: every whitespace character of [s] is a
    space that follows a character which is not whitespace, and [s] does
    not end in whitespace; [after_ws] tells whether a whitespace character
    (or the start of the text) precedes [s]. *)
Fixpoint single_spaced (after_ws : bool) (s : str) : Prop :=
  match s with
  | [] => after_ws = false
  | c :: s' =>
      if isspace c
      then c = 32%N /\ after_ws = false /\ single_spaced true s'
      else single_spaced false s'
  end.

End TitleText.

(* ================================================================== *)
(** * What a run leaves untouched *)

Section Frame.
Context {U : UnicodeDB}.

Lemma fold_left_keeps {A B X : Type} (f : A -> B -> A) (P : A -> X) :
  (forall a b, P (f a b) = P a) ->
  forall l a, P (fold_left f l a) = P a.
Proof.
  intros Hf l; induction l as [|b l IH]; intros a; simpl.
  - reflexivity.
  - rewrite IH. apply Hf.
Qed.

(** [detect_table_elements] writes [table_elements] and nothing else. *)
Lemma detect_table_elements_keeps {X : Type} (P : parser -> X) :
  (forall v s, P (set_table_elements v s) = P s) ->
  forall self elements, P (detect_table_elements self elements) = P self.
Proof.
  intros HP self elements. unfold detect_table_elements.
  apply fold_left_keeps. intros a b.
  apply fold_left_keeps. intros a' ie.
  destruct (is_table_element _ _ _); [apply HP | reflexivity].
Qed.

Lemma should_include_header_keeps {X : Type} (P : parser -> X) :
  (forall v s, P (set_seen_headers v s) = P s) ->
  forall self txt pg, P (fst (should_include_header self txt pg)) = P self.
Proof.
  intros HP self txt pg. unfold should_include_header.
  destruct (mem str_eqb (normalize txt) generic_labels); simpl.
  - destruct (mem str_eqb (normalize txt) (seen_headers self)); simpl; [reflexivity|].
    destruct (mem str_eqb _ _); simpl; rewrite ?HP; reflexivity.
  - destruct (mem str_eqb _ _); simpl; rewrite ?HP; reflexivity.
Qed.

Lemma offer_heading_keeps {X : Type} (P : parser -> X) :
  (forall v s, P (set_seen_headers v s) = P s) ->
  (forall v s, P (set_outline v s) = P s) ->
  forall self lvl txt pg, P (offer_heading self lvl txt pg) = P self.
Proof.
  intros H1 H2 self [lvl|] txt pg; simpl; [|reflexivity].
  pose proof (should_include_header_keeps P H1 self txt pg) as Hk.
  destruct (should_include_header self txt pg) as [s' [|]]; simpl in *.
  - rewrite H2. exact Hk.
  - exact Hk.
Qed.

Lemma heading_or_body_keeps {X : Type} (P : parser -> X) :
  (forall v s, P (set_seen_headers v s) = P s) ->
  (forall v s, P (set_outline v s) = P s) ->
  (forall v s, P (set_content v s) = P s) ->
  forall self e txt pg, P (heading_or_body self e txt pg) = P self.
Proof.
  intros H1 H2 H3 self e txt pg. unfold heading_or_body.
  rewrite H3. apply offer_heading_keeps; assumption.
Qed.

(** One iteration writes [in_toc_section], [seen_headers], [outline] and
    [content] only. *)
Lemma visit_keeps {X : Type} (P : parser -> X) :
  (forall v s, P (set_seen_headers v s) = P s) ->
  (forall v s, P (set_outline v s) = P s) ->
  (forall v s, P (set_content v s) = P s) ->
  (forall v s, P (set_in_toc_section v s) = P s) ->
  forall self ie, P (visit self ie) = P self.
Proof.
  intros H1 H2 H3 H4 self [i e]. unfold visit.
  repeat match goal with
         | |- P (if ?b then _ else _) = _ => destruct b
         | |- P (match ?o with Some _ => _ | None => _ end) = _ => destruct o
         end;
    try reflexivity;
    rewrite ?heading_or_body_keeps, ?offer_heading_keeps, ?H4 by assumption;
    reflexivity.
Qed.

Lemma pass_keeps {X : Type} (P : parser -> X) :
  (forall v s, P (set_seen_headers v s) = P s) ->
  (forall v s, P (set_outline v s) = P s) ->
  (forall v s, P (set_content v s) = P s) ->
  (forall v s, P (set_in_toc_section v s) = P s) ->
  forall l self, P (fold_left visit l self) = P self.
Proof.
  intros H1 H2 H3 H4. apply fold_left_keeps. apply visit_keeps; assumption.
Qed.

Lemma analyze_font_characteristics_keeps {X : Type} (P : parser -> X) :
  (forall v s, P (set_paragraph_font_size v s) = P s) ->
  (forall v s, P (set_font_analysis v s) = P s) ->
  forall self elements, P (analyze_font_characteristics self elements) = P self.
Proof.
  intros H1 H2 self elements. unfold analyze_font_characteristics.
  rewrite H2. destruct (sort_reverse _ _); [reflexivity | apply H1].
Qed.

End Frame.

Ltac frame := intros; reflexivity.

(* ================================================================== *)
(** * Runs and their results *)

Section Runs.
Context {U : UnicodeDB}.

(** What [parse_pdf_data] returns when the title identifier returns. *)
Lemma parse_pdf_data_ok self elements found :
  identify_title (profiled self elements) elements = Ok found ->
  let before := with_title found (profiled self elements) in
  let final := fold_left visit (enumerate elements) before in
  parse_pdf_data self elements =
  (final, Ok {| doc_title := extract_clean_title found; doc_outline := outline final |}).
Proof.
  intros Hid before final. unfold parse_pdf_data.
  fold (profiled self elements). rewrite Hid.
  change (title (set_title found (profiled self elements))) with found.
  fold (with_title found (profiled self elements)). fold before. fold final.
  assert (Ht : title final = found).
  { unfold final. rewrite (pass_keeps title) by frame. reflexivity. }
  rewrite Ht. reflexivity.
Qed.

(** C9. The result of a run does not depend on the instance it starts
    from: two new instances give the same result (the same document, or the
    same exception), and so does an instance that has already processed
    the sequence once. *)
Theorem parse_pdf_data_deterministic :
  forall elements,
    (forall self1 self2,
       snd (parse_pdf_data self1 elements) = snd (parse_pdf_data self2 elements)) /\
    (forall self,
       snd (parse_pdf_data (fst (parse_pdf_data self elements)) elements) =
       snd (parse_pdf_data self elements)).
Proof.
  intros elements.
  assert (Hany : forall self1 self2,
             parse_pdf_data self1 elements = parse_pdf_data self2 elements).
  { intros self1 self2. unfold parse_pdf_data.
    change (__init__ self1) with (__init__ self2). reflexivity. }
  split.
  - intros self1 self2. now rewrite (Hany self1 self2).
  - intros self. now rewrite (Hany (fst (parse_pdf_data self elements)) self).
Qed.

(** C8. The title of a returned document is a string; when the candidate
    pool of the title identifier is empty the call returns, the title is
    "Untitled Document", and on the empty sequence the outline is empty
    too. *)
Theorem default_title :
  forall self elements,
    title_candidates (profiled self elements) elements = [] ->
    exists d,
      snd (parse_pdf_data self elements) = Ok d /\
      doc_title d = u"Untitled Document" /\
      (elements = [] -> doc_outline d = []).
Proof.
  intros self elements Hnone.
  assert (Hid : identify_title (profiled self elements) elements = Ok None).
  { unfold identify_title. rewrite Hnone. reflexivity. }
  rewrite (parse_pdf_data_ok self elements Hid). simpl.
  eexists; split; [reflexivity|]. split; [reflexivity|].
  intros ->. reflexivity.
Qed.

End Runs.



(* ================================================================== *)
(** * Title identification *)

Section Title.
Context {U : UnicodeDB}.

Lemma insert_desc_exn_In {A : Type} (lt : A -> A -> result bool) (x : A) :
  forall l l', insert_desc_exn lt x l = Ok l' ->
  forall y, In y l' <-> y = x \/ In y l.
Proof.
  induction l as [|z l IH]; simpl; intros l' Hins y.
  - injection Hins as <-. simpl. intuition.
  - destruct (lt z x) as [[|]|]; try discriminate.
    + injection Hins as <-. simpl. intuition.
    + destruct (insert_desc_exn lt x l) as [l''|] eqn:Hrec; try discriminate.
      injection Hins as <-. simpl. rewrite (IH l'' eq_refl y). intuition.
Qed.

Lemma sort_reverse_exn_from_In {A : Type} (lt : A -> A -> result bool) :
  forall l acc l',
    fold_left
      (fun sorted x =>
         match sorted with
         | Raise e => Raise e
         | Ok sorted => insert_desc_exn lt x sorted
         end) l acc = Ok l' ->
    exists acc', acc = Ok acc' /\ forall y, In y l' <-> In y acc' \/ In y l.
Proof.
  induction l as [|x l IH]; simpl; intros acc l' Hs.
  - exists l'. split; [assumption|]. intuition.
  - destruct (IH _ _ Hs) as [acc1 [Hacc1 Hin]].
    destruct acc as [acc0|]; try discriminate.
    exists acc0. split; [reflexivity|].
    intros y. rewrite Hin, (insert_desc_exn_In lt x acc0 Hacc1 y). intuition.
Qed.

Lemma sort_reverse_exn_In {A : Type} (lt : A -> A -> result bool) l l' :
  sort_reverse_exn lt l = Ok l' -> forall y, In y l' <-> In y l.
Proof.
  intros Hs y. destruct (sort_reverse_exn_from_In lt l (Ok []) Hs) as [acc [Hacc Hin]].
  injection Hacc as <-. rewrite Hin. simpl. intuition.
Qed.

(** A candidate is a fragment that no filter of 4.2 matches, that is not
    paragraph text and whose trimmed text has three characters or more. *)
Lemma title_candidates_In self elements c :
  In c (title_candidates self elements) <->
  exists e, In e elements /\ is_boilerplate e = false /\
            is_paragraph_text self e = false /\ 3 <= len (strip (get (text e) [])) /\
            c = (get (font_size e) (num 12), get (page e) 1, strip (get (text e) []), e).
Proof.
  unfold title_candidates. rewrite in_flat_map. split.
  - intros [e [He Hc]]. exists e. split; [assumption|].
    unfold is_boilerplate.
    destruct (is_header_footer e || is_version_or_date e || is_dots_or_dashes e);
      simpl in Hc; [contradiction|].
    destruct (is_paragraph_text self e); simpl in Hc; [contradiction|].
    destruct (3 <=? len (strip (get (text e) []))) eqn:Hlen; simpl in Hc; [|contradiction].
    destruct Hc as [<-|[]]. apply Z.leb_le in Hlen. auto.
  - intros [e [He [Hb [Hp [Hlen ->]]]]]. exists e. split; [assumption|].
    unfold is_boilerplate in Hb. rewrite Hb, Hp. simpl.
    apply Z.leb_le in Hlen. rewrite Hlen. simpl. auto.
Qed.

(** C5, as the code has it. The fragment [identify_title] returns is a
    fragment of the sequence that no filter of 4.2 matches, that is not
    paragraph text and whose trimmed text has at least three characters;
    the table marks are not consulted, so the same fragment is returned
    whatever the marks are. *)
Theorem title_pool :
  forall self elements t,
    identify_title self elements = Ok (Some t) ->
    In t elements /\ is_boilerplate t = false /\ is_paragraph_text self t = false /\
    3 <= len (strip (get (text t) [])) /\
    forall marks, identify_title (set_table_elements marks self) elements = Ok (Some t).
Proof.
  intros self elements t Hid.
  assert (Hc : exists c, In c (title_candidates self elements) /\ snd c = t).
  { unfold identify_title in Hid.
    destruct (title_candidates self elements) as [|c0 cs] eqn:Hcs; [discriminate|].
    destruct (sort_reverse_exn candidate_lt (c0 :: cs)) as [[|c l]|] eqn:Hs;
      try discriminate.
    injection Hid as <-. exists c. split; [|reflexivity].
    apply (sort_reverse_exn_In candidate_lt (c0 :: cs) Hs). left. reflexivity. }
  destruct Hc as [c [Hin <-]].
  apply title_candidates_In in Hin.
  destruct Hin as [e [He [Hb [Hp [Hlen ->]]]]]. simpl in *.
  repeat split; try assumption.
  intros marks. exact Hid.
Qed.

End Title.

(* ================================================================== *)
(** * Font profile and table marks *)

Section Profile.
Context {U : UnicodeDB}.

Lemma scan_fonts_from_retained elements :
  forall acc,
    fold_left
      (fun font_data e =>
         if is_header_footer e || is_version_or_date e || is_dots_or_dashes e
         then font_data
         else update_font (get (font_size e) (num 12))
                (record_fragment (len (strip (get (text e) []))) (get (page e) 1))
                font_data)
      (retained elements) acc =
    fold_left
      (fun font_data e =>
         if is_header_footer e || is_version_or_date e || is_dots_or_dashes e
         then font_data
         else update_font (get (font_size e) (num 12))
                (record_fragment (len (strip (get (text e) []))) (get (page e) 1))
                font_data)
      elements acc.
Proof.
  induction elements as [|e l IH]; intros acc; simpl; [reflexivity|].
  unfold is_boilerplate.
  destruct (is_header_footer e || is_version_or_date e || is_dots_or_dashes e) eqn:Hb;
    simpl.
  - apply IH.
  - rewrite Hb. apply IH.
Qed.

Lemma scan_fonts_retained elements : scan_fonts (retained elements) = scan_fonts elements.
Proof. apply scan_fonts_from_retained. Qed.

Lemma profiled_paragraph_font_size self elements :
  paragraph_font_size (profiled self elements) =
  match sort_reverse pair_ltb (font_candidates (scan_fonts elements)) with
  | [] => num 12
  | first :: _ => snd first
  end.
Proof.
  unfold profiled, analyze_font_characteristics.
  change (paragraph_font_size (set_font_analysis ?v ?s)) with (paragraph_font_size s).
  destruct (sort_reverse pair_ltb (font_candidates (scan_fonts elements))).
  - rewrite (detect_table_elements_keeps paragraph_font_size) by frame. reflexivity.
  - reflexivity.
Qed.

(** C1, as the code has it. The profiler skips the fragments a filter of
    4.2 matches and no others: the body font size of a run is the one of
    the run on the sequence without the fragments 4.2 excludes, and the
    profiler computes the same size whatever the table marks are. *)
Theorem body_font_of_retained :
  forall self elements,
    paragraph_font_size (profiled self elements) =
    paragraph_font_size (profiled self (retained elements)) /\
    forall marks,
      paragraph_font_size (analyze_font_characteristics (set_table_elements marks self) elements) =
      paragraph_font_size (analyze_font_characteristics self elements).
Proof.
  intros self elements. split.
  - rewrite !profiled_paragraph_font_size, scan_fonts_retained. reflexivity.
  - intros marks. unfold analyze_font_characteristics.
    destruct (sort_reverse pair_ltb (font_candidates (scan_fonts elements)));
      reflexivity.
Qed.

End Profile.

(* ================================================================== *)
(** * The assembly pass *)

Section Pass.
Context {U : UnicodeDB}.

Lemma enumerate_from_In {A : Type} (l : list A) :
  forall n i x, In (i, x) (enumerate_from n l) -> In x l.
Proof.
  induction l as [|y l IH]; simpl; intros n i x Hin; [assumption|].
  destruct Hin as [Heq|Hin].
  - injection Heq as _ ->. left. reflexivity.
  - right. apply (IH _ _ _ Hin).
Qed.

(** Where [parse_pdf_data] returns, [identify_title] did. *)
Lemma parse_pdf_data_returns self elements d :
  snd (parse_pdf_data self elements) = Ok d ->
  exists found, identify_title (profiled self elements) elements = Ok found.
Proof.
  unfold parse_pdf_data. fold (profiled self elements).
  destruct (identify_title (profiled self elements) elements) as [found|ex].
  - intros _. exists found. reflexivity.
  - simpl. discriminate.
Qed.

Lemma is_table_of_contents_header_patterns s1 s2 e :
  toc_patterns s1 = toc_patterns s2 ->
  is_table_of_contents_header s1 e = is_table_of_contents_header s2 e.
Proof. unfold is_table_of_contents_header. intros ->. reflexivity. Qed.

Lemma off_title_page_same s1 s2 pg :
  title_page s1 = title_page s2 -> off_title_page s1 pg = off_title_page s2 pg.
Proof. unfold off_title_page. intros ->. reflexivity. Qed.

(** An entry [offer_heading] appends carries the text and page offered. *)
Lemma offer_heading_origin self lvl txt pg en :
  In en (outline (offer_heading self lvl txt pg)) ->
  In en (outline self) \/ (lvl <> None /\ entry_text en = txt /\ entry_page en = pg).
Proof.
  destruct lvl as [lvl|]; simpl; [|auto].
  pose proof (should_include_header_keeps outline
                (fun _ _ => eq_refl) self txt pg) as Hk.
  destruct (should_include_header self txt pg) as [s' [|]]; simpl in *.
  - rewrite in_app_iff, Hk. simpl. intros [Hin|[<-|[]]].
    + left. assumption.
    + right. simpl. repeat split. discriminate.
  - rewrite Hk. auto.
Qed.

(** An entry that one iteration appends comes from the fragment visited,
    which then is a contents heading or lies off the title's page. *)
Lemma visit_origin self i e en :
  In en (outline (visit self (i, e))) ->
  In en (outline self) \/
  (entry_text en = strip (get (text e) []) /\ entry_page en = get (page e) 1 /\
   (is_table_of_contents_header self e = true \/
    off_title_page self (get (page e) 1) = true)).
Proof.
  assert (Hbody : forall s, outline s = outline self -> title_page s = title_page self ->
            In en (outline (heading_or_body s e (strip (get (text e) [])) (get (page e) 1))) ->
            In en (outline self) \/
            (entry_text en = strip (get (text e) []) /\ entry_page en = get (page e) 1 /\
             (is_table_of_contents_header self e = true \/
              off_title_page self (get (page e) 1) = true))).
  { intros s Ho Ht. unfold heading_or_body.
    change (outline (set_content ?v ?s)) with (outline s).
    rewrite (off_title_page_same s self _ Ht).
    destruct (off_title_page self (get (page e) 1)) eqn:Hoff.
    - intros Hin. apply offer_heading_origin in Hin. rewrite Ho in Hin.
      destruct Hin as [Hin|[_ [Ht' Hp]]]; auto.
    - simpl. rewrite Ho. auto. }
  unfold visit.
  destruct (match strip (get (text e) []) with [] => true | _ :: _ => false end
            || mem Nat.eqb i (table_elements self)); [auto|].
  destruct (is_header_footer e || is_version_or_date e || is_dots_or_dashes e); [auto|].
  destruct (is_title_fragment self _ _); [auto|].
  destruct (is_table_of_contents_header self e) eqn:Htoc.
  - intros Hin. apply offer_heading_origin in Hin.
    destruct Hin as [Hin|[_ [Ht' Hp]]]; auto.
  - destruct (in_toc_section self).
    + destruct (is_toc_content e); [auto|].
      destruct (classify_header_level self e); [|auto].
      apply Hbody; reflexivity.
    + apply Hbody; reflexivity.
Qed.

Lemma pass_origin :
  forall l self en,
    In en (outline (fold_left visit l self)) ->
    In en (outline self) \/
    exists ie, In ie l /\
      entry_text en = strip (get (text (snd ie)) []) /\
      entry_page en = get (page (snd ie)) 1 /\
      (is_table_of_contents_header self (snd ie) = true \/
       off_title_page self (get (page (snd ie)) 1) = true).
Proof.
  induction l as [|[i e] l IH]; intros self en Hin; cbn [fold_left] in Hin; [auto|].
  destruct (IH _ _ Hin) as [Hold|[ie [Hie [Ht [Hp Hwhy]]]]].
  - destruct (visit_origin self i e en Hold) as [Hself|Hnew]; [auto|].
    right. exists (i, e). split; [left; reflexivity|]. exact Hnew.
  - right. exists ie. split; [right; assumption|].
    split; [assumption|]. split; [assumption|].
    rewrite (is_table_of_contents_header_patterns (visit self (i, e)) self) in Hwhy
      by (apply (visit_keeps toc_patterns); frame).
    rewrite (off_title_page_same (visit self (i, e)) self) in Hwhy
      by (apply (visit_keeps title_page); frame).
    exact Hwhy.
Qed.

(** The pass starts from an empty outline. *)
Lemma profiled_outline self elements found :
  outline (with_title found (profiled self elements)) = [].
Proof.
  change (outline (profiled self elements) = []). unfold profiled.
  rewrite (analyze_font_characteristics_keeps outline) by frame.
  rewrite (detect_table_elements_keeps outline) by frame.
  reflexivity.
Qed.

(** C2, as the code has it. An outline entry on the title's page comes
    from a fragment that matches a contents-heading pattern: no other
    fragment of the title's page is promoted to a heading. *)
Theorem title_page_entries :
  forall self elements d p en,
    snd (parse_pdf_data self elements) = Ok d ->
    title_page (fst (parse_pdf_data self elements)) = Some p ->
    In en (doc_outline d) ->
    entry_page en = p ->
    exists e,
      In e elements /\ entry_text en = strip (get (text e) []) /\ get (page e) 1 = p /\
      is_table_of_contents_header (fst (parse_pdf_data self elements)) e = true.
Proof.
  intros self elements d p en Hrun Htp Hen Hp.
  destruct (parse_pdf_data_returns self elements Hrun) as [found Hid].
  pose proof (parse_pdf_data_ok self elements Hid) as Hok. cbv zeta in Hok.
  rewrite Hok in *. cbn [fst snd] in *. clear Hok.
  injection Hrun as <-. cbn [doc_outline] in Hen.
  set (before := with_title _ _) in *.
  rewrite (pass_keeps title_page) in Htp by frame.
  destruct (pass_origin _ _ _ Hen) as [Hinit|[[i e] [Hie [Ht [Hpe Hwhy]]]]].
  - unfold before in Hinit. rewrite profiled_outline in Hinit. contradiction.
  - cbn [snd] in *. exists e. split; [apply (enumerate_from_In _ _ _ _ Hie)|].
    split; [assumption|]. split; [congruence|].
    rewrite (is_table_of_contents_header_patterns _ before)
      by (apply (pass_keeps toc_patterns); frame).
    destruct Hwhy as [Htoc|Hoff]; [assumption|].
    unfold off_title_page in Hoff. rewrite Htp in Hoff. cbn [option_eqb] in Hoff.
    rewrite <- Hpe, Hp, Z.eqb_refl in Hoff. discriminate.
Qed.

End Pass.

(* ================================================================== *)
(** * The duplicate guard *)

Section Guard.
Context {U : UnicodeDB}.

Lemma str_eqb_eq a b : str_eqb a b = true <-> a = b.
Proof.
  unfold str_eqb. destruct (list_eq_dec N.eq_dec a b); split; congruence.
Qed.

Lemma str_eqb_refl a : str_eqb a a = true.
Proof. apply str_eqb_eq. reflexivity. Qed.

Lemma mem_str_In x s : mem str_eqb x s = true <-> In x s.
Proof.
  unfold mem. rewrite existsb_exists. split.
  - intros [y [Hy Heq]]. apply str_eqb_eq in Heq. subst. assumption.
  - intros Hin. exists x. split; [assumption | apply str_eqb_refl].
Qed.

Lemma mem_add_same x s : mem str_eqb x (add str_eqb x s) = true.
Proof.
  unfold add. destruct (mem str_eqb x s) eqn:Hm; [assumption|].
  simpl. rewrite str_eqb_refl. reflexivity.
Qed.

Lemma mem_add_more x y s :
  mem str_eqb y s = true -> mem str_eqb y (add str_eqb x s) = true.
Proof.
  intros Hy. unfold add. destruct (mem str_eqb x s); [assumption|].
  simpl. rewrite Hy. apply orb_true_r.
Qed.

Lemma guarded_more o seen seen' :
  (forall x, mem str_eqb x seen = true -> mem str_eqb x seen' = true) ->
  guarded o seen -> guarded o seen'.
Proof.
  intros Hsub [Hk Hs Hg Ho]. constructor; auto.
Qed.

Lemma labelled_nil g o :
  (forall en, In en o -> normalize (entry_text en) <> g) -> labelled g o = [].
Proof.
  induction o as [|en o IH]; simpl; intros Hno; [reflexivity|].
  destruct (str_eqb (normalize (entry_text en)) g) eqn:Heq.
  - apply str_eqb_eq in Heq. exfalso. apply (Hno en); auto.
  - apply IH. intros en' Hin. apply Hno. auto.
Qed.

(** Accepting a heading keeps the outline guarded. *)
Lemma offer_heading_guarded self lvl txt pg :
  guarded (outline self) (seen_headers self) ->
  guarded (outline (offer_heading self lvl txt pg))
          (seen_headers (offer_heading self lvl txt pg)).
Proof.
  intros Hinv. destruct lvl as [lvl|]; simpl; [|assumption].
  unfold should_include_header.
  set (n := normalize txt).
  destruct (mem str_eqb n generic_labels && mem str_eqb n (seen_headers self)) eqn:Hdup;
    [assumption|].
  set (self1 := if mem str_eqb n generic_labels
                then set_seen_headers (add str_eqb n (seen_headers self)) self
                else self).
  assert (Hout1 : outline self1 = outline self).
  { unfold self1. destruct (mem str_eqb n generic_labels); reflexivity. }
  assert (Hsub1 : forall x, mem str_eqb x (seen_headers self) = true ->
                            mem str_eqb x (seen_headers self1) = true).
  { intros x Hx. unfold self1. destruct (mem str_eqb n generic_labels); simpl;
      [apply mem_add_more|]; assumption. }
  assert (Hgen1 : mem str_eqb n generic_labels = true ->
                  mem str_eqb n (seen_headers self1) = true).
  { intros Hg. unfold self1. rewrite Hg. simpl. apply mem_add_same. }
  assert (Hinv1 : guarded (outline self1) (seen_headers self1)).
  { rewrite Hout1. apply (guarded_more _ Hsub1 Hinv). }
  destruct (mem str_eqb (header_key n pg) (seen_headers self1)) eqn:Hkey;
    [assumption|].
  simpl. rewrite Hout1.
  destruct Hinv as [Hk Hs Hg Ho].
  set (en0 := {| entry_level := lvl; entry_text := txt; entry_page := pg |}).
  assert (Hfresh : forall en, In en (outline self) -> entry_key en <> entry_key en0).
  { intros en Hin Heq. unfold entry_key in Heq. simpl in Heq.
    injection Heq as Hn Hp. specialize (Hs en Hin).
    rewrite Hn, Hp in Hs. apply Hsub1 in Hs. fold n in Hs. congruence. }
  constructor.
  - rewrite map_app. simpl.
    apply NoDup_app; [assumption | repeat constructor; simpl; tauto |].
    intros k Hin1 [<-|[]]. apply in_map_iff in Hin1.
    destruct Hin1 as [en [Heq Hin]]. apply (Hfresh en Hin Heq).
  - intros en Hin. apply in_app_iff in Hin. destruct Hin as [Hin|[<-|[]]].
    + apply mem_add_more, Hsub1, Hs, Hin.
    + simpl. apply mem_add_same.
  - intros en Hin Hlab. apply in_app_iff in Hin. destruct Hin as [Hin|[<-|[]]].
    + apply mem_add_more, Hsub1, Hg; assumption.
    + simpl in *. apply mem_add_more, Hgen1, Hlab.
  - intros g Hgl. unfold labelled. rewrite filter_app, length_app. simpl.
    fold n. destruct (str_eqb n g) eqn:Hng; simpl.
    + apply str_eqb_eq in Hng. subst g.
      assert (Hlab : mem str_eqb n generic_labels = true) by (apply mem_str_In, Hgl).
      rewrite Hlab in Hdup. simpl in Hdup.
      fold (labelled n (outline self)). rewrite labelled_nil; [simpl; lia|].
      intros en Hin Heq. specialize (Hg en Hin). rewrite Heq in Hg.
      rewrite (Hg Hlab) in Hdup. discriminate.
    + specialize (Ho g Hgl). unfold labelled in Ho. lia.
Qed.

Lemma visit_guarded self ie :
  guarded (outline self) (seen_headers self) ->
  guarded (outline (visit self ie)) (seen_headers (visit self ie)).
Proof.
  intros Hinv. destruct ie as [i e]. unfold visit.
  assert (Hbody : forall s, outline s = outline self -> seen_headers s = seen_headers self ->
            forall txt pg,
              guarded (outline (heading_or_body s e txt pg))
                      (seen_headers (heading_or_body s e txt pg))).
  { intros s Ho Hs txt pg. unfold heading_or_body.
    change (outline (set_content ?v ?s)) with (outline s).
    change (seen_headers (set_content ?v ?s)) with (seen_headers s).
    apply offer_heading_guarded. rewrite Ho, Hs. assumption. }
  repeat match goal with
         | |- guarded (outline (if ?b then _ else _)) _ => destruct b
         | |- guarded (outline (match ?o with Some _ => _ | None => _ end)) _ => destruct o
         end;
    try assumption;
    try (apply Hbody; reflexivity).
  apply offer_heading_guarded. assumption.
Qed.

Lemma pass_guarded l :
  forall self,
    guarded (outline self) (seen_headers self) ->
    guarded (outline (fold_left visit l self)) (seen_headers (fold_left visit l self)).
Proof.
  induction l as [|ie l IH]; intros self Hinv; cbn [fold_left]; [assumption|].
  apply IH, visit_guarded, Hinv.
Qed.

(** C6. In the outline of a returned document no two entries have the
    same normalized text and page, and each of the labels "overview",
    "introduction" and "summary" is the normalized text of at most one
    entry. *)
Theorem outline_without_duplicates :
  forall self elements d,
    snd (parse_pdf_data self elements) = Ok d ->
    NoDup (map entry_key (doc_outline d)) /\
    forall g, In g generic_labels ->
      (List.length (labelled g (doc_outline d)) <= 1)%nat.
Proof.
  intros self elements d Hrun.
  destruct (parse_pdf_data_returns self elements Hrun) as [found Hid].
  pose proof (parse_pdf_data_ok self elements Hid) as Hok. cbv zeta in Hok.
  rewrite Hok in Hrun. cbn [snd] in Hrun. clear Hok.
  injection Hrun as <-. cbn [doc_outline].
  match goal with
  | |- context [fold_left visit ?l ?s] =>
      assert (Hinv : guarded (outline (fold_left visit l s))
                             (seen_headers (fold_left visit l s)))
  end.
  { apply pass_guarded. rewrite profiled_outline.
    constructor; simpl; try constructor; try contradiction; intros; lia. }
  destruct Hinv as [Hk _ _ Ho]. split; [exact Hk | exact Ho].
Qed.

End Guard.

(* ================================================================== *)
(** * The matcher and the patterns *)

Section Regex.
Context {U : UnicodeDB}.

Lemma last_char_app prev w1 w2 :
  last_char prev (w1 ++ w2) = last_char (last_char prev w1) w2.
Proof. unfold last_char. apply fold_left_app. Qed.

(** A continuation that accepts more lets the iterations accept more. *)
Lemma star_loop_mono step :
  (forall k k' : option char -> str -> bool,
      (forall p s, k p s = true -> k' p s = true) ->
      forall p s, step p s k = true -> step p s k' = true) ->
  forall n (k k' : option char -> str -> bool),
    (forall p s, k p s = true -> k' p s = true) ->
    forall p s, star_loop step k n p s = true -> star_loop step k' n p s = true.
Proof.
  intros Hstep n. induction n as [|n IH]; simpl; intros k k' Hk p s Hrun.
  - auto.
  - apply orb_true_iff in Hrun. apply orb_true_iff. destruct Hrun as [Hrun|Hrun].
    + left. revert Hrun. apply Hstep. intros p' s' Hk'.
      apply andb_true_iff in Hk'. apply andb_true_iff.
      split; [tauto|]. apply (IH k k' Hk). tauto.
    + right. auto.
Qed.

Lemma mtch_mono r :
  forall k k' : option char -> str -> bool,
    (forall p s, k p s = true -> k' p s = true) ->
    forall p s, mtch r p s k = true -> mtch r p s k' = true.
Proof.
  induction r as [|c|f|r1 IH1 r2 IH2|r1 IH1 r2 IH2|r IH| | |];
    simpl; intros k k' Hk p s Hrun.
  - auto.
  - destruct s as [|x s]; [discriminate|].
    apply andb_true_iff in Hrun. apply andb_true_iff. split; [tauto|]. apply Hk. tauto.
  - destruct s as [|x s]; [discriminate|].
    apply andb_true_iff in Hrun. apply andb_true_iff. split; [tauto|]. apply Hk. tauto.
  - revert Hrun. apply IH1. intros p' s'. apply IH2. exact Hk.
  - apply orb_true_iff in Hrun. apply orb_true_iff. destruct Hrun as [Hrun|Hrun].
    + left. apply (IH1 k k' Hk _ _ Hrun).
    + right. apply (IH2 k k' Hk _ _ Hrun).
  - revert Hrun. apply star_loop_mono; assumption.
  - destruct p; auto.
  - destruct s as [|c [|c' s]]; auto.
    apply andb_true_iff in Hrun. apply andb_true_iff. split; [tauto|]. apply Hk. tauto.
  - apply andb_true_iff in Hrun. apply andb_true_iff. split; [tauto|]. apply Hk. tauto.
Qed.

(** More fuel does not lose a match. *)
Lemma star_loop_fuel r k :
  forall n m p s, (n <= m)%nat ->
    star_loop (mtch r) k n p s = true -> star_loop (mtch r) k m p s = true.
Proof.
  induction n as [|n IH]; intros m p s Hle Hrun.
  - simpl in Hrun. destruct m; simpl; [assumption|].
    rewrite Hrun. apply orb_true_r.
  - destruct m as [|m]; [lia|]. simpl in *.
    apply orb_true_iff in Hrun. apply orb_true_iff. destruct Hrun as [Hrun|Hrun].
    + left. revert Hrun. apply mtch_mono. intros p' s' Hk'.
      apply andb_true_iff in Hk'. apply andb_true_iff.
      split; [tauto|]. apply IH; [lia | tauto].
    + right. assumption.
Qed.

(** The matcher finds every match of the pattern. *)
Theorem mtch_complete r prev w rest :
  Matches r prev w rest ->
  forall k, k (last_char prev w) rest = true -> mtch r prev (w ++ rest) k = true.
Proof.
  induction 1 as [prev rest|c prev rest|f c prev rest Hf
                 |r1 r2 prev w1 w2 rest _ IH1 _ IH2
                 |r1 r2 prev w rest _ IH|r1 r2 prev w rest _ IH
                 |r prev rest|r prev w1 w2 rest Hne _ IH1 _ IH2
                 |rest|prev rest Hend|prev rest Hb];
    intros k Hk; simpl in *.
  - exact Hk.
  - rewrite N.eqb_refl. exact Hk.
  - rewrite Hf. exact Hk.
  - rewrite <- app_assoc. apply IH1. apply IH2. rewrite <- last_char_app. exact Hk.
  - rewrite (IH k Hk). reflexivity.
  - rewrite (IH k Hk). apply orb_true_r.
  - destruct (List.length rest); simpl; rewrite Hk; [reflexivity | apply orb_true_r].
  - rewrite <- app_assoc.
    destruct w1 as [|c w1]; [congruence|]. simpl List.length. simpl star_loop.
    apply orb_true_iff. left. apply (IH1 _). apply andb_true_iff. split.
    + apply Nat.ltb_lt. simpl. rewrite !length_app. lia.
    + rewrite last_char_app in Hk. specialize (IH2 k Hk).
      revert IH2. apply star_loop_fuel. rewrite !length_app. lia.
  - exact Hk.
  - destruct Hend as [-> | ->]; simpl; exact Hk.
  - rewrite Hb. exact Hk.
Qed.

Lemma search_from_start r prev s :
  mtch r prev s accept = true -> search_from r prev s = true.
Proof. intros Hm. destruct s; simpl; rewrite Hm; reflexivity. Qed.

Lemma search_from_complete r :
  forall a prev w b,
    Matches r (last_char prev a) w b -> search_from r prev (a ++ w ++ b) = true.
Proof.
  induction a as [|c a IH]; intros prev w b Hm.
  - apply search_from_start. simpl. apply (mtch_complete Hm). reflexivity.
  - simpl. apply orb_true_iff. right. apply IH. exact Hm.
Qed.

(** [re.search] finds a pattern wherever in the text it matches. *)
Theorem re_search_complete r txt : has_match r txt -> re_search r txt = true.
Proof.
  intros [a [w [b [-> Hm]]]]. apply search_from_complete. exact Hm.
Qed.

(** What the matcher accepts is a match of the pattern. *)
Lemma star_loop_sound r k :
  (forall prev s (k' : option char -> str -> bool),
      mtch r prev s k' = true ->
      exists w rest, s = w ++ rest /\ Matches r prev w rest /\
                     k' (last_char prev w) rest = true) ->
  forall n prev s,
    star_loop (mtch r) k n prev s = true ->
    exists w rest, s = w ++ rest /\ Matches (Star r) prev w rest /\
                   k (last_char prev w) rest = true.
Proof.
  intros Hr. induction n as [|n IH]; intros prev s Hrun; simpl in Hrun.
  - exists [], s. repeat split; [constructor | exact Hrun].
  - apply orb_true_iff in Hrun. destruct Hrun as [Hrun|Hrun].
    + apply Hr in Hrun. destruct Hrun as [w1 [rest1 [-> [Hm1 Hk1]]]].
      apply andb_true_iff in Hk1. destruct Hk1 as [Hshort Hloop].
      apply Nat.ltb_lt in Hshort.
      apply IH in Hloop. destruct Hloop as [w2 [rest [-> [Hm2 Hk]]]].
      exists (w1 ++ w2), rest. split; [apply app_assoc|]. split.
      * constructor; [|assumption|assumption].
        intros ->. simpl in Hshort. lia.
      * rewrite last_char_app. exact Hk.
    + exists [], s. repeat split; [constructor | exact Hrun].
Qed.

Theorem mtch_sound r :
  forall prev s (k : option char -> str -> bool),
    mtch r prev s k = true ->
    exists w rest, s = w ++ rest /\ Matches r prev w rest /\
                   k (last_char prev w) rest = true.
Proof.
  induction r as [|c|f|r1 IH1 r2 IH2|r1 IH1 r2 IH2|r IH| | |];
    simpl; intros prev s k Hrun.
  - exists [], s. repeat split; [constructor | exact Hrun].
  - destruct s as [|x s]; [discriminate|].
    apply andb_true_iff in Hrun. destruct Hrun as [Hx Hk].
    apply N.eqb_eq in Hx. subst x.
    exists [c], s. repeat split; [constructor | exact Hk].
  - destruct s as [|x s]; [discriminate|].
    apply andb_true_iff in Hrun. destruct Hrun as [Hx Hk].
    exists [x], s. repeat split; [constructor; exact Hx | exact Hk].
  - apply IH1 in Hrun. destruct Hrun as [w1 [rest1 [-> [Hm1 Hk1]]]].
    apply IH2 in Hk1. destruct Hk1 as [w2 [rest [-> [Hm2 Hk]]]].
    exists (w1 ++ w2), rest. split; [apply app_assoc|]. split.
    + constructor; assumption.
    + rewrite last_char_app. exact Hk.
  - apply orb_true_iff in Hrun. destruct Hrun as [Hrun|Hrun].
    + apply IH1 in Hrun. destruct Hrun as [w [rest [-> [Hm Hk]]]].
      exists w, rest. repeat split; [apply M_OrL; assumption | exact Hk].
    + apply IH2 in Hrun. destruct Hrun as [w [rest [-> [Hm Hk]]]].
      exists w, rest. repeat split; [apply M_OrR; assumption | exact Hk].
  - apply (star_loop_sound k IH) in Hrun. exact Hrun.
  - destruct prev; [discriminate|].
    exists [], s. repeat split; [constructor | exact Hrun].
  - destruct s as [|c [|c' s]]; try discriminate.
    + exists [], []. repeat split; [constructor; auto | exact Hrun].
    + apply andb_true_iff in Hrun. destruct Hrun as [Hc Hk].
      apply N.eqb_eq in Hc. subst c.
      exists [], [10%N]. repeat split; [constructor; auto | exact Hk].
  - apply andb_true_iff in Hrun. destruct Hrun as [Hb Hk].
    exists [], s. repeat split; [constructor; exact Hb | exact Hk].
Qed.

Lemma search_from_sound r :
  forall s prev,
    search_from r prev s = true ->
    exists a w b, s = a ++ w ++ b /\ Matches r (last_char prev a) w b.
Proof.
  assert (Hhere : forall s prev, mtch r prev s accept = true ->
            exists a w b, s = a ++ w ++ b /\ Matches r (last_char prev a) w b).
  { intros s prev Hm. apply mtch_sound in Hm. destruct Hm as [w [b [-> [Hm _]]]].
    exists [], w, b. split; [reflexivity | exact Hm]. }
  induction s as [|c s IH]; intros prev Hrun; simpl in Hrun.
  - rewrite orb_false_r in Hrun. apply Hhere, Hrun.
  - apply orb_true_iff in Hrun. destruct Hrun as [Hrun|Hrun]; [apply Hhere, Hrun|].
    apply IH in Hrun. destruct Hrun as [a [w [b [-> Hm]]]].
    exists (c :: a), w, b. split; [reflexivity | exact Hm].
Qed.

(** [re.search] answers whether the text has a part matching the pattern. *)
Theorem re_search_spec r txt : re_search r txt = true <-> has_match r txt.
Proof.
  split; [apply search_from_sound | apply re_search_complete].
Qed.

(** The contents-heading test holds exactly when some part of the trimmed,
    lowercased text matches one of the patterns. *)
Lemma is_table_of_contents_header_spec self e :
  is_table_of_contents_header self e = true <->
  exists p, In p (toc_patterns self) /\ has_match p (lower (strip (get (text e) []))).
Proof.
  unfold is_table_of_contents_header. rewrite existsb_exists.
  split; intros [p [Hp Hm]]; exists p; (split; [assumption|]); apply re_search_spec, Hm.
Qed.

(** A literal pattern matches the word it spells. *)
Lemma Matches_chars l :
  forall prev rest, Matches (Seq (map Chr l)) prev l rest.
Proof.
  induction l as [|c l IH]; intros prev rest; simpl.
  - constructor.
  - change (c :: l) with ([c] ++ l). constructor; [constructor | apply IH].
Qed.

Lemma Matches_Lit s prev rest : Matches (Lit s) prev (codes s) rest.
Proof. apply Matches_chars. Qed.

(** C10, as the code has it. The contents-heading test looks for its
    patterns anywhere in the trimmed, lowercased text: at every fragment
    that has a part matching one of the patterns, and that the first three
    tests of the pass do not skip (its trimmed text is not empty, it is not
    marked as table content, no filter of 4.2 matches it, and it is not the
    title fragment), the pass enters the contents section and leaves the
    fragment out of the body content. *)
Theorem contents_heading_anywhere :
  forall self i e p,
    In p (toc_patterns self) ->
    has_match p (lower (strip (get (text e) []))) ->
    strip (get (text e) []) <> [] ->
    mem Nat.eqb i (table_elements self) = false ->
    is_boilerplate e = false ->
    is_title_fragment self (strip (get (text e) [])) (get (page e) 1) = false ->
    in_toc_section (visit self (i, e)) = true /\
    content (visit self (i, e)) = content self.
Proof.
  intros self i e p Hp Hm Htxt Htab Hboiler Htitle.
  assert (Htoc : is_table_of_contents_header self e = true).
  { unfold is_table_of_contents_header. apply existsb_exists.
    exists p. split; [assumption | apply re_search_complete, Hm]. }
  unfold visit. unfold is_boilerplate in Hboiler.
  rewrite Htab, Hboiler, Htitle, Htoc.
  destruct (strip (get (text e) [])) as [|c txt] eqn:Hs; [congruence|].
  cbn [orb].
  split.
  - rewrite (offer_heading_keeps in_toc_section) by frame. reflexivity.
  - rewrite (offer_heading_keeps content) by frame. reflexivity.
Qed.

End Regex.

(* ================================================================== *)
(** * The body font size *)

Section Scores.
Context {U : UnicodeDB}.

Lemma Qc_eqb_eq x y : Qc_eqb x y = true <-> x = y.
Proof.
  unfold Qc_eqb. rewrite Qeq_bool_iff. split.
  - apply Qc_is_canon.
  - intros ->. reflexivity.
Qed.

Lemma Qc_ltb_lt x y : Qc_ltb x y = true <-> (x < y)%Qc.
Proof.
  unfold Qc_ltb. rewrite negb_true_iff. split.
  - intros Hle. apply Qnot_le_lt. intros Hyx.
    apply Qle_bool_iff in Hyx. congruence.
  - intros Hlt. destruct (Qle_bool y x) eqn:Hle; [|reflexivity].
    apply Qle_bool_iff in Hle. exfalso. apply (Qlt_not_le _ _ Hlt Hle).
Qed.

Lemma pair_ltb_lt a b : pair_ltb a b = true <-> pair_lt a b.
Proof.
  unfold pair_ltb, pair_lt.
  rewrite orb_true_iff, andb_true_iff, Z.ltb_lt, Z.eqb_eq, Qc_ltb_lt. tauto.
Qed.

Lemma pair_lt_irrefl a : ~ pair_lt a a.
Proof.
  intros [Hlt|[_ Hlt]]; [lia|]. apply (Qclt_not_eq _ _ Hlt). reflexivity.
Qed.

Lemma pair_lt_trans a b c : pair_lt a b -> pair_lt b c -> pair_lt a c.
Proof.
  unfold pair_lt. intros [Hab|[Hab Hab']] [Hbc|[Hbc Hbc']].
  - left. lia.
  - left. lia.
  - left. lia.
  - right. split; [lia|]. apply (Qclt_trans _ _ _ Hab' Hbc').
Qed.

Lemma pair_ltb_irrefl a : pair_ltb a a = false.
Proof.
  destruct (pair_ltb a a) eqn:Hlt; [|reflexivity].
  apply pair_ltb_lt in Hlt. destruct (pair_lt_irrefl Hlt).
Qed.

Lemma pair_ltb_above h y x :
  pair_ltb h y = true -> pair_ltb h x = false -> pair_ltb y x = false.
Proof.
  intros Hhy Hhx. destruct (pair_ltb y x) eqn:Hyx; [|reflexivity].
  apply pair_ltb_lt in Hhy, Hyx.
  pose proof (proj2 (pair_ltb_lt h x) (pair_lt_trans Hhy Hyx)). congruence.
Qed.

(** ** The sort puts a largest item first *)

Lemma insert_desc_In {A : Type} (ltb : A -> A -> bool) y :
  forall l x, In x (insert_desc ltb y l) <-> x = y \/ In x l.
Proof.
  induction l as [|h l IH]; simpl; intros x.
  - intuition.
  - destruct (ltb h y); simpl; [intuition|]. rewrite IH. intuition.
Qed.

Lemma insert_desc_top {A : Type} (ltb : A -> A -> bool) :
  (forall a, ltb a a = false) ->
  (forall h y x, ltb h y = true -> ltb h x = false -> ltb y x = false) ->
  forall y l, top ltb l -> top ltb (insert_desc ltb y l).
Proof.
  intros Hirr Habove y [|h l] Htop; simpl.
  - intros x [<-|[]]. apply Hirr.
  - simpl in Htop. destruct (ltb h y) eqn:Hhy; simpl.
    + intros x [<-|Hx]; [apply Hirr|]. apply (Habove h); auto.
    + intros x [<-|Hx]; [apply Htop; left; reflexivity|].
      apply insert_desc_In in Hx. destruct Hx as [->|Hx]; [assumption|].
      apply Htop. right. assumption.
Qed.

Lemma sort_reverse_from {A : Type} (ltb : A -> A -> bool) :
  (forall a, ltb a a = false) ->
  (forall h y x, ltb h y = true -> ltb h x = false -> ltb y x = false) ->
  forall l acc,
    top ltb acc ->
    top ltb (fold_left (fun sorted x => insert_desc ltb x sorted) l acc) /\
    forall x, In x (fold_left (fun sorted x => insert_desc ltb x sorted) l acc) <->
              In x acc \/ In x l.
Proof.
  intros Hirr Habove. induction l as [|y l IH]; intros acc Htop; cbn [fold_left].
  - split; [assumption|]. simpl. intuition.
  - destruct (IH (insert_desc ltb y acc) (insert_desc_top ltb Hirr Habove y acc Htop))
      as [Ht Hin].
    split; [assumption|]. intros x. rewrite Hin, insert_desc_In. simpl. intuition.
Qed.

Lemma sort_reverse_first {A : Type} (ltb : A -> A -> bool) :
  (forall a, ltb a a = false) ->
  (forall h y x, ltb h y = true -> ltb h x = false -> ltb y x = false) ->
  forall l,
    match sort_reverse ltb l with
    | [] => l = []
    | h :: _ => In h l /\ forall x, In x l -> ltb h x = false
    end.
Proof.
  intros Hirr Habove l. unfold sort_reverse.
  destruct (sort_reverse_from ltb Hirr Habove l [] I) as [Htop Hin].
  destruct (fold_left _ l []) as [|h t].
  - destruct l as [|y l]; [reflexivity|].
    destruct (proj2 (Hin y)). right. left. reflexivity.
  - simpl in Htop. split.
    + destruct (proj1 (Hin h)) as [[]|Hh]; [left; reflexivity | assumption].
    + intros x Hx. apply Htop. apply Hin. right. assumption.
Qed.

(** ** The scan builds the profile of the retained fragments *)

Lemma scan_fonts_record elements :
  forall acc,
    fold_left
      (fun font_data e =>
         if is_header_footer e || is_version_or_date e || is_dots_or_dashes e
         then font_data
         else update_font (get (font_size e) (num 12))
                (record_fragment (len (strip (get (text e) []))) (get (page e) 1))
                font_data)
      elements acc =
    fold_left record_element (retained elements) acc.
Proof.
  induction elements as [|e l IH]; intros acc; simpl; [reflexivity|].
  unfold is_boilerplate.
  destruct (is_header_footer e || is_version_or_date e || is_dots_or_dashes e); simpl;
    apply IH.
Qed.

Lemma update_font_keys k f :
  forall d k', In k' (map fst (update_font k f d)) <-> k' = k \/ In k' (map fst d).
Proof.
  induction d as [|[k0 v0] d IH]; simpl; intros k'.
  - intuition.
  - destruct (Qc_eqb k0 k) eqn:Heq; simpl.
    + apply Qc_eqb_eq in Heq. subst. intuition.
    + rewrite IH. intuition.
Qed.

Lemma update_font_NoDup k f :
  forall d, NoDup (map fst d) -> NoDup (map fst (update_font k f d)).
Proof.
  induction d as [|[k0 v0] d IH]; simpl; intros Hnd.
  - repeat constructor. simpl. tauto.
  - inversion Hnd as [|? ? Hnotin Hnd']; subst.
    destruct (Qc_eqb k0 k) eqn:Heq; simpl.
    + constructor; assumption.
    + constructor; [|apply IH; assumption].
      rewrite update_font_keys. intros [->|Hin]; [|contradiction].
      assert (Qc_eqb k k = true) by (apply Qc_eqb_eq; reflexivity). congruence.
Qed.

Lemma update_font_In k f :
  forall d k' v',
    NoDup (map fst d) ->
    In (k', v') (update_font k f d) ->
    (k' <> k /\ In (k', v') d) \/
    (k' = k /\ ((exists v, In (k, v) d /\ v' = f v) \/
                (~ In k (map fst d) /\ v' = f new_font_stats))).
Proof.
  induction d as [|[k0 v0] d IH]; simpl; intros k' v' Hnd Hin.
  - destruct Hin as [Heq|[]]. injection Heq as <- <-. right. split; [reflexivity|].
    right. split; [tauto | reflexivity].
  - inversion Hnd as [|? ? Hnotin Hnd']; subst.
    destruct (Qc_eqb k0 k) eqn:Heq.
    + apply Qc_eqb_eq in Heq. subst k0. destruct Hin as [Hhd|Hin].
      * injection Hhd as <- <-. right. split; [reflexivity|].
        left. exists v0. split; [left; reflexivity | reflexivity].
      * left. split; [|right; assumption].
        intros ->. apply Hnotin. apply in_map_iff. exists (k, v'). auto.
    + assert (Hne : k0 <> k).
      { intros ->. assert (Qc_eqb k k = true) by (apply Qc_eqb_eq; reflexivity).
        congruence. }
      destruct Hin as [Hhd|Hin].
      * injection Hhd as <- <-. left. split; [assumption | left; reflexivity].
      * destruct (IH k' v' Hnd' Hin) as [[Hk Hold]|[-> [[v [Hv ->]]|[Hno ->]]]].
        -- left. split; [assumption | right; assumption].
        -- right. split; [reflexivity|]. left. exists v. split; [right; assumption | reflexivity].
        -- right. split; [reflexivity|]. right. split; [|reflexivity].
           intros [Heq'|Hin']; [congruence | contradiction].
Qed.

Lemma of_size_snoc f l e :
  of_size f (l ++ [e]) = of_size f l ++ (if Qc_eqb (size_of e) f then [e] else []).
Proof. unfold of_size. rewrite filter_app. reflexivity. Qed.

Lemma sum_app a b :
  fold_right Z.add 0 (a ++ b) = fold_right Z.add 0 a + fold_right Z.add 0 b.
Proof. induction a as [|x a IH]; simpl; [reflexivity | rewrite IH; lia]. Qed.

Lemma add_page_In pg s p : In p (add Z.eqb pg s) <-> p = pg \/ In p s.
Proof.
  unfold add, mem. destruct (existsb (Z.eqb pg) s) eqn:Hm; simpl.
  - apply existsb_exists in Hm. destruct Hm as [q [Hq Heq]].
    apply Z.eqb_eq in Heq. subst q. intuition. subst. assumption.
  - intuition.
Qed.

Lemma add_page_NoDup pg s : NoDup s -> NoDup (add Z.eqb pg s).
Proof.
  intros Hnd. unfold add, mem. destruct (existsb (Z.eqb pg) s) eqn:Hm; [assumption|].
  constructor; [|assumption]. intros Hin.
  assert (existsb (Z.eqb pg) s = true)
    by (apply existsb_exists; exists pg; split; [assumption | apply Z.eqb_refl]).
  congruence.
Qed.

Lemma of_size_none k l :
  (~ exists e, In e l /\ size_of e = k) -> of_size k l = [].
Proof.
  intros Hno. unfold of_size. induction l as [|e l IH]; simpl; [reflexivity|].
  destruct (Qc_eqb (size_of e) k) eqn:Heq.
  - apply Qc_eqb_eq in Heq. exfalso. apply Hno. exists e. simpl. auto.
  - apply IH. intros [e' [Hin He']]. apply Hno. exists e'. simpl. auto.
Qed.

Lemma profile_of_snoc l d e :
  profile_of l d -> profile_of (l ++ [e]) (record_element d e).
Proof.
  intros [Hkeys Hsizes Hstats]. unfold record_element. constructor.
  - apply update_font_NoDup. assumption.
  - intros k. rewrite update_font_keys, Hsizes. split.
    + intros [->|[e' [Hin He']]].
      * exists e. split; [apply in_or_app; right; left; reflexivity | reflexivity].
      * exists e'. split; [apply in_or_app; left; assumption | assumption].
    + intros [e' [Hin He']]. apply in_app_or in Hin.
      destruct Hin as [Hin|[<-|[]]]; [right; exists e'; auto | left; auto].
  - intros k v Hin. unfold char_total. rewrite of_size_snoc, !map_app, sum_app.
    apply update_font_In in Hin; [|assumption].
    destruct Hin as [[Hne Hold]|[-> [[v0 [Hold ->]]|[Hnew ->]]]].
    + destruct (Hstats k v Hold) as [Htot [Hnd Hpages]].
      assert (Hoff : Qc_eqb (size_of e) k = false).
      { destruct (Qc_eqb (size_of e) k) eqn:Heq; [|reflexivity].
        apply Qc_eqb_eq in Heq. congruence. }
      rewrite Hoff. simpl. rewrite Z.add_0_r.
      split; [exact Htot|]. split; [exact Hnd|].
      intros p. rewrite in_app_iff, Hpages. simpl. tauto.
    + destruct (Hstats (size_of e) v0 Hold) as [Htot [Hnd Hpages]].
      rewrite (proj2 (Qc_eqb_eq (size_of e) (size_of e)) eq_refl). simpl.
      split; [unfold char_total in Htot; lia|].
      split; [apply add_page_NoDup; assumption|].
      intros p. rewrite add_page_In, in_app_iff, Hpages. simpl. intuition.
    + rewrite (proj2 (Qc_eqb_eq (size_of e) (size_of e)) eq_refl). simpl.
      rewrite of_size_none by (rewrite <- Hsizes; assumption). simpl.
      split; [lia|]. split; [repeat constructor; simpl; tauto|].
      intros p. simpl. intuition.
Qed.

Lemma profile_of_fold l : profile_of l (fold_left record_element l []).
Proof.
  induction l as [|e l IH] using rev_ind.
  - constructor; simpl.
    + constructor.
    + intros k. split; [contradiction | intros [e [[] _]]].
    + intros k v [].
  - rewrite fold_left_app. simpl. apply profile_of_snoc. assumption.
Qed.

Lemma profile_of_scan elements : profile_of (retained elements) (scan_fonts elements).
Proof. unfold scan_fonts. rewrite scan_fonts_record. apply profile_of_fold. Qed.

(** The number of pages in the profile is the number of distinct pages. *)
Lemma profile_score l d k v :
  profile_of l d -> In (k, v) d -> total_chars v * len_pages v = score k l.
Proof.
  intros [_ _ Hstats] Hin. destruct (Hstats k v Hin) as [Htot [Hnd Hpages]].
  unfold score, distinct_page_count, len_pages. rewrite Htot. f_equal. f_equal.
  apply Permutation_length.
  apply NoDup_Permutation; [assumption | apply NoDup_nodup|].
  intros p. rewrite Hpages, nodup_In. reflexivity.
Qed.

Lemma font_candidates_In l d c :
  profile_of l d ->
  In c (font_candidates d) <-> exists e, In e l /\ c = (score (size_of e) l, size_of e).
Proof.
  intros Hprof. unfold font_candidates. rewrite in_map_iff. split.
  - intros [[k v] [<- Hin]]. simpl.
    assert (Hk : In k (map fst d)) by (apply in_map_iff; exists (k, v); auto).
    apply (profile_sizes Hprof) in Hk. destruct Hk as [e [He <-]].
    exists e. split; [assumption|]. f_equal. eapply profile_score; eassumption.
  - intros [e [He ->]].
    assert (Hk : In (size_of e) (map fst d))
      by (apply (profile_sizes Hprof); exists e; auto).
    apply in_map_iff in Hk. destruct Hk as [[k v] [Hfst Hin]]. simpl in Hfst. subst k.
    exists (size_of e, v). split; [|assumption]. simpl.
    f_equal. eapply profile_score; eassumption.
Qed.

(** C7. The body font size is 12 when no fragment passes the filters of
    4.2; otherwise it is the font size of a retained fragment whose score
    (the characters of the retained fragments of that size, times the
    number of distinct pages they lie on) is the largest, and the
    numerically largest among the sizes with that score. *)
Theorem body_font_maximises_score :
  forall self elements,
    let kept := retained elements in
    let body := paragraph_font_size (profiled self elements) in
    (kept = [] -> body = num 12) /\
    (kept <> [] ->
     (exists e, In e kept /\ size_of e = body) /\
     forall e, In e kept ->
       score (size_of e) kept < score body kept \/
       (score (size_of e) kept = score body kept /\ (size_of e <= body)%Qc)).
Proof.
  intros self elements kept body. unfold body.
  rewrite profiled_paragraph_font_size.
  pose proof (profile_of_scan elements) as Hprof. fold kept in Hprof.
  pose proof (sort_reverse_first pair_ltb pair_ltb_irrefl pair_ltb_above
                (font_candidates (scan_fonts elements))) as Hsort.
  destruct (sort_reverse pair_ltb (font_candidates (scan_fonts elements)))
    as [|first rest].
  - split; [reflexivity|]. intros Hne. exfalso.
    destruct kept as [|e kept'] eqn:Hk; [congruence|].
    assert (Hin : In (score (size_of e) (e :: kept'), size_of e)
                     (font_candidates (scan_fonts elements))).
    { apply (font_candidates_In _ Hprof). exists e. split; [left; reflexivity|].
      reflexivity. }
    rewrite Hsort in Hin. contradiction.
  - destruct Hsort as [Hfirst Hmax].
    apply (font_candidates_In _ Hprof) in Hfirst.
    destruct Hfirst as [e0 [He0 ->]]. simpl.
    split; [intros ->; contradiction|]. intros _. split.
    + exists e0. auto.
    + intros e He.
      assert (Hin : In (score (size_of e) kept, size_of e)
                       (font_candidates (scan_fonts elements))).
      { apply (font_candidates_In _ Hprof). exists e. auto. }
      specialize (Hmax _ Hin).
      assert (Hnot : ~ pair_lt (score (size_of e0) kept, size_of e0)
                               (score (size_of e) kept, size_of e)).
      { intros Hlt. apply pair_ltb_lt in Hlt. congruence. }
      unfold pair_lt in Hnot. simpl in Hnot.
      destruct (Z.lt_trichotomy (score (size_of e) kept) (score (size_of e0) kept))
        as [Hlt|[Heq|Hgt]].
      * left. assumption.
      * right. split; [assumption|]. apply Qcnot_lt_le. intros Hlt.
        apply Hnot. right. split; [symmetry; assumption | assumption].
      * exfalso. apply Hnot. left. assumption.
Qed.

End Scores.

(* ================================================================== *)
(** * Where outline entries and body records come from *)

Section Origin.
Context {U : UnicodeDB}.

Lemma enumerate_from_nth {A : Type} (l : list A) :
  forall n i x, In (i, x) (enumerate_from n l) <->
                (n <= i)%nat /\ nth_error l (i - n) = Some x.
Proof.
  induction l as [|y l IH]; intros n i x; simpl.
  - split; [contradiction|]. intros [_ Hn]. destruct (i - n)%nat; discriminate.
  - rewrite IH. split.
    + intros [Heq|[Hle Hn]].
      * injection Heq as <- <-. split; [lia|]. rewrite Nat.sub_diag. reflexivity.
      * split; [lia|]. replace (i - n)%nat with (S (i - S n)) by lia. exact Hn.
    + intros [Hle Hn]. destruct (Nat.eq_dec i n) as [->|Hne].
      * rewrite Nat.sub_diag in Hn. simpl in Hn. injection Hn as ->. left. reflexivity.
      * right. split; [lia|].
        replace (i - n)%nat with (S (i - S n)) in Hn by lia. exact Hn.
Qed.

Lemma enumerate_nth {A : Type} (l : list A) i x :
  In (i, x) (enumerate l) <-> nth_error l i = Some x.
Proof.
  unfold enumerate. rewrite enumerate_from_nth, Nat.sub_0_r.
  split; [tauto | intros H; split; [lia | exact H]].
Qed.

Lemma map_snd_enumerate_from {A : Type} (l : list A) :
  forall n, map snd (enumerate_from n l) = l.
Proof. induction l as [|x l IH]; intros n; simpl; [|rewrite IH]; reflexivity. Qed.

(** The tests of the loop body read the title, the body font size, the
    table marks and the patterns only. *)
Lemma reaches_toc_test_same s1 s2 i e :
  title s1 = title s2 -> table_elements s1 = table_elements s2 ->
  reaches_toc_test s1 i e -> reaches_toc_test s2 i e.
Proof.
  unfold reaches_toc_test, is_title_fragment. intros -> ->. tauto.
Qed.

Lemma classify_header_level_same s1 s2 e :
  title s1 = title s2 -> paragraph_font_size s1 = paragraph_font_size s2 ->
  classify_header_level s1 e = classify_header_level s2 e.
Proof.
  unfold classify_header_level, is_paragraph_text. intros -> ->. reflexivity.
Qed.

Lemma promoted_same s1 s2 i e en :
  title s1 = title s2 -> table_elements s1 = table_elements s2 ->
  paragraph_font_size s1 = paragraph_font_size s2 ->
  promoted s1 i e en -> promoted s2 i e en.
Proof.
  intros Ht Hm Hp (Htxt & Hpg & Hreach & Hlvl).
  split; [assumption|]. split; [assumption|].
  split; [eapply reaches_toc_test_same; eassumption|].
  replace (classify_header_level s2 e) with (classify_header_level s1 e)
    by (apply classify_header_level_same; assumption).
  exact Hlvl.
Qed.

Lemma kept_as_body_same s1 s2 i e p :
  title s1 = title s2 -> table_elements s1 = table_elements s2 ->
  toc_patterns s1 = toc_patterns s2 ->
  kept_as_body s1 i e p -> kept_as_body s2 i e p.
Proof.
  intros Ht Hm Hp (Htxt & Hpg & Hreach & Htoc).
  split; [assumption|]. split; [assumption|].
  split; [eapply reaches_toc_test_same; eassumption|].
  replace (is_table_of_contents_header s2 e) with (is_table_of_contents_header s1 e)
    by (apply is_table_of_contents_header_patterns; assumption).
  exact Htoc.
Qed.

(** What [offer_heading] does to the outline: nothing, or one entry more
    with the level, text and page offered. *)
Lemma offer_heading_outline self lvl txt pg :
  outline (offer_heading self lvl txt pg) = outline self \/
  exists l, lvl = Some l /\
    outline (offer_heading self lvl txt pg) =
    outline self ++ [{| entry_level := l; entry_text := txt; entry_page := pg |}].
Proof.
  destruct lvl as [l|]; simpl; [|auto].
  pose proof (should_include_header_keeps outline (fun _ _ => eq_refl) self txt pg) as Hk.
  destruct (should_include_header self txt pg) as [s' [|]]; simpl in *.
  - right. exists l. rewrite Hk. auto.
  - left. exact Hk.
Qed.

(** What one iteration does to the outline. *)
Lemma visit_outline self i e :
  outline (visit self (i, e)) = outline self \/
  exists en, outline (visit self (i, e)) = outline self ++ [en] /\ promoted self i e en.
Proof.
  unfold visit.
  destruct (strip (get (text e) [])) as [|c txt] eqn:Htxt; [auto|]. cbn [orb].
  destruct (mem Nat.eqb i (table_elements self)) eqn:Hmark; [auto|].
  destruct (is_header_footer e || is_version_or_date e || is_dots_or_dashes e) eqn:Hb;
    [auto|].
  destruct (is_title_fragment self (c :: txt) (get (page e) 1)) eqn:Htitle; [auto|].
  assert (Hreach : reaches_toc_test self i e).
  { unfold reaches_toc_test, is_boilerplate. rewrite Htxt.
    repeat split; try assumption. discriminate. }
  assert (Hbody : forall s, outline s = outline self -> title s = title self ->
            title_page s = title_page self ->
            paragraph_font_size s = paragraph_font_size self ->
            outline (heading_or_body s e (c :: txt) (get (page e) 1)) = outline self \/
            exists en, outline (heading_or_body s e (c :: txt) (get (page e) 1)) =
                       outline self ++ [en] /\ promoted self i e en).
  { intros s Ho Ht Htp Hp. unfold heading_or_body.
    change (outline (set_content ?v ?s)) with (outline s).
    destruct (offer_heading_outline s
                (if off_title_page s (get (page e) 1)
                 then classify_header_level s e else None)
                (c :: txt) (get (page e) 1)) as [Hsame|[l [Hl Happ]]].
    - left. rewrite Hsame. exact Ho.
    - right. eexists. rewrite Happ, Ho. split; [reflexivity|].
      destruct (off_title_page s (get (page e) 1)); [|discriminate].
      replace (classify_header_level s e) with (classify_header_level self e) in Hl
        by (symmetry; apply classify_header_level_same; assumption).
      unfold promoted. simpl. rewrite Htxt. auto. }
  destruct (is_table_of_contents_header self e).
  - destruct (offer_heading_outline (set_in_toc_section true self)
                (classify_header_level (set_in_toc_section true self) e)
                (c :: txt) (get (page e) 1)) as [Hsame|[l [Hl Happ]]].
    + left. exact Hsame.
    + right. eexists. split; [exact Happ|].
      unfold promoted. simpl. rewrite Htxt. auto.
  - destruct (in_toc_section self).
    + destruct (is_toc_content e); [auto|].
      destruct (classify_header_level self e); [|auto].
      apply Hbody; reflexivity.
    + apply Hbody; reflexivity.
Qed.

(** What one iteration does to the body content. *)
Lemma visit_content self i e :
  content (visit self (i, e)) = content self \/
  exists p, content (visit self (i, e)) = content self ++ [p] /\ kept_as_body self i e p.
Proof.
  unfold visit.
  destruct (strip (get (text e) [])) as [|c txt] eqn:Htxt; [auto|]. cbn [orb].
  destruct (mem Nat.eqb i (table_elements self)) eqn:Hmark; [auto|].
  destruct (is_header_footer e || is_version_or_date e || is_dots_or_dashes e) eqn:Hb;
    [auto|].
  destruct (is_title_fragment self (c :: txt) (get (page e) 1)) eqn:Htitle; [auto|].
  assert (Hreach : reaches_toc_test self i e).
  { unfold reaches_toc_test, is_boilerplate. rewrite Htxt.
    repeat split; try assumption. discriminate. }
  destruct (is_table_of_contents_header self e) eqn:Htoc.
  - left. rewrite (offer_heading_keeps content) by frame. reflexivity.
  - assert (Hbody : forall s, content s = content self ->
              exists p, content (heading_or_body s e (c :: txt) (get (page e) 1)) =
                        content self ++ [p] /\ kept_as_body self i e p).
    { intros s Hc. unfold heading_or_body. eexists. split.
      - cbn [content set_content]. rewrite (offer_heading_keeps content) by frame.
        rewrite Hc. reflexivity.
      - unfold kept_as_body. simpl. rewrite Htxt. auto. }
    destruct (in_toc_section self).
    + destruct (is_toc_content e); [auto|].
      destruct (classify_header_level self e); [|auto].
      right. apply Hbody. reflexivity.
    + right. apply Hbody. reflexivity.
Qed.

(** The pass appends to the outline, in the order of the fragments. *)
Lemma pass_outline :
  forall l self,
    exists news,
      outline (fold_left visit l self) = outline self ++ news /\
      subseq (map entry_at news) (map fragment_at (map snd l)) /\
      forall en, In en news -> exists i e, In (i, e) l /\ promoted self i e en.
Proof.
  induction l as [|[i e] l IH]; intros self; cbn [fold_left].
  - exists []. rewrite app_nil_r. repeat split; [constructor | contradiction].
  - destruct (IH (visit self (i, e))) as [news [Hout [Hsub Hfrom]]].
    assert (Hfrom' : forall en, In en news ->
              exists i' e', In (i', e') ((i, e) :: l) /\ promoted self i' e' en).
    { intros en Hin. destruct (Hfrom en Hin) as [i' [e' [Hin' Hp]]].
      exists i', e'. split; [right; assumption|].
      eapply promoted_same; [| | |exact Hp];
        [apply (visit_keeps title) | apply (visit_keeps table_elements)
        | apply (visit_keeps paragraph_font_size)]; frame. }
    destruct (visit_outline self i e) as [Hsame|[en [Happ Hp]]].
    + exists news. rewrite Hout, Hsame. split; [reflexivity|].
      split; [cbn [map snd]; apply subseq_skip; assumption | exact Hfrom'].
    + exists (en :: news). rewrite Hout, Happ, <- app_assoc. split; [reflexivity|].
      split.
      * destruct Hp as (Ht & Hpg & _). cbn [map snd].
        replace (entry_at en) with (fragment_at e)
          by (unfold entry_at, fragment_at; rewrite Ht, Hpg; reflexivity).
        apply subseq_take. assumption.
      * intros en' [<-|Hin]; [|apply Hfrom'; assumption].
        exists i, e. split; [left; reflexivity | assumption].
Qed.

Lemma pass_content :
  forall l self,
    exists news,
      content (fold_left visit l self) = content self ++ news /\
      subseq (map paragraph_at news) (map fragment_at (map snd l)) /\
      forall p, In p news -> exists i e, In (i, e) l /\ kept_as_body self i e p.
Proof.
  induction l as [|[i e] l IH]; intros self; cbn [fold_left].
  - exists []. rewrite app_nil_r. repeat split; [constructor | contradiction].
  - destruct (IH (visit self (i, e))) as [news [Hout [Hsub Hfrom]]].
    assert (Hfrom' : forall p, In p news ->
              exists i' e', In (i', e') ((i, e) :: l) /\ kept_as_body self i' e' p).
    { intros p Hin. destruct (Hfrom p Hin) as [i' [e' [Hin' Hp]]].
      exists i', e'. split; [right; assumption|].
      eapply kept_as_body_same; [| | |exact Hp];
        [apply (visit_keeps title) | apply (visit_keeps table_elements)
        | apply (visit_keeps toc_patterns)]; frame. }
    destruct (visit_content self i e) as [Hsame|[p [Happ Hp]]].
    + exists news. rewrite Hout, Hsame. split; [reflexivity|].
      split; [cbn [map snd]; apply subseq_skip; assumption | exact Hfrom'].
    + exists (p :: news). rewrite Hout, Happ, <- app_assoc. split; [reflexivity|].
      split.
      * destruct Hp as (Ht & Hpg & _). cbn [map snd].
        replace (paragraph_at p) with (fragment_at e)
          by (unfold paragraph_at, fragment_at; rewrite Ht, Hpg; reflexivity).
        apply subseq_take. assumption.
      * intros p' [<-|Hin]; [|apply Hfrom'; assumption].
        exists i, e. split; [left; reflexivity | assumption].
Qed.

(** A run that returns, taken apart: the state the pass starts from, the
    final state, and what the pass appended. *)
Lemma parse_pdf_data_pass self elements d :
  snd (parse_pdf_data self elements) = Ok d ->
  exists found,
    identify_title (profiled self elements) elements = Ok found /\
    let before := with_title found (profiled self elements) in
    let final := fst (parse_pdf_data self elements) in
    final = fold_left visit (enumerate elements) before /\
    d = {| doc_title := extract_clean_title found; doc_outline := outline final |} /\
    title final = found /\ title before = found /\
    table_elements final = table_elements before /\
    paragraph_font_size final = paragraph_font_size before /\
    toc_patterns final = toc_patterns before /\
    title_page final = title_page before /\
    outline before = [] /\ content before = [].
Proof.
  intros Hrun. destruct (parse_pdf_data_returns self elements Hrun) as [found Hid].
  exists found. split; [exact Hid|].
  pose proof (parse_pdf_data_ok self elements Hid) as Hok. cbv zeta in Hok.
  rewrite Hok in Hrun. cbn [snd] in Hrun. injection Hrun as <-.
  cbv zeta. rewrite Hok. cbn [fst].
  split; [reflexivity|]. split; [reflexivity|].
  split; [rewrite (pass_keeps title) by frame; reflexivity|].
  split; [reflexivity|].
  split; [apply (pass_keeps table_elements); frame|].
  split; [apply (pass_keeps paragraph_font_size); frame|].
  split; [apply (pass_keeps toc_patterns); frame|].
  split; [apply (pass_keeps title_page); frame|].
  split; [apply profiled_outline|].
  change (content (profiled self elements) = []). unfold profiled.
  rewrite (analyze_font_characteristics_keeps content) by frame.
  rewrite (detect_table_elements_keeps content) by frame. reflexivity.
Qed.

End Origin.

(* ================================================================== *)
(** * The outline and the body content of a run *)

Section Outline.
Context {U : UnicodeDB}.

Lemma lstrip_lstrip s : lstrip (lstrip s) = lstrip s.
Proof.
  induction s as [|c s IH]; simpl; [reflexivity|].
  destruct (isspace c) eqn:Hc; [exact IH|]. simpl. rewrite Hc. reflexivity.
Qed.

Lemma lstrip_head s c : hd_error (lstrip s) = Some c -> isspace c = false.
Proof.
  induction s as [|x s IH]; simpl; [discriminate|].
  destruct (isspace x) eqn:Hx; [exact IH|]. simpl. intros Heq. congruence.
Qed.

Lemma lstrip_clean s :
  (forall c, hd_error s = Some c -> isspace c = false) -> lstrip s = s.
Proof.
  destruct s as [|x s]; simpl; intros Hhd; [reflexivity|].
  rewrite (Hhd x eq_refl). reflexivity.
Qed.

Lemma lstrip_keeps_last w c :
  isspace c = false -> exists w', lstrip (w ++ [c]) = w' ++ [c].
Proof.
  intros Hc. induction w as [|x w IH]; simpl.
  - rewrite Hc. exists []. reflexivity.
  - destruct (isspace x); [exact IH|]. exists (x :: w). reflexivity.
Qed.

Lemma rstrip_head s c :
  (forall x, hd_error s = Some x -> isspace x = false) ->
  hd_error (rstrip s) = Some c -> isspace c = false.
Proof.
  unfold rstrip. destruct s as [|x s]; simpl; [discriminate|].
  intros Hhd. destruct (lstrip_keeps_last (rev s) x (Hhd x eq_refl)) as [w' ->].
  rewrite rev_app_distr. simpl. intros Heq. injection Heq as <-. auto.
Qed.

Lemma rstrip_rstrip s : rstrip (rstrip s) = rstrip s.
Proof. unfold rstrip. rewrite rev_involutive, lstrip_lstrip. reflexivity. Qed.

(** Trimming a trimmed text changes nothing. *)
Lemma strip_strip s : strip (strip s) = strip s.
Proof.
  unfold strip. rewrite (lstrip_clean (rstrip (lstrip s))).
  - apply rstrip_rstrip.
  - intros c. apply rstrip_head. intros x. apply lstrip_head.
Qed.

Lemma Qc_leb_false x y : Qc_leb x y = false -> (y < x)%Qc.
Proof.
  unfold Qc_leb. intros Hle. apply Qnot_le_lt. intros Hxy.
  apply Qle_bool_iff in Hxy. congruence.
Qed.

(** What a level says about the fragment. *)
Lemma classify_header_level_Some self e lvl :
  classify_header_level self e = Some lvl ->
  is_paragraph_text self e = false /\
  (size_of e < title_font_size self)%Qc /\
  match lvl with
  | H1 => (paragraph_font_size self < size_of e)%Qc
  | H2 => size_of e = paragraph_font_size self /\ get (bold e) false = true /\
          (List.length (split (strip (get (text e) []))) <= 10)%nat
  end.
Proof.
  unfold classify_header_level. fold (title_font_size self). fold (size_of e).
  destruct (is_paragraph_text self e); [discriminate|].
  destruct (Qc_leb (title_font_size self) (size_of e)) eqn:Htitle; [discriminate|].
  apply Qc_leb_false in Htitle.
  destruct (Qc_ltb (paragraph_font_size self) (size_of e)) eqn:Hbody.
  - intros Heq. injection Heq as <-. apply Qc_ltb_lt in Hbody. auto.
  - destruct (Qc_eqb (size_of e) (paragraph_font_size self) && get (bold e) false
              && (Z.of_nat (List.length (split (strip (get (text e) [])))) <=? 10))
      eqn:Hh2; [|discriminate].
    intros Heq. injection Heq as <-.
    apply andb_true_iff in Hh2. destruct Hh2 as [Hh2 Hwords].
    apply andb_true_iff in Hh2. destruct Hh2 as [Hsize Hbold].
    apply Qc_eqb_eq in Hsize. apply Z.leb_le in Hwords.
    repeat split; [assumption | assumption | assumption | lia].
Qed.

(** Every outline entry of a returned document is a fragment of the
    sequence, with its trimmed text and its page: a fragment whose trimmed
    text is not empty, that the table region detector did not mark, that
    no filter of 4.2 matches, and that the classifier gives the entry's
    level. *)
Theorem outline_entry_origin :
  forall self elements d en,
    snd (parse_pdf_data self elements) = Ok d ->
    In en (doc_outline d) ->
    exists i e,
      nth_error elements i = Some e /\
      entry_text en = strip (get (text e) []) /\
      entry_page en = get (page e) 1 /\
      entry_text en <> [] /\
      mem Nat.eqb i (table_elements (fst (parse_pdf_data self elements))) = false /\
      is_boilerplate e = false /\
      classify_header_level (fst (parse_pdf_data self elements)) e = Some (entry_level en).
Proof.
  intros self elements d en Hrun Hen.
  destruct (parse_pdf_data_pass self elements Hrun)
    as (found & Hid & Hfinal & Hd & Ht & Htb & Hm & Hp & Hpat & Htp & Ho & Hc).
  cbv zeta in *. subst d. cbn [doc_outline] in Hen.
  destruct (pass_outline (enumerate elements) (with_title found (profiled self elements)))
    as [news [Hout [_ Hfrom]]].
  rewrite Hfinal, Hout, Ho in Hen. cbn [app] in Hen.
  destruct (Hfrom en Hen) as (i & e & Hin & Hprom).
  apply enumerate_nth in Hin.
  assert (Hprom' : promoted (fst (parse_pdf_data self elements)) i e en).
  { eapply promoted_same; [| | |exact Hprom]; congruence. }
  destruct Hprom' as (Htxt & Hpg & (Hne & Hmark & Hboiler & _) & Hlvl).
  exists i, e. rewrite Htxt. auto 10.
Qed.

(** The levels of a returned outline: an H1 entry is a fragment larger
    than the body font, an H2 entry a bold fragment of the body font size
    with at most ten words; both are smaller than the title's font (16
    without a title) and neither is paragraph text. *)
Theorem outline_entry_level :
  forall self elements d en,
    snd (parse_pdf_data self elements) = Ok d ->
    In en (doc_outline d) ->
    let final := fst (parse_pdf_data self elements) in
    exists e,
      In e elements /\ fragment_at e = entry_at en /\
      is_paragraph_text final e = false /\
      (size_of e < title_font_size final)%Qc /\
      match entry_level en with
      | H1 => (paragraph_font_size final < size_of e)%Qc
      | H2 => size_of e = paragraph_font_size final /\ get (bold e) false = true /\
              (List.length (split (strip (get (text e) []))) <= 10)%nat
      end.
Proof.
  intros self elements d en Hrun Hen final.
  destruct (parse_pdf_data_pass self elements Hrun)
    as (found & Hid & Hfinal & Hd & Ht & Htb & Hm & Hp & Hpat & Htp & Ho & Hc).
  cbv zeta in *. subst d. cbn [doc_outline] in Hen.
  destruct (pass_outline (enumerate elements) (with_title found (profiled self elements)))
    as [news [Hout [_ Hfrom]]].
  rewrite Hfinal, Hout, Ho in Hen. cbn [app] in Hen.
  destruct (Hfrom en Hen) as (i & e & Hin & Hprom).
  assert (Hprom' : promoted final i e en).
  { eapply promoted_same; [| | |exact Hprom]; unfold final; congruence. }
  destruct Hprom' as (Htxt & Hpg & _ & Hlvl).
  exists e. split; [apply (enumerate_from_In _ _ _ _ Hin)|].
  split; [unfold fragment_at, entry_at; congruence|].
  apply classify_header_level_Some. exact Hlvl.
Qed.

Lemma subseq_In {A : Type} (l1 l2 : list A) :
  subseq l1 l2 -> forall x, In x l1 -> In x l2.
Proof.
  induction 1 as [|y l1 l2 _ IH|y l1 l2 _ IH]; intros x Hin.
  - contradiction.
  - right. apply IH, Hin.
  - destruct Hin as [<-|Hin]; [left; reflexivity | right; apply IH, Hin].
Qed.

Lemma subseq_map {A B : Type} (f : A -> B) (l1 l2 : list A) :
  subseq l1 l2 -> subseq (map f l1) (map f l2).
Proof. induction 1; simpl; constructor; assumption. Qed.

Lemma subseq_StronglySorted {A : Type} (R : A -> A -> Prop) (l1 l2 : list A) :
  subseq l1 l2 -> StronglySorted R l2 -> StronglySorted R l1.
Proof.
  induction 1 as [|y l1 l2 Hsub IH|y l1 l2 Hsub IH]; intros Hs.
  - constructor.
  - inversion Hs; subst. apply IH. assumption.
  - inversion Hs as [|? ? Hs' Hall]; subst. constructor; [apply IH; assumption|].
    rewrite Forall_forall in *. intros x Hx. apply Hall.
    apply (subseq_In Hsub). exact Hx.
Qed.

Lemma run_outline_subseq self elements d :
  snd (parse_pdf_data self elements) = Ok d ->
  subseq (map entry_at (doc_outline d)) (map fragment_at elements).
Proof.
  intros Hrun.
  destruct (parse_pdf_data_pass self elements Hrun)
    as (found & Hid & Hfinal & Hd & Ht & Htb & Hm & Hp & Hpat & Htp & Ho & Hc).
  cbv zeta in *. subst d. cbn [doc_outline].
  destruct (pass_outline (enumerate elements) (with_title found (profiled self elements)))
    as [news [Hout [Hsub _]]].
  rewrite Hfinal, Hout, Ho. cbn [app].
  unfold enumerate in Hsub. rewrite map_snd_enumerate_from in Hsub. exact Hsub.
Qed.

(** The outline of a returned document lists its entries in the order of
    the fragments they come from; when the pages of the fragments do not
    decrease along the sequence, neither do the pages of the outline. *)
Theorem outline_in_fragment_order :
  forall self elements d,
    snd (parse_pdf_data self elements) = Ok d ->
    subseq (map entry_at (doc_outline d)) (map fragment_at elements) /\
    (Sorted Z.le (map page_of elements) -> Sorted Z.le (map entry_page (doc_outline d))).
Proof.
  intros self elements d Hrun.
  destruct (parse_pdf_data_pass self elements Hrun)
    as (found & Hid & Hfinal & Hd & Ht & Htb & Hm & Hp & Hpat & Htp & Ho & Hc).
  cbv zeta in *. subst d. cbn [doc_outline].
  destruct (pass_outline (enumerate elements) (with_title found (profiled self elements)))
    as [news [Hout [Hsub _]]].
  rewrite Hfinal, Hout, Ho. cbn [app].
  unfold enumerate in Hsub. rewrite map_snd_enumerate_from in Hsub.
  split; [exact Hsub|].
  intros Hsorted. apply StronglySorted_Sorted.
  apply Sorted_StronglySorted in Hsorted; [|intros x y z; apply Z.le_trans].
  apply (subseq_map snd) in Hsub. rewrite !map_map in Hsub.
  exact (subseq_StronglySorted Hsub Hsorted).
Qed.

(** The texts of the outline are trimmed and not empty. *)
Theorem outline_texts_trimmed :
  forall self elements d en,
    snd (parse_pdf_data self elements) = Ok d ->
    In en (doc_outline d) ->
    strip (entry_text en) = entry_text en /\ entry_text en <> [].
Proof.
  intros self elements d en Hrun Hen.
  destruct (parse_pdf_data_pass self elements Hrun)
    as (found & Hid & Hfinal & Hd & Ht & Htb & Hm & Hp & Hpat & Htp & Ho & Hc).
  cbv zeta in *. subst d. cbn [doc_outline] in Hen.
  destruct (pass_outline (enumerate elements) (with_title found (profiled self elements)))
    as [news [Hout [_ Hfrom]]].
  rewrite Hfinal, Hout, Ho in Hen. cbn [app] in Hen.
  destruct (Hfrom en Hen) as (i & e & Hin & (Htxt & _ & (Hne & _) & _)).
  rewrite Htxt. split; [apply strip_strip | exact Hne].
Qed.

Lemma run_skips_title :
  forall self elements d t txt pg,
    snd (parse_pdf_data self elements) = Ok d ->
    title (fst (parse_pdf_data self elements)) = Some t ->
    text t = Some txt -> strip txt = txt -> page t = Some pg ->
    ~ In (txt, pg) (map entry_at (doc_outline d)) /\
    ~ In (txt, pg) (map paragraph_at (content (fst (parse_pdf_data self elements)))).
Proof.
  intros self elements d t txt pg Hrun Htitle Htxt Hstrip Hpg.
  destruct (parse_pdf_data_pass self elements Hrun)
    as (found & Hid & Hfinal & Hd & Ht & Htb & Hm & Hp & Hpat & Htp & Ho & Hc).
  cbv zeta in *. subst d. cbn [doc_outline].
  assert (Hfound : found = Some t) by congruence.
  assert (Hskip : forall i e,
            reaches_toc_test (with_title found (profiled self elements)) i e ->
            fragment_at e <> (txt, pg)).
  { intros i e (_ & _ & _ & Hnot) Heq. unfold fragment_at in Heq.
    injection Heq as He Hpe. rewrite He, Hpe in Hnot.
    unfold is_title_fragment in Hnot. rewrite Htb, Hfound in Hnot.
    unfold truthy, get_is in Hnot. rewrite Htxt, Hpg in Hnot.
    rewrite str_eqb_refl, Z.eqb_refl in Hnot. discriminate. }
  split.
  - destruct (pass_outline (enumerate elements) (with_title found (profiled self elements)))
      as [news [Hout [_ Hfrom]]].
    rewrite Hfinal, Hout, Ho. cbn [app]. intros Hin.
    apply in_map_iff in Hin. destruct Hin as [en [Heq Hen]].
    destruct (Hfrom en Hen) as (i & e & _ & (He & Hpe & Hreach & _)).
    apply (Hskip i e Hreach). unfold fragment_at, entry_at in *. congruence.
  - destruct (pass_content (enumerate elements) (with_title found (profiled self elements)))
      as [news [Hout [_ Hfrom]]].
    rewrite Hfinal, Hout, Hc. cbn [app]. intros Hin.
    apply in_map_iff in Hin. destruct Hin as [p [Heq Hen]].
    destruct (Hfrom p Hen) as (i & e & _ & (He & Hpe & Hreach & _)).
    apply (Hskip i e Hreach). unfold fragment_at, paragraph_at in *. congruence.
Qed.

(** When the title fragment has a page and its text is trimmed, no outline
    entry and no body record has the title's text and page. *)
Theorem title_fragment_left_out :
  forall self elements d t txt pg,
    snd (parse_pdf_data self elements) = Ok d ->
    title (fst (parse_pdf_data self elements)) = Some t ->
    text t = Some txt -> strip txt = txt -> page t = Some pg ->
    ~ In (txt, pg) (map entry_at (doc_outline d)) /\
    ~ In (txt, pg) (map paragraph_at (content (fst (parse_pdf_data self elements)))).
Proof. exact run_skips_title. Qed.

Lemma identify_title_In self elements t :
  identify_title self elements = Ok (Some t) -> In t elements.
Proof.
  unfold identify_title.
  destruct (title_candidates self elements) as [|c0 cs] eqn:Hcs; [discriminate|].
  destruct (sort_reverse_exn candidate_lt (c0 :: cs)) as [[|c l]|] eqn:Hs;
    try discriminate.
  intros Heq. injection Heq as <-.
  assert (Hin : In c (title_candidates self elements)).
  { rewrite Hcs. apply (sort_reverse_exn_In candidate_lt (c0 :: cs) Hs). left. reflexivity. }
  apply title_candidates_In in Hin. destruct Hin as (e & He & _ & _ & _ & ->). exact He.
Qed.

End Outline.

(* ================================================================== *)
(** * The sort of the title identifier *)

Section TitleSort.
Context {U : UnicodeDB}.

Lemma str_ltb_irrefl a : str_ltb a a = false.
Proof.
  induction a as [|x a IH]; simpl; [reflexivity|].
  rewrite N.ltb_irrefl, N.eqb_refl, IH. reflexivity.
Qed.

Lemma str_ltb_trans :
  forall a b c, str_ltb a b = true -> str_ltb b c = true -> str_ltb a c = true.
Proof.
  induction a as [|x a IH]; intros [|y b] [|z c]; simpl; try discriminate; auto.
  rewrite !orb_true_iff, !andb_true_iff, !N.ltb_lt, !N.eqb_eq.
  intros [Hxy|[Hxy Hab]] [Hyz|[Hyz Hbc]].
  - left. lia.
  - left. lia.
  - left. lia.
  - right. split; [lia|]. apply (IH b c Hab Hbc).
Qed.

Lemma key_ltb_lt a b :
  key_ltb a b = true <->
  (fst (fst a) < fst (fst b))%Qc \/
  (fst (fst a) = fst (fst b) /\
   (snd (fst a) < snd (fst b) \/
    (snd (fst a) = snd (fst b) /\ str_ltb (snd a) (snd b) = true))).
Proof.
  destruct a as [[fa pa] ta], b as [[fb pb] tb]. simpl.
  rewrite orb_true_iff, andb_true_iff, orb_true_iff, andb_true_iff.
  rewrite Qc_ltb_lt, Qc_eqb_eq, Z.ltb_lt, Z.eqb_eq. reflexivity.
Qed.

Lemma key_ltb_irrefl a : key_ltb a a = false.
Proof.
  destruct (key_ltb a a) eqn:Hlt; [|reflexivity].
  apply key_ltb_lt in Hlt. destruct Hlt as [Hlt|[_ [Hlt|[_ Hlt]]]].
  - exfalso. apply (Qclt_not_eq _ _ Hlt). reflexivity.
  - lia.
  - rewrite str_ltb_irrefl in Hlt. discriminate.
Qed.

Lemma key_ltb_trans a b c :
  key_ltb a b = true -> key_ltb b c = true -> key_ltb a c = true.
Proof.
  rewrite !key_ltb_lt.
  intros [Hab|[Hab [Hab'|[Hab' Hab'']]]] [Hbc|[Hbc [Hbc'|[Hbc' Hbc'']]]].
  - left. apply (Qclt_trans _ _ _ Hab Hbc).
  - left. rewrite <- Hbc. exact Hab.
  - left. rewrite <- Hbc. exact Hab.
  - left. rewrite Hab. exact Hbc.
  - right. split; [congruence|]. left. lia.
  - right. split; [congruence|]. left. lia.
  - left. rewrite Hab. exact Hbc.
  - right. split; [congruence|]. left. lia.
  - right. split; [congruence|]. right. split; [lia|].
    apply (str_ltb_trans _ _ _ Hab'' Hbc'').
Qed.

Lemma key_ltb_above h y x :
  key_ltb h y = true -> key_ltb h x = false -> key_ltb y x = false.
Proof.
  intros Hhy Hhx. destruct (key_ltb y x) eqn:Hyx; [|reflexivity].
  rewrite (key_ltb_trans _ _ _ Hhy Hyx) in Hhx. discriminate.
Qed.

Lemma key_ltb_asym a b : key_ltb a b = true -> key_ltb b a = false.
Proof.
  intros Hab. apply (key_ltb_above a); [assumption | apply key_ltb_irrefl].
Qed.

Lemma element_eqb_eq a b : element_eqb a b = true <-> a = b.
Proof.
  destruct a as [ta pa fa ba], b as [tb pb fb bb]. unfold element_eqb. simpl.
  rewrite !andb_true_iff. split.
  - intros [[[Ht Hp] Hf] Hb].
    assert (ta = tb).
    { destruct ta, tb; simpl in Ht; try discriminate; [|reflexivity].
      apply str_eqb_eq in Ht. congruence. }
    assert (pa = pb).
    { destruct pa, pb; simpl in Hp; try discriminate; [|reflexivity].
      apply Z.eqb_eq in Hp. congruence. }
    assert (fa = fb).
    { destruct fa, fb; simpl in Hf; try discriminate; [|reflexivity].
      apply Qc_eqb_eq in Hf. congruence. }
    assert (ba = bb).
    { destruct ba, bb; simpl in Hb; try discriminate; [|reflexivity].
      apply Bool.eqb_prop in Hb. congruence. }
    congruence.
  - intros Heq. injection Heq as -> -> -> ->.
    repeat split.
    + destruct tb; simpl; [apply str_eqb_refl | reflexivity].
    + destruct pb; simpl; [apply Z.eqb_refl | reflexivity].
    + destruct fb; simpl; [apply Qc_eqb_eq; reflexivity | reflexivity].
    + destruct bb; simpl; [apply Bool.eqb_reflx | reflexivity].
Qed.

(** The comparison of two candidates raises exactly on a tie, and
    otherwise orders them by size, page and text. *)
Lemma candidate_lt_spec a b :
  (tie a b /\ candidate_lt a b = Raise TypeError) \/
  (~ tie a b /\ candidate_lt a b = Ok (key_ltb (fst a) (fst b))).
Proof.
  destruct a as [[[fa pa] ta] ea], b as [[[fb pb] tb] eb].
  unfold tie, candidate_lt, key_ltb. simpl.
  destruct (Qc_eqb fa fb) eqn:Hf; simpl.
  - apply Qc_eqb_eq in Hf. subst fb.
    assert (Hirr : Qc_ltb fa fa = false).
    { destruct (Qc_ltb fa fa) eqn:Hlt; [|reflexivity].
      apply Qc_ltb_lt in Hlt. exfalso. apply (Qclt_not_eq _ _ Hlt). reflexivity. }
    rewrite Hirr. simpl.
    destruct (pa =? pb) eqn:Hp; simpl.
    + apply Z.eqb_eq in Hp. subst pb. rewrite Z.ltb_irrefl. simpl.
      destruct (str_eqb ta tb) eqn:Ht; simpl.
      * apply str_eqb_eq in Ht. subst tb. rewrite str_ltb_irrefl.
        destruct (element_eqb ea eb) eqn:He; simpl.
        -- right. split; [|reflexivity]. apply element_eqb_eq in He.
           intros [_ Hne]. contradiction.
        -- left. split; [|reflexivity]. split; [reflexivity|].
           intros Heq. apply element_eqb_eq in Heq. congruence.
      * right. split; [|reflexivity]. intros [Heq _]. injection Heq as Heq.
        apply str_eqb_eq in Heq. congruence.
    + right. rewrite orb_false_r. split; [|reflexivity].
      intros [Heq _]. injection Heq as Heq _. apply Z.eqb_eq in Heq. congruence.
  - right. rewrite orb_false_r. split; [|reflexivity].
    intros [Heq _]. injection Heq as Heq _ _. apply Qc_eqb_eq in Heq. congruence.
Qed.

Lemma tie_sym a b : tie a b -> tie b a.
Proof. intros [Hk Hne]. split; [symmetry; assumption | auto]. Qed.

(** Where the sort returns, it is the sort by size, page and text. *)
Lemma insert_desc_exn_pure x :
  forall l l',
    insert_desc_exn candidate_lt x l = Ok l' ->
    l' = insert_desc (fun a b => key_ltb (fst a) (fst b)) x l.
Proof.
  induction l as [|y l IH]; simpl; intros l' Hins.
  - injection Hins as <-. reflexivity.
  - destruct (candidate_lt_spec y x) as [[_ Hr]|[_ Hr]]; rewrite Hr in Hins;
      [discriminate|].
    destruct (key_ltb (fst y) (fst x)); [injection Hins as <-; reflexivity|].
    destruct (insert_desc_exn candidate_lt x l) as [l''|]; [|discriminate].
    injection Hins as <-. rewrite <- (IH l'' eq_refl). reflexivity.
Qed.

Lemma fold_Raise (l : list candidate) e :
  fold_left
    (fun sorted x =>
       match sorted with
       | Raise e => Raise e
       | Ok sorted => insert_desc_exn candidate_lt x sorted
       end) l (Raise e) = Raise e.
Proof. induction l as [|x l IH]; simpl; [reflexivity | exact IH]. Qed.

Lemma sort_reverse_exn_pure :
  forall l acc l',
    fold_left
      (fun sorted x =>
         match sorted with
         | Raise e => Raise e
         | Ok sorted => insert_desc_exn candidate_lt x sorted
         end) l (Ok acc) = Ok l' ->
    l' = fold_left (fun sorted x => insert_desc (fun a b => key_ltb (fst a) (fst b)) x sorted)
                   l acc.
Proof.
  induction l as [|x l IH]; simpl; intros acc l' Hs.
  - injection Hs as <-. reflexivity.
  - destruct (insert_desc_exn candidate_lt x acc) as [acc'|e] eqn:Hins.
    + rewrite <- (insert_desc_exn_pure x acc Hins). apply IH. exact Hs.
    + rewrite fold_Raise in Hs. discriminate.
Qed.

(** A raise comes from a tie. *)
Lemma insert_desc_exn_Raise x e :
  forall l, insert_desc_exn candidate_lt x l = Raise e ->
            exists y, In y l /\ tie y x.
Proof.
  induction l as [|y l IH]; simpl; intros Hins; [discriminate|].
  destruct (candidate_lt_spec y x) as [[Htie Hr]|[_ Hr]]; rewrite Hr in Hins.
  - exists y. auto.
  - destruct (key_ltb (fst y) (fst x)); [discriminate|].
    destruct (insert_desc_exn candidate_lt x l) as [l''|e'] eqn:Hrec; [discriminate|].
    destruct (IH Hins) as [z [Hz Htie]]. exists z. auto.
Qed.

Lemma sort_reverse_exn_Raise e :
  forall l acc,
    fold_left
      (fun sorted x =>
         match sorted with
         | Raise e => Raise e
         | Ok sorted => insert_desc_exn candidate_lt x sorted
         end) l (Ok acc) = Raise e ->
    exists a b, (In a acc \/ In a l) /\ In b l /\ tie a b.
Proof.
  induction l as [|x l IH]; simpl; intros acc Hs; [discriminate|].
  destruct (insert_desc_exn candidate_lt x acc) as [acc'|e'] eqn:Hins.
  - destruct (IH acc' Hs) as (a & b & Ha & Hb & Htie).
    exists a, b. split; [|auto].
    destruct Ha as [Ha|Ha]; [|auto].
    apply (insert_desc_exn_In candidate_lt x acc Hins) in Ha. intuition.
  - destruct (insert_desc_exn_Raise x acc Hins) as [y [Hy Htie]].
    exists y, x. auto.
Qed.

(** A tie makes the sort raise. *)
Lemma insert_desc_exn_tie x a :
  forall l,
    StronglySorted (fun y z => key_ltb (fst y) (fst z) = false) l ->
    In a l -> tie a x ->
    insert_desc_exn candidate_lt x l = Raise TypeError.
Proof.
  induction l as [|y l IH]; simpl; intros Hs Hin Htie; [contradiction|].
  inversion Hs as [|? ? Hs' Hall]; subst.
  destruct (candidate_lt_spec y x) as [[_ Hr]|[Hno Hr]]; rewrite Hr; [reflexivity|].
  destruct Hin as [->|Hin]; [contradiction|].
  rewrite Forall_forall in Hall. specialize (Hall a Hin). simpl in Hall.
  destruct Htie as [Hk Hne]. rewrite Hk in Hall. rewrite Hall.
  rewrite (IH Hs' Hin (conj Hk Hne)). reflexivity.
Qed.

Lemma insert_desc_StronglySorted x :
  forall l,
    StronglySorted (fun y z => key_ltb (fst y) (fst z) = false) l ->
    StronglySorted (fun y z => key_ltb (fst y) (fst z) = false)
      (insert_desc (fun a b : candidate => key_ltb (fst a) (fst b)) x l).
Proof.
  induction l as [|y l IH]; simpl; intros Hs.
  - repeat constructor.
  - inversion Hs as [|? ? Hs' Hall]; subst.
    destruct (key_ltb (fst y) (fst x)) eqn:Hyx.
    + constructor; [assumption|]. constructor.
      * apply key_ltb_asym. exact Hyx.
      * rewrite Forall_forall in *. intros z Hz.
        apply (key_ltb_above (fst y)); [assumption | apply Hall, Hz].
    + constructor; [apply IH; assumption|].
      rewrite Forall_forall in *. intros z Hz.
      apply insert_desc_In in Hz. destruct Hz as [->|Hz]; [assumption | apply Hall, Hz].
Qed.

Lemma sort_reverse_exn_tie :
  forall l acc,
    StronglySorted (fun y z => key_ltb (fst y) (fst z) = false) acc ->
    (exists a b, (In a acc \/ In a l) /\ In b l /\ tie a b) ->
    fold_left
      (fun sorted x =>
         match sorted with
         | Raise e => Raise e
         | Ok sorted => insert_desc_exn candidate_lt x sorted
         end) l (Ok acc) = Raise TypeError.
Proof.
  induction l as [|x l IH]; intros acc Hs (a & b & Ha & Hb & Htie).
  - contradiction.
  - cbn [fold_left].
    destruct (insert_desc_exn candidate_lt x acc) as [acc'|[]] eqn:Hins;
      [|apply fold_Raise].
    assert (Hs' : StronglySorted (fun y z => key_ltb (fst y) (fst z) = false) acc').
    { erewrite insert_desc_exn_pure by eassumption.
      apply insert_desc_StronglySorted, Hs. }
    assert (Hacc' : forall y, In y acc' <-> y = x \/ In y acc)
      by (apply (insert_desc_exn_In candidate_lt x acc Hins)).
    apply (IH acc' Hs').
    destruct Hb as [<-|Hb].
    + (* the later item of the tie is inserted now *)
      destruct Ha as [Ha|[<-|Ha]].
      * assert (Hr : insert_desc_exn candidate_lt x acc = Raise TypeError)
          by (eapply insert_desc_exn_tie; eassumption).
        rewrite Hr in Hins. discriminate.
      * destruct Htie as [_ Hne]. congruence.
      * exists x, a. split; [left; apply Hacc'; auto|]. split; [assumption|].
        apply tie_sym, Htie.
    + exists a, b. split; [|auto].
      destruct Ha as [Ha|[<-|Ha]]; [left; apply Hacc'; auto | left; apply Hacc'; auto | auto].
Qed.

Lemma candidate_is_fragment self elements c :
  In c (title_candidates self elements) <->
  exists e, In e elements /\ is_candidate self e /\ c = (key_of e, e).
Proof.
  rewrite title_candidates_In. unfold is_candidate, key_of, size_of, page_of.
  split; intros (e & He & H); exists e; intuition.
Qed.

(** [identify_title] raises [TypeError] exactly when two fragments of the
    candidate pool agree in font size, page and trimmed text and differ as
    dicts; otherwise it returns. *)
Theorem identify_title_raises_on_ties :
  forall self elements,
    identify_title self elements = Raise TypeError <->
    exists e1 e2,
      In e1 elements /\ In e2 elements /\
      is_candidate self e1 /\ is_candidate self e2 /\
      key_of e1 = key_of e2 /\ e1 <> e2.
Proof.
  intros self elements.
  assert (Hsort : identify_title self elements = Raise TypeError <->
                  sort_reverse_exn candidate_lt (title_candidates self elements)
                  = Raise TypeError).
  { unfold identify_title.
    destruct (title_candidates self elements) as [|c cs]; [split; discriminate|].
    destruct (sort_reverse_exn candidate_lt (c :: cs)) as [[|first rest]|[]];
      split; congruence. }
  rewrite Hsort. unfold sort_reverse_exn. split.
  - intros Hr. apply sort_reverse_exn_Raise in Hr.
    destruct Hr as (a & b & Ha & Hb & [Hk Hne]).
    destruct Ha as [[]|Ha].
    apply candidate_is_fragment in Ha, Hb.
    destruct Ha as (e1 & He1 & Hc1 & ->), Hb as (e2 & He2 & Hc2 & ->).
    simpl in *. exists e1, e2. auto 10.
  - intros (e1 & e2 & He1 & He2 & Hc1 & Hc2 & Hk & Hne).
    apply sort_reverse_exn_tie; [constructor|].
    exists (key_of e1, e1), (key_of e2, e2).
    split; [right; apply candidate_is_fragment; exists e1; auto|].
    split; [apply candidate_is_fragment; exists e2; auto|].
    split; assumption.
Qed.

(** The title [identify_title] returns is a candidate, and no candidate
    comes after it in the order by font size, then page, then trimmed
    text: none has a larger font; of those with the same font none lies
    on a later page; of those on the same page none has a greater text. *)
Theorem identify_title_largest :
  forall self elements t,
    identify_title self elements = Ok (Some t) ->
    In t elements /\ is_candidate self t /\
    forall e, In e elements -> is_candidate self e ->
      (size_of e < size_of t)%Qc \/
      (size_of e = size_of t /\
       (page_of e < page_of t \/
        (page_of e = page_of t /\
         str_ltb (strip (get (text t) [])) (strip (get (text e) [])) = false))).
Proof.
  intros self elements t Hid. unfold identify_title in Hid.
  destruct (title_candidates self elements) as [|c0 cs] eqn:Hcs; [discriminate|].
  destruct (sort_reverse_exn candidate_lt (c0 :: cs)) as [[|first rest]|] eqn:Hs;
    try discriminate.
  injection Hid as <-. rewrite <- Hcs in Hs. clear c0 cs Hcs.
  pose proof (sort_reverse_exn_pure (title_candidates self elements) [] Hs) as Hpure.
  pose proof (sort_reverse_first (fun a b : candidate => key_ltb (fst a) (fst b))
                (fun a => key_ltb_irrefl (fst a))
                (fun h y x => @key_ltb_above (fst h) (fst y) (fst x))
                (title_candidates self elements)) as Hfirst.
  unfold sort_reverse in Hfirst.
  match type of Hfirst with
  | match ?s with [] => _ | _ :: _ => _ end =>
      replace s with (first :: rest) in Hfirst by exact Hpure
  end.
  destruct Hfirst as [Hin Hmax].
  apply candidate_is_fragment in Hin. destruct Hin as (t & Ht & Hct & ->). simpl.
  split; [assumption|]. split; [assumption|].
  intros e He Hce.
  assert (Hle : key_ltb (key_of t) (key_of e) = false).
  { apply (Hmax (key_of e, e)). apply candidate_is_fragment. exists e. auto. }
  unfold key_of in Hle.
  destruct (Qclt_le_dec (size_of e) (size_of t)) as [Hlt|Hge]; [left; assumption|].
  right.
  assert (Hnot : ~ key_ltb (size_of t, page_of t, strip (get (text t) []))
                           (size_of e, page_of e, strip (get (text e) [])) = true)
    by congruence.
  rewrite key_ltb_lt in Hnot. simpl in Hnot.
  assert (Hsize : size_of e = size_of t).
  { destruct (Qcle_lt_or_eq _ _ Hge) as [Hlt|Heq]; [tauto | congruence]. }
  split; [assumption|].
  destruct (Z.lt_trichotomy (page_of e) (page_of t)) as [Hlt|[Heq|Hgt]].
  - left. assumption.
  - right. split; [assumption|].
    destruct (str_ltb (strip (get (text t) [])) (strip (get (text e) []))) eqn:Hstr;
      [|reflexivity].
    exfalso. apply Hnot. right. split; [congruence|]. right. auto.
  - exfalso. apply Hnot. right. split; [congruence|]. left. assumption.
Qed.

End TitleSort.

(* ================================================================== *)
(** * The table region detector *)

Section Detector.
Context {U : UnicodeDB}.

Lemma append_at_In pg (item : nat * element) :
  forall d x,
    In x (List.concat (map snd (append_at pg item d))) <->
    x = item \/ In x (List.concat (map snd d)).
Proof.
  induction d as [|[p l] d IH]; intros x; simpl.
  - intuition.
  - destruct (p =? pg); simpl.
    + rewrite !in_app_iff. simpl. intuition.
    + rewrite !in_app_iff, IH. intuition.
Qed.

Lemma page_elements_In (l : list (nat * element)) :
  forall d x,
    In x (List.concat (map snd (fold_left (fun d ie => append_at (get (page (snd ie)) 1) ie d)
                                     l d))) <->
    In x (List.concat (map snd d)) \/ In x l.
Proof.
  induction l as [|ie l IH]; intros d x; simpl.
  - intuition.
  - rewrite IH, append_at_In. intuition.
Qed.

Lemma fold_left_groups {A B K : Type} (f : A -> B -> A) (groups : list (K * list B)) :
  forall a,
    fold_left (fun a g => fold_left f (snd g) a) groups a =
    fold_left f (List.concat (map snd groups)) a.
Proof.
  induction groups as [|g groups IH]; intros a; simpl; [reflexivity|].
  rewrite fold_left_app. apply IH.
Qed.

Lemma mem_add_nat i j s :
  mem Nat.eqb i (add Nat.eqb j s) = true <-> i = j \/ mem Nat.eqb i s = true.
Proof.
  unfold add. destruct (mem Nat.eqb j s) eqn:Hj; simpl.
  - split; [auto|]. intros [->|H]; assumption.
  - rewrite orb_true_iff, Nat.eqb_eq. reflexivity.
Qed.

Lemma marks_In elements (l : list (nat * element)) :
  forall self i,
    mem Nat.eqb i
      (table_elements
         (fold_left
            (fun self ie =>
               if is_table_element (snd ie) elements (fst ie)
               then set_table_elements (add Nat.eqb (fst ie) (table_elements self)) self
               else self) l self)) = true <->
    mem Nat.eqb i (table_elements self) = true \/
    exists e, In (i, e) l /\ is_table_element e elements i = true.
Proof.
  induction l as [|[j e] l IH]; intros self i; cbn [fold_left].
  - split; [auto|]. intros [H|[e [[] _]]]. exact H.
  - rewrite IH. cbn [fst snd].
    destruct (is_table_element e elements j) eqn:Hj.
    + cbn [table_elements set_table_elements]. rewrite mem_add_nat. split.
      * intros [[->|H]|[e' [Hin He']]]; [right; exists e; split; [left; reflexivity|assumption]
                                        | auto | right; exists e'; split; [right|]; assumption].
      * intros [H|[e' [[Heq|Hin] He']]]; [auto | injection Heq as <- <-; auto
                                         | right; exists e'; auto].
    + split.
      * intros [H|[e' [Hin He']]]; [auto | right; exists e'; split; [right|]; assumption].
      * intros [H|[e' [[Heq|Hin] He']]]; [auto | injection Heq as <- <-; congruence
                                         | right; exists e'; auto].
Qed.

(** [detect_table_elements] adds to the marks exactly the indices of the
    fragments for which [is_table_element] holds; that it visits them
    page by page makes no difference. *)
Lemma detect_table_elements_marks self elements i :
  mem Nat.eqb i (table_elements (detect_table_elements self elements)) = true <->
  mem Nat.eqb i (table_elements self) = true \/
  exists e, nth_error elements i = Some e /\ is_table_element e elements i = true.
Proof.
  unfold detect_table_elements.
  rewrite (fold_left_groups
             (fun self ie =>
                if is_table_element (snd ie) elements (fst ie)
                then set_table_elements (add Nat.eqb (fst ie) (table_elements self)) self
                else self)).
  rewrite marks_In. apply or_iff_compat_l.
  split; intros [e [Hin He]]; exists e; (split; [|assumption]).
  - apply page_elements_In in Hin. destruct Hin as [[]|Hin].
    apply enumerate_nth. exact Hin.
  - apply page_elements_In. right. apply enumerate_nth. exact Hin.
Qed.

Lemma parse_pdf_data_table_elements self elements :
  table_elements (fst (parse_pdf_data self elements)) =
  table_elements (detect_table_elements (__init__ self) elements).
Proof.
  unfold parse_pdf_data.
  destruct (identify_title _ elements) as [found|ex]; cbn [fst].
  - rewrite (pass_keeps table_elements) by frame.
    cbn [table_elements set_title_page set_title].
    apply (analyze_font_characteristics_keeps table_elements); frame.
  - apply (analyze_font_characteristics_keeps table_elements); frame.
Qed.

(** After a run, whether it returned or raised, the marked indices are
    exactly the indices of the fragments for which [is_table_element]
    holds. *)
Theorem table_elements_of_run :
  forall self elements i,
    mem Nat.eqb i (table_elements (fst (parse_pdf_data self elements))) = true <->
    exists e, nth_error elements i = Some e /\ is_table_element e elements i = true.
Proof.
  intros self elements i.
  rewrite parse_pdf_data_table_elements, detect_table_elements_marks.
  cbn [table_elements __init__ mem existsb]. split; [|auto].
  intros [H|H]; [discriminate | exact H].
Qed.

Lemma get_is_page (field : option Z) pg : get_is Z.eqb field pg = true <-> field = Some pg.
Proof.
  destruct field as [q|]; simpl; [|split; discriminate].
  rewrite Z.eqb_eq. split; congruence.
Qed.

(** [has_tabular_neighbors] looks at the fragments at most five positions
    away, inside the sequence: it holds exactly when one of them, other
    than the fragment itself, carries the fragment's page and is one of
    the five cell-header words. *)
Theorem has_tabular_neighbors_window :
  forall e all_elements idx,
    has_tabular_neighbors e all_elements idx = true <->
    exists j neighbor,
      nth_error all_elements j = Some neighbor /\
      j <> idx /\ (idx <= j + 5)%nat /\ (j <= idx + 5)%nat /\
      page neighbor = Some (get (page e) 1) /\
      re_match neighbor_pattern (lower (strip (get (text neighbor) []))) = true.
Proof.
  intros e all_elements idx. unfold has_tabular_neighbors.
  rewrite existsb_exists. split.
  - intros [j [Hj Hm]]. apply in_seq in Hj.
    destruct (nth_error all_elements j) as [neighbor|] eqn:Hn; [|discriminate].
    destruct (j =? idx)%nat eqn:Hji; [discriminate|]. apply Nat.eqb_neq in Hji.
    destruct (get_is Z.eqb (page neighbor) (get (page e) 1)) eqn:Hp; [|discriminate].
    apply get_is_page in Hp. simpl in Hm.
    exists j, neighbor. repeat split; try assumption; lia.
  - intros (j & neighbor & Hn & Hji & Hlo & Hhi & Hp & Hm).
    exists j. split.
    + apply in_seq.
      assert (j < List.length all_elements)%nat by (apply nth_error_Some; congruence).
      lia.
    + rewrite Hn. apply Nat.eqb_neq in Hji. rewrite Hji.
      apply get_is_page in Hp. rewrite Hp. simpl. exact Hm.
Qed.

End Detector.

(* ================================================================== *)
(** * The keys of the duplicate guard *)

Section Keys.
Context {U : UnicodeDB}.

Lemma codes_inj s1 s2 : codes s1 = codes s2 -> s1 = s2.
Proof.
  unfold codes. intros Heq.
  rewrite <- (string_of_list_ascii_of_string s1), <- (string_of_list_ascii_of_string s2).
  f_equal. revert Heq. generalize (list_ascii_of_string s1) (list_ascii_of_string s2).
  induction l as [|a l IH]; intros [|b l']; simpl; try discriminate; [reflexivity|].
  intros Heq. injection Heq as Hab Hl.
  f_equal; [|apply IH; assumption].
  rewrite <- (ascii_N_embedding a), <- (ascii_N_embedding b), Hab. reflexivity.
Qed.

Lemma str_of_int_inj a b : str_of_int a = str_of_int b -> a = b.
Proof.
  unfold str_of_int. intros Heq. apply codes_inj in Heq.
  apply DecimalZ.to_int_inj.
  assert (Hok : forall z, NilZero.int_of_string (NilZero.string_of_int (Z.to_int z))
                          = Some (Z.to_int z)).
  { intros z. apply NilZero.isi; destruct z; simpl; try discriminate;
      intros Hnil; injection Hnil as Hnil;
      apply (DecimalPos.Unsigned.to_uint_nonnil _ Hnil). }
  pose proof (Hok a) as Ha. rewrite Heq, Hok in Ha. congruence.
Qed.

Lemma digits_no_underscore d : ~ In 95%N (codes (NilEmpty.string_of_uint d)).
Proof.
  unfold codes. induction d; simpl; [tauto | ..];
    (intros [Heq|Hin]; [discriminate Heq | exact (IHd Hin)]).
Qed.

Lemma str_of_int_no_underscore z : ~ In 95%N (str_of_int z).
Proof.
  unfold str_of_int.
  assert (Hu : forall d, ~ In 95%N (codes (NilZero.string_of_uint d))).
  { intros d. destruct d; try apply digits_no_underscore.
    simpl. intros [Heq|[]]. discriminate. }
  destruct (Z.to_int z) as [d|d]; simpl.
  - apply Hu.
  - intros [Heq|Hin]; [discriminate | apply (Hu d Hin)].
Qed.

Lemma split_at_last (a b d1 d2 : str) (c : char) :
  ~ In c d1 -> ~ In c d2 -> a ++ c :: d1 = b ++ c :: d2 -> a = b /\ d1 = d2.
Proof.
  intros H1 H2. revert b. induction a as [|x a IH]; intros [|y b] Heq; simpl in Heq.
  - injection Heq as <-. auto.
  - injection Heq as <- ->. exfalso. apply H1, in_or_app. right. left. reflexivity.
  - injection Heq as -> <-. exfalso. apply H2, in_or_app. right. left. reflexivity.
  - injection Heq as <- Heq. destruct (IH b Heq) as [-> ->]. auto.
Qed.

Lemma header_key_split n1 p1 n2 p2 :
  header_key n1 p1 = header_key n2 p2 <-> n1 = n2 /\ p1 = p2.
Proof.
  split; [|intros [-> ->]; reflexivity].
  unfold header_key. change (u"_") with [95%N]. cbn [app].
  intros Heq. apply split_at_last in Heq; try apply str_of_int_no_underscore.
  destruct Heq as [-> Heq]. apply str_of_int_inj in Heq. auto.
Qed.

(** The key [f"{normalized}_{page}"] identifies the text and the page:
    two keys are equal only for equal texts and equal pages, and no key
    is one of the three generic labels. *)
Theorem header_key_inj :
  forall n1 p1 n2 p2,
    (header_key n1 p1 = header_key n2 p2 <-> n1 = n2 /\ p1 = p2) /\
    ~ In (header_key n1 p1) generic_labels.
Proof.
  intros n1 p1 n2 p2. split; [apply header_key_split|].
  assert (Hin : In 95%N (header_key n1 p1)).
  { unfold header_key. apply in_or_app. right. left. reflexivity. }
  intros [Heq|[Heq|[Heq|[]]]]; rewrite <- Heq in Hin; vm_compute in Hin;
    repeat (destruct Hin as [Hin|Hin]; [discriminate|]); contradiction.
Qed.

Lemma header_key_not_generic n p : ~ In (header_key n p) generic_labels.
Proof.
  assert (Hin : In 95%N (header_key n p)).
  { unfold header_key. apply in_or_app. right. left. reflexivity. }
  intros [Heq|[Heq|[Heq|[]]]]; rewrite <- Heq in Hin; vm_compute in Hin;
    repeat (destruct Hin as [Hin|Hin]; [discriminate|]); contradiction.
Qed.

Lemma mem_add_str x y s :
  mem str_eqb x (add str_eqb y s) = true <-> x = y \/ mem str_eqb x s = true.
Proof.
  unfold add. destruct (mem str_eqb y s) eqn:Hy; simpl.
  - split; [auto|]. intros [->|H]; assumption.
  - rewrite orb_true_iff, str_eqb_eq. reflexivity.
Qed.

(** With a tracked outline, the guard rejects exactly the duplicates. *)
Lemma should_include_header_tracked self txt pg :
  tracked (outline self) (seen_headers self) ->
  snd (should_include_header self txt pg) = false <->
  duplicate_of (outline self) txt pg.
Proof.
  intros Htr. unfold should_include_header, duplicate_of, entry_key.
  set (n := normalize txt).
  destruct (mem str_eqb n generic_labels) eqn:Hgen.
  - assert (Hlab : In n generic_labels) by (apply mem_str_In, Hgen).
    destruct (mem str_eqb n (seen_headers self)) eqn:Hseen; cbn [andb snd].
    + split; [|reflexivity]. intros _. right. split; [assumption|].
      apply Htr in Hseen. destruct Hseen as [[en [Hen Hk]]|[en [Hen [_ Hk]]]].
      * exfalso. apply (header_key_not_generic (normalize (entry_text en)) (entry_page en)).
        rewrite <- Hk. exact Hlab.
      * exists en. auto.
    + cbn [seen_headers set_seen_headers].
      destruct (mem str_eqb (header_key n pg) (add str_eqb n (seen_headers self)))
        eqn:Hkey; cbn [snd].
      * exfalso. apply mem_add_str in Hkey. destruct Hkey as [Hkey|Hkey].
        -- apply (header_key_not_generic n pg). rewrite Hkey. exact Hlab.
        -- apply Htr in Hkey. destruct Hkey as [[en [Hen Hk]]|[en [_ [Hg Hk]]]].
           ++ apply header_key_split in Hk. destruct Hk as [Hn _].
              assert (Hs : mem str_eqb n (seen_headers self) = true).
              { apply Htr. right. exists en. rewrite <- Hn. auto. }
              congruence.
           ++ apply (header_key_not_generic n pg). rewrite Hk. exact Hg.
      * split; [discriminate|]. intros [[en [Hen Hk]]|[_ [en [Hen Hk]]]]; exfalso.
        -- injection Hk as Hn Hp.
           assert (Hs : mem str_eqb (header_key n pg) (seen_headers self) = true).
           { apply Htr. left. exists en. rewrite Hn, Hp. auto. }
           assert (mem str_eqb (header_key n pg) (add str_eqb n (seen_headers self)) = true)
             by (apply mem_add_str; auto).
           congruence.
        -- assert (Hs : mem str_eqb n (seen_headers self) = true).
           { apply Htr. right. exists en. rewrite Hk. auto. }
           congruence.
  - assert (Hlab : ~ In n generic_labels).
    { intros Hin. apply mem_str_In in Hin. congruence. }
    cbn [andb].
    destruct (mem str_eqb (header_key n pg) (seen_headers self)) eqn:Hkey; cbn [snd].
    + split; [|reflexivity]. intros _. left.
      apply Htr in Hkey. destruct Hkey as [[en [Hen Hk]]|[en [_ [Hg Hk]]]].
      * apply header_key_split in Hk. destruct Hk as [Hn Hp].
        exists en. split; [assumption|]. congruence.
      * exfalso. apply (header_key_not_generic n pg). rewrite Hk. exact Hg.
    + split; [discriminate|]. intros [[en [Hen Hk]]|[Hg _]]; exfalso; [|auto].
      injection Hk as Hn Hp.
      assert (Hs : mem str_eqb (header_key n pg) (seen_headers self) = true).
      { apply Htr. left. exists en. rewrite Hn, Hp. auto. }
      congruence.
Qed.

(** The guard keeps the outline tracked. *)
Lemma offer_heading_tracked self lvl txt pg :
  tracked (outline self) (seen_headers self) ->
  tracked (outline (offer_heading self lvl txt pg))
          (seen_headers (offer_heading self lvl txt pg)).
Proof.
  intros Htr. destruct lvl as [lvl|]; simpl; [|assumption].
  pose proof (should_include_header_tracked self txt pg Htr) as Hdec.
  unfold should_include_header in *.
  set (n := normalize txt) in *.
  destruct (mem str_eqb n generic_labels) eqn:Hgen.
  - assert (Hlab : In n generic_labels) by (apply mem_str_In, Hgen).
    destruct (mem str_eqb n (seen_headers self)) eqn:Hseen; cbn [andb] in *;
      [assumption|].
    cbn [seen_headers set_seen_headers] in *.
    destruct (mem str_eqb (header_key n pg) (add str_eqb n (seen_headers self)))
      eqn:Hkey; cbn [snd] in *.
    + (* rejected on the key after the label was added: a duplicate, so the
         label was there already *)
      destruct (proj1 Hdec eq_refl) as [[en [Hen Hk]]|[_ [en [Hen Hk]]]].
      * injection Hk as Hn Hp.
        assert (Hs : mem str_eqb n (seen_headers self) = true).
        { apply Htr. right. exists en. rewrite Hn. auto. }
        congruence.
      * assert (Hs : mem str_eqb n (seen_headers self) = true).
        { apply Htr. right. exists en. rewrite Hk. auto. }
        congruence.
    + intros x. cbn [outline seen_headers set_outline set_seen_headers].
      rewrite !mem_add_str, (Htr x). split.
      * intros [->|[->|[[en [Hen Hk]]|[en [Hen Hk]]]]].
        -- left. eexists. split; [apply in_or_app; right; left; reflexivity|].
           reflexivity.
        -- right. eexists. split; [apply in_or_app; right; left; reflexivity|].
           simpl. auto.
        -- left. exists en. split; [apply in_or_app; auto | assumption].
        -- right. exists en. split; [apply in_or_app; auto | assumption].
      * intros [[en [Hen Hk]]|[en [Hen Hk]]]; apply in_app_or in Hen;
          destruct Hen as [Hen|[<-|[]]]; simpl in *.
        -- right. right. left. exists en. auto.
        -- left. exact Hk.
        -- right. right. right. exists en. auto.
        -- right. left. tauto.
  - cbn [andb] in *.
    destruct (mem str_eqb (header_key n pg) (seen_headers self)) eqn:Hkey;
      cbn [snd] in *; [assumption|].
    assert (Hlab : ~ In n generic_labels).
    { intros Hin. apply mem_str_In in Hin. congruence. }
    intros x. cbn [outline seen_headers set_outline set_seen_headers].
    rewrite mem_add_str, (Htr x). split.
    + intros [->|[[en [Hen Hk]]|[en [Hen Hk]]]].
      * left. eexists. split; [apply in_or_app; right; left; reflexivity|]. reflexivity.
      * left. exists en. split; [apply in_or_app; auto | assumption].
      * right. exists en. split; [apply in_or_app; auto | assumption].
    + intros [[en [Hen Hk]]|[en [Hen Hk]]]; apply in_app_or in Hen;
        destruct Hen as [Hen|[<-|[]]]; simpl in *.
      * right. left. exists en. auto.
      * left. exact Hk.
      * right. right. exists en. auto.
      * exfalso. tauto.
Qed.

Lemma visit_tracked self ie :
  tracked (outline self) (seen_headers self) ->
  tracked (outline (visit self ie)) (seen_headers (visit self ie)).
Proof.
  intros Hinv. destruct ie as [i e]. unfold visit.
  assert (Hbody : forall s, outline s = outline self -> seen_headers s = seen_headers self ->
            forall txt pg,
              tracked (outline (heading_or_body s e txt pg))
                      (seen_headers (heading_or_body s e txt pg))).
  { intros s Ho Hs txt pg. unfold heading_or_body.
    change (outline (set_content ?v ?s)) with (outline s).
    change (seen_headers (set_content ?v ?s)) with (seen_headers s).
    apply offer_heading_tracked. rewrite Ho, Hs. assumption. }
  repeat match goal with
         | |- tracked (outline (if ?b then _ else _)) _ => destruct b
         | |- tracked (outline (match ?o with Some _ => _ | None => _ end)) _ => destruct o
         end;
    try assumption;
    try (apply Hbody; reflexivity).
  apply offer_heading_tracked. assumption.
Qed.

Lemma pass_tracked l :
  forall self,
    tracked (outline self) (seen_headers self) ->
    tracked (outline (fold_left visit l self)) (seen_headers (fold_left visit l self)).
Proof.
  induction l as [|ie l IH]; intros self Hinv; cbn [fold_left]; [assumption|].
  apply IH, visit_tracked, Hinv.
Qed.

(** At every point of the assembly pass, the guard rejects a heading
    exactly when the outline built so far holds a duplicate of it: an
    entry with the same normalized text and page or, for one of the three
    generic labels, an entry with the same normalized text. *)
Theorem guard_rejects_duplicates_only :
  forall self elements found n txt pg,
    identify_title (profiled self elements) elements = Ok found ->
    let reached := fold_left visit (firstn n (enumerate elements))
                     (with_title found (profiled self elements)) in
    snd (should_include_header reached txt pg) = false <->
    duplicate_of (outline reached) txt pg.
Proof.
  intros self elements found n txt pg Hid reached.
  apply should_include_header_tracked. unfold reached. apply pass_tracked.
  rewrite profiled_outline.
  assert (Hseen : seen_headers (with_title found (profiled self elements)) = []).
  { change (seen_headers (profiled self elements) = []). unfold profiled.
    rewrite (analyze_font_characteristics_keeps seen_headers) by frame.
    rewrite (detect_table_elements_keeps seen_headers) by frame. reflexivity. }
  rewrite Hseen. intros x. simpl. split; [discriminate|].
  intros [[en [[] _]]|[en [[] _]]].
Qed.

End Keys.

(* ================================================================== *)
(** * The extractor and the engine *)

Section Extraction.
Context {U : UnicodeDB}.
Variable round_1 : Qc -> Qc.

Lemma line_elements_shape page_num ln e :
  In e (line_elements round_1 page_num ln) ->
  exists t f b,
    e = {| text := Some t; page := Some (Z.of_nat page_num + 1);
           font_size := Some f; bold := Some b |} /\
    strip t = t /\ t <> [].
Proof.
  unfold line_elements.
  destruct (gather_spans (get (spans ln) [])) as [[txt max_font] is_bold].
  destruct (strip txt) as [|c s] eqn:Hs; [contradiction|].
  intros [<-|[]]. exists (c :: s), (round_1 max_font), is_bold.
  split; [reflexivity|]. split; [|discriminate].
  rewrite <- Hs. apply strip_strip.
Qed.

Lemma page_elements_shape page_num blocks e :
  In e (page_elements round_1 page_num blocks) ->
  exists t f b,
    e = {| text := Some t; page := Some (Z.of_nat page_num + 1);
           font_size := Some f; bold := Some b |} /\
    strip t = t /\ t <> [].
Proof.
  unfold page_elements. rewrite in_flat_map. intros [blk [_ Hin]].
  apply in_flat_map in Hin. destruct Hin as [ln [_ Hin]].
  apply (line_elements_shape _ _ _ Hin).
Qed.

Lemma extracted_fragments_well_formed_aux doc e :
  In e (extract_elements_from_pdf round_1 doc) ->
  exists t p f b,
    e = {| text := Some t; page := Some p; font_size := Some f; bold := Some b |} /\
    strip t = t /\ t <> [] /\ 1 <= p <= Z.of_nat (List.length doc).
Proof.
  unfold extract_elements_from_pdf. rewrite in_flat_map.
  intros [[i blocks] [Hpage Hin]]. cbn [fst snd] in Hin.
  apply enumerate_nth in Hpage.
  assert (i < List.length doc)%nat by (apply nth_error_Some; congruence).
  destruct (page_elements_shape _ _ _ Hin) as (t & f & b & -> & Ht & Hne).
  exists t, (Z.of_nat i + 1), f, b. repeat split; try assumption; lia.
Qed.

(** Every fragment the extractor produces has the four keys, a text that
    is trimmed and not empty, and the number of a page of the document,
    counted from 1. *)
Theorem extracted_fragments_well_formed :
  forall doc e,
    In e (extract_elements_from_pdf round_1 doc) ->
    exists t p f b,
      e = {| text := Some t; page := Some p; font_size := Some f; bold := Some b |} /\
      strip t = t /\ t <> [] /\ 1 <= p <= Z.of_nat (List.length doc).
Proof. exact extracted_fragments_well_formed_aux. Qed.

Lemma extracted_pages_from (doc : list (list block)) :
  forall n,
    StronglySorted Z.le
      (map page_of (flat_map (fun pb => page_elements round_1 (fst pb) (snd pb))
                             (enumerate_from n doc))) /\
    forall e, In e (flat_map (fun pb => page_elements round_1 (fst pb) (snd pb))
                             (enumerate_from n doc)) ->
              Z.of_nat n + 1 <= page_of e.
Proof.
  induction doc as [|blocks doc IH]; intros n; simpl.
  - split; [constructor | contradiction].
  - destruct (IH (S n)) as [Hsorted Hlow].
    assert (Hhere : forall e, In e (page_elements round_1 n blocks) ->
                              page_of e = Z.of_nat n + 1).
    { intros e Hin. destruct (page_elements_shape _ _ _ Hin) as (t & f & b & -> & _).
      reflexivity. }
    split.
    + rewrite map_app.
      induction (page_elements round_1 n blocks) as [|e l IHl]; simpl; [assumption|].
      constructor; [apply IHl; intros e' He'; apply Hhere; right; assumption|].
      rewrite Forall_forall. intros p Hp. rewrite (Hhere e (or_introl eq_refl)).
      apply in_app_or in Hp. destruct Hp as [Hp|Hp]; apply in_map_iff in Hp;
        destruct Hp as [e' [<- He']].
      * rewrite (Hhere e' (or_intror He')). lia.
      * specialize (Hlow e' He'). lia.
    + intros e Hin. apply in_app_or in Hin. destruct Hin as [Hin|Hin].
      * rewrite (Hhere e Hin). lia.
      * specialize (Hlow e Hin). lia.
Qed.

(** The extractor lists the fragments page by page: their pages never
    decrease along the sequence. *)
Theorem extracted_pages_sorted :
  forall doc, Sorted Z.le (map page_of (extract_elements_from_pdf round_1 doc)).
Proof.
  intros doc. apply StronglySorted_Sorted. apply (extracted_pages_from doc 0).
Qed.

(** A document taken through the extractor and the engine: the pages of
    the outline never decrease, and no outline entry and no body record
    has the text and page of the title fragment. *)
Theorem extracted_document_outline :
  forall self doc d,
    let elements := extract_elements_from_pdf round_1 doc in
    snd (parse_pdf_data self elements) = Ok d ->
    Sorted Z.le (map entry_page (doc_outline d)) /\
    forall t, title (fst (parse_pdf_data self elements)) = Some t ->
      ~ In (fragment_at t) (map entry_at (doc_outline d)) /\
      ~ In (fragment_at t)
           (map paragraph_at (content (fst (parse_pdf_data self elements)))).
Proof.
  intros self doc d elements Hrun. split.
  - apply StronglySorted_Sorted.
    pose proof (run_outline_subseq self elements Hrun) as Hsub.
    apply (subseq_map snd) in Hsub. rewrite !map_map in Hsub.
    refine (subseq_StronglySorted Hsub _).
    apply (extracted_pages_from doc 0).
  - intros t Ht.
    assert (Hin : In t elements).
    { destruct (parse_pdf_data_pass self elements Hrun) as (found & Hid & _ & _ & Hf & _).
      cbv zeta in Hf. rewrite Ht in Hf. subst found.
      apply (identify_title_In _ _ Hid). }
    destruct (extracted_fragments_well_formed_aux doc t Hin) as (txt & p & f & b & -> & Hs & _).
    unfold fragment_at. cbn [text page get]. rewrite Hs.
    apply (run_skips_title self elements Hrun Ht); auto.
Qed.

End Extraction.

(* ================================================================== *)
(** * The font analysis *)

Section FontAnalysis.
Context {U : UnicodeDB}.

Lemma record_element_count :
  forall l k v,
    In (k, v) (fold_left record_element l []) ->
    count v = Z.of_nat (List.length (of_size k l)).
Proof.
  induction l as [|e l IH] using rev_ind; intros k v Hin.
  - contradiction.
  - rewrite fold_left_app in Hin. cbn [fold_left] in Hin.
    pose proof (profile_of_fold l) as Hprof.
    unfold record_element in Hin.
    apply update_font_In in Hin; [|apply (profile_keys Hprof)].
    rewrite of_size_snoc, length_app.
    destruct Hin as [[Hne Hold]|[-> [[v0 [Hold ->]]|[Hnew ->]]]].
    + assert (Hoff : Qc_eqb (size_of e) k = false).
      { destruct (Qc_eqb (size_of e) k) eqn:Heq; [|reflexivity].
        apply Qc_eqb_eq in Heq. congruence. }
      rewrite Hoff, (IH k v Hold). simpl. lia.
    + rewrite (proj2 (Qc_eqb_eq (size_of e) (size_of e)) eq_refl).
      cbn [count record_fragment]. rewrite (IH _ v0 Hold). simpl. lia.
    + rewrite (proj2 (Qc_eqb_eq (size_of e) (size_of e)) eq_refl).
      rewrite of_size_none by (rewrite <- (profile_sizes Hprof); assumption).
      reflexivity.
Qed.

Lemma profile_pages l d k v :
  profile_of l d -> In (k, v) d -> len_pages v = distinct_page_count k l.
Proof.
  intros [_ _ Hstats] Hin. destruct (Hstats k v Hin) as [_ [Hnd Hpages]].
  unfold distinct_page_count, len_pages. f_equal.
  apply Permutation_length.
  apply NoDup_Permutation; [assumption | apply NoDup_nodup|].
  intros p. rewrite Hpages, nodup_In. reflexivity.
Qed.

(** [font_analysis], as [analyze_font_characteristics] leaves it, has one
    entry for each font size among the fragments that pass the filters of
    4.2, holding the number of those fragments, the characters of their
    trimmed texts and the number of distinct pages they lie on. *)
Theorem font_analysis_summary :
  forall self elements,
    let kept := retained elements in
    let analysis := font_analysis (analyze_font_characteristics self elements) in
    NoDup (map fst analysis) /\
    (forall k, In k (map fst analysis) <-> exists e, In e kept /\ size_of e = k) /\
    (forall k s, In (k, s) analysis ->
       sum_count s = Z.of_nat (List.length (of_size k kept)) /\
       sum_total_chars s = char_total k kept /\
       sum_pages s = distinct_page_count k kept).
Proof.
  intros self elements kept analysis.
  assert (Ha : analysis =
               map (fun kv => (fst kv, {| sum_count := count (snd kv);
                                          sum_total_chars := total_chars (snd kv);
                                          sum_pages := len_pages (snd kv) |}))
                   (scan_fonts elements)) by reflexivity.
  pose proof (profile_of_scan elements) as Hprof. fold kept in Hprof.
  assert (Hkeys : map fst analysis = map fst (scan_fonts elements)).
  { rewrite Ha, map_map. reflexivity. }
  split; [rewrite Hkeys; apply (profile_keys Hprof)|].
  split; [intros k; rewrite Hkeys; apply (profile_sizes Hprof)|].
  intros k s Hin. rewrite Ha in Hin. apply in_map_iff in Hin.
  destruct Hin as [[k' v] [Heq Hin]]. injection Heq as <- <-. cbn [fst snd].
  cbn [sum_count sum_total_chars sum_pages].
  split; [|split].
  - apply record_element_count. unfold scan_fonts in Hin.
    rewrite scan_fonts_record in Hin. exact Hin.
  - apply (profile_stats Hprof _ _ Hin).
  - eapply profile_pages; eassumption.
Qed.

End FontAnalysis.

(* ================================================================== *)
(** * The title text *)

Section TitleTextFacts.
Context {U : UnicodeDB}.

Lemma single_spaced_weaken s : single_spaced true s -> single_spaced false s.
Proof.
  destruct s as [|c s]; simpl; [discriminate|].
  destruct (isspace c); [intros (_ & Hf & _); discriminate | auto].
Qed.

Lemma rev_head_tail (c : char) (s : str) :
  s <> [] -> hd_error (rev (c :: s)) = hd_error (rev s).
Proof.
  intros Hne. simpl. destruct (rev s) as [|x r] eqn:Hr; [|reflexivity].
  exfalso. apply Hne. rewrite <- (rev_involutive s), Hr. reflexivity.
Qed.

(** Collapsing a text that does not end in whitespace. *)
Lemma collapse_from_single_spaced :
  forall s in_run,
    s <> [] ->
    (forall c, hd_error (rev s) = Some c -> isspace c = false) ->
    single_spaced in_run (collapse_from in_run s).
Proof.
  induction s as [|c s IH]; intros in_run Hne Hlast; [congruence|].
  destruct s as [|c' s'] eqn:Hs.
  - simpl in *. rewrite (Hlast c eq_refl). simpl. rewrite (Hlast c eq_refl). reflexivity.
  - assert (Hne' : c' :: s' <> []) by discriminate.
    assert (Hlast' : forall x, hd_error (rev (c' :: s')) = Some x -> isspace x = false).
    { intros x Hx. apply Hlast. rewrite rev_head_tail by assumption. exact Hx. }
    rewrite <- Hs in *. cbn [collapse_from].
    destruct (isspace c) eqn:Hc.
    + destruct in_run.
      * apply IH; assumption.
      * cbn [single_spaced]. destruct (isspace 32%N).
        -- repeat split. apply IH; assumption.
        -- apply single_spaced_weaken. apply IH; assumption.
    + cbn [single_spaced]. rewrite Hc. apply IH; assumption.
Qed.

Lemma strip_last s c : hd_error (rev (strip s)) = Some c -> isspace c = false.
Proof.
  unfold strip, rstrip. rewrite rev_involutive. apply lstrip_head.
Qed.

Lemma strip_first s c : hd_error (strip s) = Some c -> isspace c = false.
Proof.
  unfold strip. apply rstrip_head. intros x. apply lstrip_head.
Qed.

(** The title of a returned document is the default string or the
    trimmed text of the title fragment with its whitespace collapsed: it
    neither starts nor ends with whitespace, and its only whitespace
    characters are single spaces. *)
Theorem title_text_normalised :
  forall self elements d,
    snd (parse_pdf_data self elements) = Ok d ->
    (title (fst (parse_pdf_data self elements)) = None /\
     doc_title d = u"Untitled Document") \/
    (exists t, title (fst (parse_pdf_data self elements)) = Some t /\ In t elements /\
               doc_title d = collapse_ws (strip (get (text t) [])) /\
               single_spaced true (doc_title d)).
Proof.
  intros self elements d Hrun.
  destruct (parse_pdf_data_pass self elements Hrun)
    as (found & Hid & Hfinal & Hd & Ht & _).
  cbv zeta in *. subst d. rewrite Ht. cbn [doc_title].
  destruct found as [t|]; [right | left; auto].
  exists t. split; [reflexivity|].
  split; [apply (identify_title_In _ _ Hid)|].
  assert (Hc : is_candidate (profiled self elements) t).
  { unfold identify_title in Hid.
    destruct (title_candidates (profiled self elements) elements) as [|c0 cs] eqn:Hcs;
      [discriminate|].
    destruct (sort_reverse_exn candidate_lt (c0 :: cs)) as [[|c l]|] eqn:Hs;
      try discriminate.
    injection Hid as <-.
    assert (Hin : In c (title_candidates (profiled self elements) elements)).
    { rewrite Hcs. apply (sort_reverse_exn_In candidate_lt (c0 :: cs) Hs).
      left. reflexivity. }
    apply candidate_is_fragment in Hin. destruct Hin as (e & _ & He & ->). exact He. }
  destruct Hc as (_ & _ & Hlen).
  assert (Htext : text t <> None).
  { intros Hnone. rewrite Hnone in Hlen. unfold len in Hlen. simpl in Hlen. lia. }
  assert (Htruthy : truthy t = true).
  { unfold truthy. destruct (text t); [reflexivity | congruence]. }
  unfold extract_clean_title. rewrite Htruthy. split; [reflexivity|].
  assert (Hne : strip (get (text t) []) <> []).
  { intros Hnil. rewrite Hnil in Hlen. unfold len in Hlen. simpl in Hlen. lia. }
  unfold collapse_ws.
  destruct (strip (get (text t) [])) as [|c s] eqn:Hs; [congruence|].
  assert (Hfirst : isspace c = false).
  { apply (strip_first (get (text t) [])). rewrite Hs. reflexivity. }
  pose proof (@collapse_from_single_spaced (c :: s) false Hne) as Hsp.
  cbn [collapse_from] in *. rewrite Hfirst in *. cbn [single_spaced] in *.
  rewrite Hfirst in *. apply Hsp.
  intros x Hx. apply (strip_last (get (text t) [])). rewrite Hs. exact Hx.
Qed.

End TitleTextFacts.

(* ================================================================== *)
(** * Scenarios *)

Section Scenarios.
#[local] Existing Instance ascii_db.

(** The filters on some texts. *)
Example is_header_footer_examples :
  map (fun s => is_header_footer (fragment s 1 10 false))
      ["Page 12"; "12"; "Chapter 3 intro"; "12/03/2024 report"; "a12/03/2024";
       "1-2 . 3"; "Confidential"; "Revision 3"; "Introduction"]%string
  = [true; true; true; true; false; true; true; false; false].
Proof. vm_compute. reflexivity. Qed.

Example is_version_or_date_examples :
  map (fun s => is_version_or_date (fragment s 1 10 false))
      ["v1.2 beta"; "Version 3"; "rev 2"; "1.2.3"; "Date: today"; "Revision 3";
       "version"]%string
  = [true; true; true; true; true; false; false].
Proof. vm_compute. reflexivity. Qed.

Example is_dots_or_dashes_examples :
  map (fun s => is_dots_or_dashes (fragment s 1 10 false))
      ["...."; ". - _"; "--"; "-- x"]%string
  = [true; true; false; false].
Proof. vm_compute. reflexivity. Qed.

Example is_toc_content_examples :
  map (fun s => is_toc_content (fragment s 1 10 false))
      ["1. Intro ..... 3"; "Intro 3"; "3."; "3.1 Scope"; "Introduction"]%string
  = [true; true; true; true; false].
Proof. vm_compute. reflexivity. Qed.

Example is_table_element_examples :
  map (fun s => is_table_element (fragment s 1 10 false) [fragment s 1 10 false] 0)
      ["Version"; "1.2"; "12/03/2024"; "v1.2.3"; "Rev 4"; "Revision 3"; "Summary"]%string
  = [true; true; true; true; true; true; false].
Proof. vm_compute. reflexivity. Qed.

(** The single-fragment scenario of the specification. *)
Example annual_report_output :
  snd (parse_pdf_data PDFTitleHeaderParser [fragment "Annual Report 2024" 1 24 true]) =
  Ok {| doc_title := u"Annual Report 2024"; doc_outline := [] |}.
Proof. vm_compute. reflexivity. Qed.

(** C4, as the code runs it: the three fragments give the title
    "Introduction" (the largest font) and the outline holds the contents
    heading alone, as an H2 on page 1. *)
Theorem toc_scenario_output :
  forall self,
    snd (parse_pdf_data self toc_scenario) =
    Ok {| doc_title := u"Introduction";
          doc_outline := [heading H2 "Table of Contents" 1] |}.
Proof. intros self. vm_compute. reflexivity. Qed.

(** C4, as stated, fails: the outline is not the single H1 entry
    "Introduction" on page 3. *)
Lemma toc_scenario_not_introduction :
  ~ (exists d, snd (parse_pdf_data PDFTitleHeaderParser toc_scenario) = Ok d /\
               doc_outline d = [heading H1 "Introduction" 3]).
Proof.
  intros [d [Hrun Hout]].
  vm_compute in Hrun. injection Hrun as <-.
  vm_compute in Hout. discriminate Hout.
Qed.

(** The body font the profiler finds in that scenario is 14, the size of
    the contents heading, whose 17 characters outweigh the 16 of the entry
    line. *)
Example toc_scenario_body_font :
  this (paragraph_font_size (profiled PDFTitleHeaderParser toc_scenario)) = 14%Q.
Proof. vm_compute. reflexivity. Qed.

(** C3: on a heading that occurs twice on a page in the same size, once
    bold and once not, the sort of [identify_title] compares two dicts and
    the call raises [TypeError]. *)
Theorem repeated_heading_raises :
  snd (parse_pdf_data PDFTitleHeaderParser repeated_heading) = Raise TypeError.
Proof. vm_compute. reflexivity. Qed.

(** [default_title] on a sequence that holds a page number only. *)
Lemma default_title_witness :
  title_candidates (profiled PDFTitleHeaderParser page_number_only) page_number_only = [] /\
  exists d,
    snd (parse_pdf_data PDFTitleHeaderParser page_number_only) = Ok d /\
    doc_title d = u"Untitled Document" /\
    (page_number_only = [] -> doc_outline d = []).
Proof.
  split.
  - vm_compute. reflexivity.
  - apply (default_title PDFTitleHeaderParser page_number_only).
    vm_compute. reflexivity.
Defined.

(** C5, as stated, fails: the single fragment "Revision 3" is marked by the
    table region detector (index 0) and is the title [identify_title]
    returns. *)
Lemma revision_cell_is_title :
  mem Nat.eqb 0%nat (table_elements (profiled PDFTitleHeaderParser revision_cell)) = true /\
  identify_title (profiled PDFTitleHeaderParser revision_cell) revision_cell =
  Ok (Some (fragment "Revision 3" 1 24 true)).
Proof. split; vm_compute; reflexivity. Qed.

(** [title_pool] on the single fragment "Revision 3". *)
Lemma title_pool_witness :
  identify_title (profiled PDFTitleHeaderParser revision_cell) revision_cell =
  Ok (Some (fragment "Revision 3" 1 24 true)) /\
  (In (fragment "Revision 3" 1 24 true) revision_cell /\
   is_boilerplate (fragment "Revision 3" 1 24 true) = false /\
   is_paragraph_text (profiled PDFTitleHeaderParser revision_cell)
     (fragment "Revision 3" 1 24 true) = false /\
   3 <= len (strip (get (text (fragment "Revision 3" 1 24 true)) [])) /\
   forall marks,
     identify_title (set_table_elements marks (profiled PDFTitleHeaderParser revision_cell))
       revision_cell = Ok (Some (fragment "Revision 3" 1 24 true))).
Proof.
  split.
  - vm_compute. reflexivity.
  - apply (title_pool (profiled PDFTitleHeaderParser revision_cell) revision_cell).
    vm_compute. reflexivity.
Defined.

(** C1, as stated, fails: the marked fragment "Revision 3" sets the body
    font size to 24; without the marked fragments the sequence is empty
    and the size stays 12. *)
Lemma revision_cell_sets_body_font :
  paragraph_font_size (profiled PDFTitleHeaderParser revision_cell) <>
  paragraph_font_size
    (profiled PDFTitleHeaderParser
       (unmarked (profiled PDFTitleHeaderParser revision_cell) revision_cell)).
Proof.
  intros Heq. apply (f_equal this) in Heq. vm_compute in Heq. discriminate Heq.
Qed.

(** C2, as stated, fails: the contents heading lies on page 1, the page of
    the title "Project Handbook", and is promoted to an H1 entry. *)
Lemma contents_heading_on_title_page :
  title_page (fst (parse_pdf_data PDFTitleHeaderParser contents_on_title_page)) = Some 1 /\
  exists d,
    snd (parse_pdf_data PDFTitleHeaderParser contents_on_title_page) = Ok d /\
    In (heading H1 "Table of Contents" 1) (doc_outline d).
Proof.
  split.
  - vm_compute. reflexivity.
  - eexists. split; [vm_compute; reflexivity|]. left. reflexivity.
Qed.

(** [title_page_entries] on the contents heading of that sequence. *)
Lemma title_page_entries_witness :
  exists e,
    In e contents_on_title_page /\
    entry_text (heading H1 "Table of Contents" 1) = strip (get (text e) []) /\
    get (page e) 1 = 1 /\
    is_table_of_contents_header
      (fst (parse_pdf_data PDFTitleHeaderParser contents_on_title_page)) e = true.
Proof.
  apply (title_page_entries PDFTitleHeaderParser contents_on_title_page
           (d := {| doc_title := u"Project Handbook";
                    doc_outline := [heading H1 "Table of Contents" 1] |})).
  - vm_compute. reflexivity.
  - vm_compute. reflexivity.
  - left. reflexivity.
  - reflexivity.
Defined.

(** [outline_without_duplicates] on a sequence that repeats "Overview" on
    two pages and "Results" on one. *)
Lemma outline_without_duplicates_witness :
  let d := {| doc_title := u"Annual Report";
              doc_outline := [heading H1 "Overview" 2; heading H1 "Results" 5] |} in
  snd (parse_pdf_data PDFTitleHeaderParser repeated_overview) = Ok d /\
  (NoDup (map entry_key (doc_outline d)) /\
   forall g, In g generic_labels -> (List.length (labelled g (doc_outline d)) <= 1)%nat).
Proof.
  split.
  - vm_compute. reflexivity.
  - apply (outline_without_duplicates PDFTitleHeaderParser repeated_overview).
    vm_compute. reflexivity.
Defined.

(** [body_font_maximises_score] on the same sequence. *)
Lemma body_font_maximises_score_witness :
  retained repeated_overview <> [] /\
  ((exists e, In e (retained repeated_overview) /\
              size_of e = paragraph_font_size (profiled PDFTitleHeaderParser repeated_overview)) /\
   forall e, In e (retained repeated_overview) ->
     score (size_of e) (retained repeated_overview)
       < score (paragraph_font_size (profiled PDFTitleHeaderParser repeated_overview))
               (retained repeated_overview) \/
     (score (size_of e) (retained repeated_overview)
        = score (paragraph_font_size (profiled PDFTitleHeaderParser repeated_overview))
                (retained repeated_overview) /\
      (size_of e <= paragraph_font_size (profiled PDFTitleHeaderParser repeated_overview))%Qc)).
Proof.
  split.
  - vm_compute. discriminate.
  - apply (proj2 (body_font_maximises_score PDFTitleHeaderParser repeated_overview)).
    vm_compute. discriminate.
Defined.

(** The body font of that sequence is 10: its 111 characters on two pages
    outweigh the 30 characters of size 14 on two pages. *)
Example repeated_overview_body_font :
  this (paragraph_font_size (profiled PDFTitleHeaderParser repeated_overview)) = 10%Q.
Proof. vm_compute. reflexivity. Qed.

(** C10, as stated, fails: the footer "Contents - page 2" contains the
    pattern "contents", but the page-number filter of 4.2 skips it and the
    pass stays outside the contents section. *)
Lemma contents_footer_skipped :
  let e := fragment "Contents - page 2" 2 10 false in
  let self := with_title None (profiled PDFTitleHeaderParser contents_footer) in
  identify_title (profiled PDFTitleHeaderParser contents_footer) contents_footer = Ok None /\
  has_match (Lit "contents") (lower (strip (get (text e) []))) /\
  in_toc_section (visit self (0%nat, e)) = false.
Proof.
  split; [vm_compute; reflexivity|]. split.
  - exists [], (codes "contents"), (codes " - page 2").
    split; [vm_compute; reflexivity | apply Matches_Lit].
  - vm_compute. reflexivity.
Qed.

(** [contents_heading_anywhere] at the fragment "Subject Index", which the
    pass reaches after the title and a line of body text. *)
Lemma contents_heading_anywhere_witness :
  let e := fragment "Subject Index" 9 14 true in
  let self :=
    fold_left visit (firstn 2 (enumerate subject_index))
      (with_title (Some (fragment "Field Guide" 1 24 true))
         (profiled PDFTitleHeaderParser subject_index)) in
  identify_title (profiled PDFTitleHeaderParser subject_index) subject_index =
    Ok (Some (fragment "Field Guide" 1 24 true)) /\
  (in_toc_section (visit self (2%nat, e)) = true /\
   content (visit self (2%nat, e)) = content self).
Proof.
  split; [vm_compute; reflexivity|].
  apply (contents_heading_anywhere _ 2%nat (fragment "Subject Index" 9 14 true)
           (p := Lit "index")).
  - vm_compute. right. right. left. reflexivity.
  - exists (codes "subject "), (codes "index"), [].
    split; [vm_compute; reflexivity | apply Matches_Lit].
  - vm_compute. discriminate.
  - vm_compute. reflexivity.
  - vm_compute. reflexivity.
  - vm_compute. reflexivity.
Defined.

(** ** The further properties on the same sequences *)

Lemma outline_entry_origin_witness :
  exists i e,
    nth_error repeated_overview i = Some e /\
    entry_text (heading H1 "Overview" 2) = strip (get (text e) []) /\
    entry_page (heading H1 "Overview" 2) = get (page e) 1 /\
    entry_text (heading H1 "Overview" 2) <> [] /\
    mem Nat.eqb i
      (table_elements (fst (parse_pdf_data PDFTitleHeaderParser repeated_overview))) = false /\
    is_boilerplate e = false /\
    classify_header_level (fst (parse_pdf_data PDFTitleHeaderParser repeated_overview)) e
    = Some (entry_level (heading H1 "Overview" 2)).
Proof.
  apply (outline_entry_origin PDFTitleHeaderParser repeated_overview
           (d := {| doc_title := u"Annual Report";
                    doc_outline := [heading H1 "Overview" 2; heading H1 "Results" 5] |})).
  - vm_compute. reflexivity.
  - left. reflexivity.
Defined.

Lemma outline_entry_level_witness :
  let final := fst (parse_pdf_data PDFTitleHeaderParser repeated_overview) in
  exists e,
    In e repeated_overview /\ fragment_at e = entry_at (heading H1 "Results" 5) /\
    is_paragraph_text final e = false /\
    (size_of e < title_font_size final)%Qc /\
    (paragraph_font_size final < size_of e)%Qc.
Proof.
  apply (outline_entry_level PDFTitleHeaderParser repeated_overview
           (d := {| doc_title := u"Annual Report";
                    doc_outline := [heading H1 "Overview" 2; heading H1 "Results" 5] |})
           (heading H1 "Results" 5)).
  - vm_compute. reflexivity.
  - right. left. reflexivity.
Defined.

Lemma outline_in_fragment_order_witness :
  let d := {| doc_title := u"Annual Report";
              doc_outline := [heading H1 "Overview" 2; heading H1 "Results" 5] |} in
  subseq (map entry_at (doc_outline d)) (map fragment_at repeated_overview) /\
  (Sorted Z.le (map page_of repeated_overview) ->
   Sorted Z.le (map entry_page (doc_outline d))).
Proof.
  apply (outline_in_fragment_order PDFTitleHeaderParser repeated_overview).
  vm_compute. reflexivity.
Defined.

Lemma outline_texts_trimmed_witness :
  strip (entry_text (heading H1 "Overview" 2)) = entry_text (heading H1 "Overview" 2) /\
  entry_text (heading H1 "Overview" 2) <> [].
Proof.
  apply (outline_texts_trimmed PDFTitleHeaderParser repeated_overview
           (d := {| doc_title := u"Annual Report";
                    doc_outline := [heading H1 "Overview" 2; heading H1 "Results" 5] |})).
  - vm_compute. reflexivity.
  - left. reflexivity.
Defined.

Lemma title_fragment_left_out_witness :
  ~ In (u"Annual Report", 1)
       (map entry_at [heading H1 "Overview" 2; heading H1 "Results" 5]) /\
  ~ In (u"Annual Report", 1)
       (map paragraph_at
          (content (fst (parse_pdf_data PDFTitleHeaderParser repeated_overview)))).
Proof.
  apply (title_fragment_left_out PDFTitleHeaderParser repeated_overview
           (d := {| doc_title := u"Annual Report";
                    doc_outline := [heading H1 "Overview" 2; heading H1 "Results" 5] |})
           (t := fragment "Annual Report" 1 24 true)).
  - vm_compute. reflexivity.
  - vm_compute. reflexivity.
  - reflexivity.
  - vm_compute. reflexivity.
  - reflexivity.
Defined.

(** Without the precondition on the title's text the title does reach the
    body content: its text is compared untrimmed. *)
Example untrimmed_title_in_content :
  snd (parse_pdf_data PDFTitleHeaderParser untrimmed_title) =
    Ok {| doc_title := u"Annual Report"; doc_outline := [] |} /\
  map paragraph_at (content (fst (parse_pdf_data PDFTitleHeaderParser untrimmed_title)))
  = [(u"Annual Report", 1)].
Proof. split; vm_compute; reflexivity. Qed.

Lemma identify_title_largest_witness :
  let self := profiled PDFTitleHeaderParser repeated_overview in
  let t := fragment "Annual Report" 1 24 true in
  In t repeated_overview /\ is_candidate self t /\
  forall e, In e repeated_overview -> is_candidate self e ->
    (size_of e < size_of t)%Qc \/
    (size_of e = size_of t /\
     (page_of e < page_of t \/
      (page_of e = page_of t /\
       str_ltb (strip (get (text t) [])) (strip (get (text e) [])) = false))).
Proof.
  apply (identify_title_largest (profiled PDFTitleHeaderParser repeated_overview)
           repeated_overview).
  vm_compute. reflexivity.
Defined.

(** After four fragments the outline holds "Overview" of page 2, and the
    guard rejects "Overview" of page 5. *)
Lemma guard_rejects_duplicates_only_witness :
  let reached :=
    fold_left visit (firstn 4 (enumerate repeated_overview))
      (with_title (Some (fragment "Annual Report" 1 24 true))
         (profiled PDFTitleHeaderParser repeated_overview)) in
  snd (should_include_header reached (u"Overview") 5) = false /\
  (snd (should_include_header reached (u"Overview") 5) = false <->
   duplicate_of (outline reached) (u"Overview") 5).
Proof.
  split.
  - vm_compute. reflexivity.
  - apply (guard_rejects_duplicates_only PDFTitleHeaderParser repeated_overview).
    vm_compute. reflexivity.
Defined.

(** The extractor on the sample document: the heading of page 1, joined
    from its two spans, and the line of page 2. *)
Example sample_doc_elements :
  extract_elements_from_pdf (fun x => x) sample_doc =
  [ fragment "Annual Report" 1 24 true; fragment "The year in review." 2 10 false ].
Proof. vm_compute. reflexivity. Qed.

Lemma extracted_fragments_well_formed_witness :
  exists t p f b,
    fragment "Annual Report" 1 24 true =
      {| text := Some t; page := Some p; font_size := Some f; bold := Some b |} /\
    strip t = t /\ t <> [] /\ 1 <= p <= Z.of_nat (List.length sample_doc).
Proof.
  apply (extracted_fragments_well_formed (fun x => x) sample_doc).
  vm_compute. left. reflexivity.
Defined.

Lemma extracted_document_outline_witness :
  let elements := extract_elements_from_pdf (fun x => x) sample_doc in
  let d := {| doc_title := u"Annual Report"; doc_outline := [] |} in
  Sorted Z.le (map entry_page (doc_outline d)) /\
  forall t, title (fst (parse_pdf_data PDFTitleHeaderParser elements)) = Some t ->
    ~ In (fragment_at t) (map entry_at (doc_outline d)) /\
    ~ In (fragment_at t)
         (map paragraph_at (content (fst (parse_pdf_data PDFTitleHeaderParser elements)))).
Proof.
  apply (extracted_document_outline (fun x => x) PDFTitleHeaderParser sample_doc).
  vm_compute. reflexivity.
Defined.

Lemma title_text_normalised_witness :
  let d := {| doc_title := u"Annual Report";
              doc_outline := [heading H1 "Overview" 2; heading H1 "Results" 5] |} in
  (title (fst (parse_pdf_data PDFTitleHeaderParser repeated_overview)) = None /\
   doc_title d = u"Untitled Document") \/
  (exists t, title (fst (parse_pdf_data PDFTitleHeaderParser repeated_overview)) = Some t /\
             In t repeated_overview /\
             doc_title d = collapse_ws (strip (get (text t) [])) /\
             single_spaced true (doc_title d)).
Proof.
  apply (title_text_normalised PDFTitleHeaderParser repeated_overview).
  vm_compute. reflexivity.
Defined.

End Scenarios.
